(** * Daily e-mail digest pipeline: a shallow embedding

    The development follows [src/services/summaryService.js] together with
    the collaborators it calls ([config/openai.js], [services/emailService.js],
    [services/notificationService.js], [models/summary.js], [models/email.js],
    [config/gmail.js]) and the two routes of [routes/summaryRoutes.js] that
    call it.

    Conventions.
    - A JavaScript string is a [string]: a sequence of code units below 256.
    - A [Date] is its time value in milliseconds, a [Z]; local time follows
      ECMAScript's [LocalTZA], an oracle of the [World]. The services are
      modelled on valid dates; the one place an invalid date can come in,
      the body of a request, is dealt with at the route.
    - An ObjectId is a [nat], shown by [showNat].
    - An [async] function is a state transformer that either returns or
      throws; every [await] is sequential, as in the source.
    - The generation backend and the mail transport are oracles of the
      [World]: the answer to the [n]-th request.
    - The two stores are lists of documents. [Email.updateMany] may be made
      to reject; the other store operations fail only as the schema says
      (unique date, required content). One interleaving with another run
      is represented: its save of a digest between this run's existence
      check and this run's own save.
    - [console.log] output is not represented; [logger] calls are, as
      entries of the trace, next to the requests sent to the collaborators. *)

From Stdlib Require Import List String Ascii ZArith Lia Bool Arith DecimalString.
From Stdlib Require Import Sorted Permutation.
Import ListNotations.

Local Open Scope string_scope.
Local Open Scope list_scope.

(** ** JavaScript string primitives used by the services *)

Module JsString.

(** White space as [String.prototype.trim] sees it, restricted to code
    units below 256: TAB, LF, VT, FF, CR, SPACE and NBSP. *)
Definition isWhitespace (c : ascii) : bool :=
  let n := nat_of_ascii c in
  ((9 <=? n)%nat && (n <=? 13)%nat) || (n =? 32)%nat || (n =? 160)%nat.

Fixpoint trimStart (s : string) : string :=
  match s with
  | EmptyString => EmptyString
  | String c r => if isWhitespace c then trimStart r else s
  end.

Fixpoint trimEnd (s : string) : string :=
  match s with
  | EmptyString => EmptyString
  | String c r =>
      match trimEnd r with
      | EmptyString => if isWhitespace c then EmptyString
                       else String c EmptyString
      | r' => String c r'
      end
  end.

Definition trim (s : string) : string := trimEnd (trimStart s).

(** [s.includes(c)] for a one-character needle. *)
Fixpoint includes (c : ascii) (s : string) : bool :=
  match s with
  | EmptyString => false
  | String d r => Ascii.eqb d c || includes c r
  end.

(** [s.split(c)] for a one-character separator: never the empty list. *)
Fixpoint split (sep : ascii) (s : string) : list string :=
  match s with
  | EmptyString => [EmptyString]
  | String c r =>
      if Ascii.eqb c sep then EmptyString :: split sep r
      else match split sep r with
           | [] => [String c EmptyString]
           | h :: t => String c h :: t
           end
  end.

(** [l.join(sep)]. *)
Fixpoint join (sep : string) (l : list string) : string :=
  match l with
  | [] => EmptyString
  | [x] => x
  | x :: r => (x ++ sep ++ join sep r)%string
  end.

(** [s.replace(/\n/g, '<br>')]. *)
Fixpoint replaceNewlines (s : string) : string :=
  match s with
  | EmptyString => EmptyString
  | String c r =>
      if Ascii.eqb c "010"%char then ("<br>" ++ replaceNewlines r)%string
      else String c (replaceNewlines r)
  end.

(** [s.replace(/<[^>]*>/g, '')]: [inTag] is set while the scan is between
    a matched '<' and its closing '>'. A '<' with no later '>' matches
    nothing and is kept. *)
Fixpoint stripTagsFrom (inTag : bool) (s : string) : string :=
  match s with
  | EmptyString => EmptyString
  | String c r =>
      if inTag then
        stripTagsFrom (negb (Ascii.eqb c ">"%char)) r
      else if Ascii.eqb c "<"%char && includes ">"%char r then
        stripTagsFrom true r
      else String c (stripTagsFrom false r)
  end.

Definition stripTags (s : string) : string := stripTagsFrom false s.

Definition LF : string := String "010"%char EmptyString.

End JsString.
Import JsString.

(** ** [Array.prototype.slice] and the partition loop of [processBatches] *)

Section Slice.
Context {A : Type}.

(** [l.slice(start, stop)] with JavaScript's treatment of negative and
    out-of-range indices. *)
Definition slice (l : list A) (start stop : Z) : list A :=
  let len := Z.of_nat (List.length l) in
  let k := if (start <? 0)%Z then Z.max (len + start)%Z 0 else Z.min start len in
  let fin := if (stop <? 0)%Z then Z.max (len + stop)%Z 0 else Z.min stop len in
  firstn (Z.to_nat (fin - k)%Z) (skipn (Z.to_nat k) l).

(** The loop [for (let i = 0; i < emails.length; i += batchSize)] from
    index [i] on, one unit of fuel per turn: [None] is "not at its end
    after [fuel] turns". For a non-positive [batchSize] on a non-empty
    list the index never reaches the length and every turn appends a
    batch; what ends that loop, the limit on the length of an array, is
    with the caller, [processBatches]. *)
Fixpoint batchesFrom (fuel : nat) (emails : list A) (batchSize i : Z)
  : option (list (list A)) :=
  if (i <? Z.of_nat (List.length emails))%Z then
    match fuel with
    | O => None
    | S fuel' =>
        option_map (cons (slice emails i (i + batchSize)%Z))
                   (batchesFrom fuel' emails batchSize (i + batchSize)%Z)
    end
  else Some [].

Definition makeBatches (fuel : nat) (emails : list A) (batchSize : Z)
  : option (list (list A)) :=
  batchesFrom fuel emails batchSize 0.

End Slice.

(** ** Data model *)

(** A stored message ([models/email.js]). The fields no modelled function
    reads (cc, bcc, htmlBody, labels, attachments, metadata) are left out. *)
Record Email := mkEmail {
  email_id : nat;
  messageId : string;
  threadId : string;
  from : string;
  to : string;
  subject : string;
  snippet : string;
  body : string;
  receivedAt : Z;
  isProcessed : bool;
  isSummarized : bool
}.

(** What [prepareEmailsForSummary] hands to the generation steps. *)
Record PreparedEmail := mkPrepared {
  p_id : nat;
  p_subject : string;
  p_from : string;
  p_receivedAt : Z;
  p_content : string;
  p_snippet : string
}.

Record Category := mkCategory {
  name : string;
  description : string
}.

(** A digest ([models/summary.js]); [date] carries the unique index. *)
Record Summary := mkSummary {
  summary_id : nat;
  date : Z;
  topicCategories : list Category;
  content : string;
  emailCount : nat;
  emailIds : list nat;
  isDistributed : bool;
  distributedAt : option Z;
  distributionRecipients : list string
}.

(** One element of [allSummaries] in [processBatches]. *)
Record BatchSummary := mkBatchSummary {
  bs_emails : list PreparedEmail;
  bs_summary : string
}.

(** ** Errors, log entries and the trace of effects *)

Inductive JsError : Type :=
| ProviderError (msg : string)      (* the generation backend rejects *)
| DuplicateKeyError (d : Z)         (* unique index on [date] violated *)
| ValidationError (model path : string) (* a [required] path is missing *)
| DocumentNotFoundError (id : nat)  (* [save] on a document that is gone *)
| StoreError (msg : string)         (* the message store rejects *)
| TransportError (msg : string)     (* the mail transport rejects *)
| PlainError (msg : string).        (* [new Error(msg)] *)

(** [error.message]. The texts of the duplicate-key and the
    document-not-found error, which go on with the collection and the
    query, are cut after their fixed part. *)
Definition message (e : JsError) : string :=
  match e with
  | ProviderError m | StoreError m | TransportError m | PlainError m => m
  | DuplicateKeyError _ => "E11000 duplicate key error"
  | ValidationError m p =>
      (m ++ " validation failed: " ++ p ++ ": Path `" ++ p ++ "` is required.")%string
  | DocumentNotFoundError _ => "No document found"
  end.

(** The [logger] call sites of the modelled functions. *)
Inductive LogEntry : Type :=
| InfoSummaryExists (startDate : Z)
| InfoNoEmails (startDate : Z)
| InfoGenerating (n : nat) (startDate : Z)
| InfoCreated (startDate : Z) (n : nat)
| InfoMarked (modified : nat)
| InfoAlreadyDistributed (id : nat) (at_ : option Z)
| InfoDistributed (id : nat) (recipient : string)
| InfoResendInitialized
| InfoEmailSent (id : option string)
| InfoMockEmailSent (id : option string)
| ErrorProcessingBatch (e : JsError)
| ErrorCategorizing (e : JsError)
| ErrorCombined (e : JsError)
| ErrorCreating (e : JsError)
| ErrorDistributing (id : nat) (e : JsError)
| ErrorDistributingParam (raw : string) (e : JsError)
| ErrorOpenAISummary (e : JsError)
| ErrorOpenAICategorize (e : JsError)
| ErrorFetchingForSummary (e : JsError)
| ErrorMarking (e : JsError)
| ErrorInitResend (e : JsError)
| ErrorSendingEmail (e : JsError).

(** A request to [openai.chat.completions.create]; the temperature is kept
    in tenths (0.3 is 3). *)
Record ChatRequest := mkChat {
  chat_model : string;
  chat_system : string;
  chat_user : string;
  chat_max_tokens : Z;
  chat_temperature10 : Z
}.

(** The argument of [service.emails.send]. *)
Record Mail := mkMail {
  mail_from : string;
  mail_to : string;
  mail_subject : string;
  mail_html : option string;
  mail_text : option string
}.

(** What [sendEmail] resolves to. *)
Record MailResult := mkMailResult {
  result_id : option string;
  result_mock : bool;
  result_error : option string
}.

Inductive Event : Type :=
| Log (l : LogEntry)
| ChatCall (r : ChatRequest)        (* one generation-backend request *)
| SendEmailCall (to_ subject_ : string)  (* [sendEmail] entered *)
| TransportSend (m : Mail).         (* the real transport was asked to deliver *)

(** ** Collaborators and process environment *)

(** What the Resend client's [emails.send] does with a mail. *)
Inductive TransportOutcome : Type :=
| Delivered (id : string)
| ErrorField (msg : string)         (* resolves to [{ error: { message } }] *)
| Rejected (e : JsError).

Inductive MailService : Type := ResendService | MockService.

Record World := mkWorld {
  NODE_ENV : option string;
  RESEND_API_KEY : option string;
  EMAIL_FROM : option string;
  SUMMARY_RECIPIENT_EMAIL : option string;
  (** [parseInt(process.env.EMAILS_BATCH_SIZE)]; [None] is [NaN]. *)
  EMAILS_BATCH_SIZE : option Z;
  (** ECMAScript's [LocalTZA(t, isUTC)]: the offset of local time from
      UTC, in milliseconds, in effect at [t], which is a UTC time value
      when [isUTC] is set and a local one otherwise. It changes where
      the time zone changes its clocks. *)
  localTZA : Z -> bool -> Z;
  (** [Date.now()]. *)
  now : Z;
  toISOString : Z -> string;
  toDateString : Z -> string;
  (** The generation backend: the answer to the [n]-th request. *)
  chatCompletion : nat -> ChatRequest -> JsError + string;
  (** The Resend transport: what happens to the [n]-th mail. *)
  resendSend : nat -> Mail -> TransportOutcome;
  (** [new Resend(key)] may throw. *)
  resendCtor : option JsError;
  (** [Email.updateMany] may reject. *)
  updateManyFault : option JsError;
  (** A digest another run saves while this run is between its existence
      check and its own save. *)
  concurrentSave : option Summary
}.

Record State := mkState {
  emailStore : list Email;
  summaryStore : list Summary;
  nextObjectId : nat;
  emailService : option MailService;
  useMockTransport : bool;
  trace : list Event
}.

Definition truthy (v : option string) : bool :=
  match v with
  | Some (String _ _) => true
  | _ => false
  end.

Definition orElse (v : option string) (d : string) : string :=
  if truthy v then match v with Some s => s | None => d end else d.

(** Module-load value of [useMockTransport] in the notification service. *)
Definition initialState (w : World) (es : list Email) (ss : list Summary)
  (next : nat) : State :=
  {| emailStore := es; summaryStore := ss; nextObjectId := next;
     emailService := None;
     useMockTransport :=
       match NODE_ENV w with
       | Some env => String.eqb env "test"
       | None => false
       end || negb (truthy (RESEND_API_KEY w));
     trace := [] |}.

Definition withEmails (s : State) (es : list Email) : State :=
  {| emailStore := es; summaryStore := summaryStore s;
     nextObjectId := nextObjectId s; emailService := emailService s;
     useMockTransport := useMockTransport s; trace := trace s |}.

Definition withSummaries (s : State) (ss : list Summary) : State :=
  {| emailStore := emailStore s; summaryStore := ss;
     nextObjectId := nextObjectId s; emailService := emailService s;
     useMockTransport := useMockTransport s; trace := trace s |}.

Definition withNextId (s : State) (n : nat) : State :=
  {| emailStore := emailStore s; summaryStore := summaryStore s;
     nextObjectId := n; emailService := emailService s;
     useMockTransport := useMockTransport s; trace := trace s |}.

Definition withMailer (s : State) (svc : option MailService) (mock : bool)
  : State :=
  {| emailStore := emailStore s; summaryStore := summaryStore s;
     nextObjectId := nextObjectId s; emailService := svc;
     useMockTransport := mock; trace := trace s |}.

Definition appendEvents (s : State) (evs : list Event) : State :=
  {| emailStore := emailStore s; summaryStore := summaryStore s;
     nextObjectId := nextObjectId s; emailService := emailService s;
     useMockTransport := useMockTransport s; trace := trace s ++ evs |}.

Definition withEvent (s : State) (ev : Event) : State := appendEvents s [ev].

Definition isChatCall (ev : Event) : bool :=
  match ev with ChatCall _ => true | _ => false end.

Definition isTransportSend (ev : Event) : bool :=
  match ev with TransportSend _ => true | _ => false end.

Definition isSendEmailCall (ev : Event) : bool :=
  match ev with SendEmailCall _ _ => true | _ => false end.

Definition isLog (ev : Event) : bool :=
  match ev with Log _ => true | _ => false end.

Definition chatCalls (t : list Event) : list Event := filter isChatCall t.
Definition sendEmailCalls (t : list Event) : list Event := filter isSendEmailCall t.
Definition transportSends (t : list Event) : list Event := filter isTransportSend t.

(** ** The monad of [async] functions: state, exceptions, fuel *)

Inductive Outcome (A : Type) : Type :=
| Return (a : A)
| Throw (e : JsError)
| OutOfFuel.
Arguments Return {A} a.
Arguments Throw {A} e.
Arguments OutOfFuel {A}.

Definition M (A : Type) : Type := State -> Outcome A * State.

Definition ret {A} (a : A) : M A := fun s => (Return a, s).
Definition throw {A} (e : JsError) : M A := fun s => (Throw e, s).
Definition outOfFuel {A} : M A := fun s => (OutOfFuel, s).

Definition bind {A B} (m : M A) (k : A -> M B) : M B :=
  fun s =>
    match m s with
    | (Return a, s') => k a s'
    | (Throw e, s') => (Throw e, s')
    | (OutOfFuel, s') => (OutOfFuel, s')
    end.

(** [try { m } catch (error) { h error }]. *)
Definition tryCatch {A} (m : M A) (h : JsError -> M A) : M A :=
  fun s =>
    match m s with
    | (Throw e, s') => h e s'
    | r => r
    end.

Definition get : M State := fun s => (Return s, s).
Definition modify (f : State -> State) : M unit := fun s => (Return tt, f s).
Definition emit (ev : Event) : M unit := modify (fun s => withEvent s ev).
Definition logger (l : LogEntry) : M unit := emit (Log l).

Declare Scope js_scope.
Delimit Scope js_scope with js.
Notation "x <- m ;; k" := (bind m (fun x => k))
  (at level 100, m at next level, right associativity) : js_scope.
Notation "m ;;; k" := (bind m (fun _ => k))
  (at level 100, right associativity) : js_scope.
Local Open Scope js_scope.

(** ** [config/openai.js] *)

Definition DEFAULT_MODEL : string := "gpt-4-turbo".

Record Options := mkOptions {
  opt_model : option string;
  opt_maxTokens : option Z
}.

Definition noOptions : Options := {| opt_model := None; opt_maxTokens := None |}.

(** One [await openai.chat.completions.create(req)]: the request is
    recorded, then the backend answers or rejects. *)
Definition createCompletion (w : World) (req : ChatRequest) : M string :=
  s <- get ;;
  emit (ChatCall req) ;;;
  match chatCompletion w (List.length (chatCalls (trace s))) req with
  | inr text => ret text
  | inl e => throw e
  end.

(** The request [generateSummary] builds. *)
Definition summaryRequest (model : string) (maxTokens : Z) (content_ : string)
  : ChatRequest :=
  {| chat_model := model;
     chat_system := "You are an assistant that summarizes email content. Extract the key topics, important information, and action items. Organize the summary by topic areas.";
     chat_user := ("Summarize the following email content:" ++ LF ++ LF ++ content_)%string;
     chat_max_tokens := maxTokens;
     chat_temperature10 := 3 |}.

Definition generateSummary (w : World) (content_ : string) (options : Options)
  : M string :=
  tryCatch
    (let model := orElse (opt_model options) DEFAULT_MODEL in
     let maxTokens :=
       match opt_maxTokens options with
       | Some n => if (n =? 0)%Z then 1000%Z else n
       | None => 1000%Z
       end in
     response <- createCompletion w (summaryRequest model maxTokens content_) ;;
     ret (trim response))
    (fun error => logger (ErrorOpenAISummary error) ;;; throw error).

Definition subjectOrDefault (e : PreparedEmail) : string :=
  match p_subject e with
  | EmptyString => "No Subject"
  | s => s
  end.

(** The request [categorizeEmails] builds. *)
Definition categorizeRequest (emails : list PreparedEmail) : ChatRequest :=
  let emailSubjects := join LF (map subjectOrDefault emails) in
  {| chat_model := DEFAULT_MODEL;
     chat_system := "You are an assistant that categorizes email subjects into logical topic groups. Identify 3-7 key topics.";
     chat_user := ("Categorize these email subjects into logical topic groups:" ++ LF ++ LF ++ emailSubjects)%string;
     chat_max_tokens := 500;
     chat_temperature10 := 2 |}.

Definition categorizeEmails (w : World) (emails : list PreparedEmail) : M string :=
  tryCatch
    (response <- createCompletion w (categorizeRequest emails) ;;
     ret (trim response))
    (fun error => logger (ErrorOpenAICategorize error) ;;; throw error).

(** ** [services/emailService.js]: the message store *)

(** [.sort({ receivedAt: 1 })], as a stable insertion sort: messages with
    equal timestamps keep their store order. *)
Fixpoint insertByReceivedAt (e : Email) (l : list Email) : list Email :=
  match l with
  | [] => [e]
  | x :: r => if (receivedAt e <=? receivedAt x)%Z then e :: l
              else x :: insertByReceivedAt e r
  end.

Definition sortByReceivedAt (l : list Email) : list Email :=
  fold_right insertByReceivedAt [] l.

Definition inRangeUnsummarized (startDate endDate : Z) (e : Email) : bool :=
  (startDate <=? receivedAt e)%Z && (receivedAt e <=? endDate)%Z
  && negb (isSummarized e).

Definition getEmailsForSummary (startDate endDate : Z) : M (list Email) :=
  tryCatch
    (s <- get ;;
     ret (sortByReceivedAt
            (filter (inRangeUnsummarized startDate endDate) (emailStore s))))
    (fun error => logger (ErrorFetchingForSummary error) ;;; throw error).

Definition idIn (ids : list nat) (e : Email) : bool :=
  existsb (Nat.eqb (email_id e)) ids.

Definition setSummarized (e : Email) : Email :=
  {| email_id := email_id e; messageId := messageId e; threadId := threadId e;
     from := from e; to := to e; subject := subject e; snippet := snippet e;
     body := body e; receivedAt := receivedAt e; isProcessed := isProcessed e;
     isSummarized := true |}.

(** [Email.updateMany({ _id: { $in: ids } }, { $set: { isSummarized: true } })]
    and its [modifiedCount]. *)
Definition updateMany (w : World) (ids : list nat) : M nat :=
  match updateManyFault w with
  | Some e => throw e
  | None =>
      s <- get ;;
      modify (fun s =>
        withEmails s
          (map (fun e => if idIn ids e then setSummarized e else e)
               (emailStore s))) ;;;
      ret (List.length
             (filter (fun e => idIn ids e && negb (isSummarized e))
                     (emailStore s)))
  end.

Definition markEmailsAsSummarized (w : World) (emailIds_ : list nat) : M nat :=
  tryCatch
    (modifiedCount <- updateMany w emailIds_ ;;
     logger (InfoMarked modifiedCount) ;;;
     ret modifiedCount)
    (fun error => logger (ErrorMarking error) ;;; throw error).

(** ** [models/summary.js]: the digest store *)

(** [Summary.findOne({ date })]. *)
Definition findOneByDate (d : Z) : M (option Summary) :=
  s <- get ;;
  ret (find (fun x => (date x =? d)%Z) (summaryStore s)).

(** [Summary.findById(id)] for an [id] that is an ObjectId. For a string
    that is not one, which a route can pass on, the call throws a
    CastError: see [distributeUncastable]. *)
Definition findById (id : nat) : M (option Summary) :=
  s <- get ;;
  ret (find (fun x => Nat.eqb (summary_id x) id) (summaryStore s)).

(** [new Summary({ date, content, topicCategories, emailCount, emailIds })]:
    a fresh [_id] and the schema defaults. *)
Definition newSummary (d : Z) (content_ : string) (cats : list Category)
  (count : nat) (ids : list nat) : M Summary :=
  s <- get ;;
  modify (fun s => withNextId s (S (nextObjectId s))) ;;;
  ret {| summary_id := nextObjectId s; date := d; topicCategories := cats;
         content := content_; emailCount := count; emailIds := ids;
         isDistributed := false; distributedAt := None;
         distributionRecipients := [] |}.

(** Schema validation: [content] is a required string, which the empty
    string does not satisfy. The other required paths always hold a value. *)
Definition validate (doc : Summary) : M unit :=
  match content doc with
  | EmptyString => throw (ValidationError "Summary" "content")
  | _ => ret tt
  end.

(** [doc.save()] on a document built with [new]: an insert, refused by the
    unique index when the date is taken. *)
Definition saveNew (doc : Summary) : M unit :=
  validate doc ;;;
  s <- get ;;
  if existsb (fun x => (date x =? date doc)%Z) (summaryStore s)
  then throw (DuplicateKeyError (date doc))
  else modify (fun s => withSummaries s (summaryStore s ++ [doc])).

(** [doc.save()] on a loaded document: an update of the stored one. *)
Definition saveExisting (doc : Summary) : M unit :=
  validate doc ;;;
  s <- get ;;
  if existsb (fun x => Nat.eqb (summary_id x) (summary_id doc)) (summaryStore s)
  then modify (fun s =>
         withSummaries s
           (map (fun x => if Nat.eqb (summary_id x) (summary_id doc)
                          then doc else x)
                (summaryStore s)))
  else throw (DocumentNotFoundError (summary_id doc)).

(** The other run's save, when there is one. *)
Definition concurrentRun (w : World) : M unit :=
  match concurrentSave w with
  | Some d => tryCatch (saveNew d) (fun _ => ret tt)
  | None => ret tt
  end.

(** ** [services/summaryService.js] *)

Definition prepareEmailsForSummary (emails : list Email) : list PreparedEmail :=
  map (fun email =>
         {| p_id := email_id email; p_subject := subject email;
            p_from := from email; p_receivedAt := receivedAt email;
            p_content := body email; p_snippet := snippet email |})
      emails.

(** The text block of one batch. *)
Definition batchContent (w : World) (batch : list PreparedEmail) : string :=
  join ""
    (map (fun email =>
            ("From: " ++ p_from email ++ LF ++
             "Subject: " ++ p_subject email ++ LF ++
             "Date: " ++ toISOString w (p_receivedAt email) ++ LF ++ LF ++
             p_content email ++ LF ++ LF ++ "---" ++ LF ++ LF)%string)
         batch).

(** The second loop of [processBatches]: a batch whose summary cannot be
    generated is logged and skipped. *)
Fixpoint summarizeBatches (w : World) (batches : list (list PreparedEmail))
  (allSummaries : list BatchSummary) : M (list BatchSummary) :=
  match batches with
  | [] => ret allSummaries
  | batch :: rest =>
      allSummaries' <-
        tryCatch
          (batchSummary <- generateSummary w (batchContent w batch) noOptions ;;
           ret (allSummaries ++
                [{| bs_emails := batch; bs_summary := batchSummary |}]))
          (fun error =>
             logger (ErrorProcessingBatch error) ;;; ret allSummaries) ;;
      summarizeBatches w rest allSummaries'
  end.

(** An array holds at most [2^32 - 1] elements: the [push] after that
    many throws a RangeError. A process whose heap is full before that is
    aborted, which no function of the program observes. *)
Definition arrayLimit : Z := 4294967295.

Definition invalidArrayLength : JsError := PlainError "Invalid array length".

(** The partition loop is outside the [try] of the summarizing loop: when
    it is still running after [arrayLimit] turns, the next [batches.push]
    throws to the caller. *)
Definition processBatches (fuel : nat) (w : World)
  (emails : list PreparedEmail) (batchSize : Z) : M (list BatchSummary) :=
  match makeBatches fuel emails batchSize with
  | None =>
      if (arrayLimit <=? Z.of_nat fuel)%Z then throw invalidArrayLength
      else outOfFuel
  | Some batches => summarizeBatches w batches []
  end.

(** The parsing of the categorization text in [generateCombinedSummary]. *)
Definition categoryOfLine (line : string) : Category :=
  let name_ :=
    if includes ":"%char line
    then trim (hd EmptyString (split ":"%char line))
    else trim line in
  {| name := name_; description := trim line |}.

Definition parseCategories (categorization : string) : list Category :=
  map categoryOfLine
    (filter (fun line => (0 <? String.length (trim line))%nat)
            (split "010"%char categorization)).

Definition BATCH_SEPARATOR : string :=
  (LF ++ LF ++ "===BATCH SEPARATOR===" ++ LF ++ LF)%string.

Definition combinedContentOf (batchSummaries : list BatchSummary) : string :=
  join BATCH_SEPARATOR (map bs_summary batchSummaries).

Definition mergePrompt (batchSummaries : list BatchSummary) : string :=
  ("Please create a consolidated daily email summary from the following batch summaries:"
   ++ LF ++ LF ++ combinedContentOf batchSummaries)%string.

Definition generateCombinedSummary (w : World)
  (batchSummaries : list BatchSummary) (allEmails : list PreparedEmail)
  : M (string * list Category) :=
  tryCatch
    (topicCategories_ <-
       tryCatch
         (categorization <- categorizeEmails w allEmails ;;
          ret (parseCategories categorization))
         (fun error => logger (ErrorCategorizing error) ;;; ret []) ;;
     finalSummaryContent <-
       generateSummary w (mergePrompt batchSummaries) noOptions ;;
     ret (finalSummaryContent, topicCategories_))
    (fun error => logger (ErrorCombined error) ;;; throw error).

Definition msPerDay : Z := 86400000.

(** ECMAScript's [LocalTime(t)] and [UTC(t)]. *)
Definition localTime (w : World) (t : Z) : Z := (t + localTZA w t true)%Z.

Definition utcTime (w : World) (t : Z) : Z := (t - localTZA w t false)%Z.

(** [Day(t) * msPerDay]: the start of the day of a time value. *)
Definition dayStart (t : Z) : Z := (t / msPerDay * msPerDay)%Z.

(** [d.setHours(0, 0, 0, 0)] and [d.setHours(23, 59, 59, 999)]: the time
    within the local day is replaced and the result taken back to UTC,
    so that the two ends are 23 or 25 hours apart on a day on which the
    clocks change. *)
Definition startOfDay (w : World) (d : Z) : Z :=
  utcTime w (dayStart (localTime w d)).

Definition endOfDay (w : World) (d : Z) : Z :=
  utcTime w (dayStart (localTime w d) + (msPerDay - 1))%Z.

(** [parseInt(process.env.EMAILS_BATCH_SIZE) || 50]. *)
Definition batchSizeOf (w : World) : Z :=
  match EMAILS_BATCH_SIZE w with
  | Some n => if (n =? 0)%Z then 50%Z else n
  | None => 50%Z
  end.

Definition createDailySummary (fuel : nat) (w : World) (d : Z)
  : M (option Summary) :=
  tryCatch
    (let startDate := startOfDay w d in
     let endDate := endOfDay w d in
     existingSummary <- findOneByDate startDate ;;
     match existingSummary with
     | Some existing =>
         logger (InfoSummaryExists startDate) ;;;
         ret (Some existing)
     | None =>
         emails <- getEmailsForSummary startDate endDate ;;
         if (List.length emails =? 0)%nat then
           logger (InfoNoEmails startDate) ;;;
           ret None
         else
           logger (InfoGenerating (List.length emails) startDate) ;;;
           let preparedEmails := prepareEmailsForSummary emails in
           let batchSize := batchSizeOf w in
           batchSummaries <- processBatches fuel w preparedEmails batchSize ;;
           combined <- generateCombinedSummary w batchSummaries preparedEmails ;;
           summary <- newSummary startDate (fst combined) (snd combined)
                        (List.length emails) (map email_id emails) ;;
           concurrentRun w ;;;
           saveNew summary ;;;
           markEmailsAsSummarized w (map email_id emails) ;;;
           logger (InfoCreated startDate (List.length emails)) ;;;
           ret (Some summary)
     end)
    (fun error => logger (ErrorCreating error) ;;; throw error).

(** ** [services/notificationService.js] (the Resend transport) *)

Definition initializeEmailService (w : World) : M MailService :=
  s <- get ;;
  match emailService s with
  | Some service => ret service
  | None =>
      viaResend <-
        (if truthy (RESEND_API_KEY w) then
           tryCatch
             (match resendCtor w with
              | Some e => throw e
              | None =>
                  modify (fun s => withMailer s (Some ResendService)
                                     (useMockTransport s)) ;;;
                  logger InfoResendInitialized ;;;
                  modify (fun s => withMailer s (emailService s) false) ;;;
                  ret true
              end)
             (fun error =>
                logger (ErrorInitResend error) ;;;
                modify (fun s => withMailer s (emailService s) true) ;;;
                ret false)
         else
           modify (fun s => withMailer s (emailService s) true) ;;;
           ret false) ;;
      if (viaResend : bool) then ret ResendService
      else
        s' <- get ;;
        (if useMockTransport s'
         then modify (fun s => withMailer s (Some MockService)
                                 (useMockTransport s))
         else ret tt) ;;;
        s'' <- get ;;
        match emailService s'' with
        | Some service => ret service
        | None => ret MockService
        end
  end.

Definition showZ (n : Z) : string := NilZero.string_of_int (Z.to_int n).
Definition showNat (n : nat) : string := NilZero.string_of_uint (Nat.to_uint n).

(** [service.emails.send(mail)] for either kind of service. *)
Definition emailsSend (w : World) (service : MailService) (mail : Mail)
  : M MailResult :=
  match service with
  | MockService =>
      ret {| result_id := Some ("mock-email-id-" ++ showZ (now w))%string;
             result_mock := true; result_error := None |}
  | ResendService =>
      s <- get ;;
      emit (TransportSend mail) ;;;
      match resendSend w (List.length (transportSends (trace s))) mail with
      | Delivered id =>
          ret {| result_id := Some id; result_mock := false;
                 result_error := None |}
      | ErrorField msg =>
          ret {| result_id := None; result_mock := false;
                 result_error := Some msg |}
      | Rejected e => throw e
      end
  end.

Definition isProduction (w : World) : bool :=
  match NODE_ENV w with
  | Some env => String.eqb env "production"
  | None => false
  end.

Definition sendEmail (w : World) (to_ subject_ : string)
  (text html : option string) : M MailResult :=
  emit (SendEmailCall to_ subject_) ;;;
  tryCatch
    (service <- initializeEmailService w ;;
     let fromAddress :=
       orElse (EMAIL_FROM w) "Newsletter Summary <onboarding@resend.dev>" in
     let text' :=
       if negb (truthy text) && truthy html
       then option_map stripTags html else text in
     let mail := {| mail_from := fromAddress; mail_to := to_;
                    mail_subject := subject_; mail_html := html;
                    mail_text := text' |} in
     s <- get ;;
     if negb (useMockTransport s) then
       result <- emailsSend w service mail ;;
       match result_error result with
       | Some msg =>
           throw (PlainError (match msg with
                              | EmptyString => "Unknown error from Resend"
                              | _ => msg
                              end))
       | None =>
           logger (InfoEmailSent (result_id result)) ;;;
           ret result
       end
     else
       result <- emailsSend w service mail ;;
       logger (InfoMockEmailSent (result_id result)) ;;;
       ret result)
    (fun error =>
       logger (ErrorSendingEmail error) ;;;
       if negb (isProduction w) then
         ret {| result_id := Some ("mock-fallback-id-" ++ showZ (now w))%string;
                result_mock := true;
                result_error := Some (message error) |}
       else throw error).

(** The HTML body built by [distributeSummary]. *)
Definition emailBodyOf (w : World) (summary : Summary) : string :=
  let header :=
    ("<h1>Daily Email Summary - " ++ toDateString w (date summary) ++ "</h1>"
     ++ "<p><strong>Total Emails Processed:</strong> "
     ++ showNat (emailCount summary) ++ "</p>")%string in
  let topics :=
    match topicCategories summary with
    | [] => EmptyString
    | cats =>
        ("<h2>Topics Overview</h2><ul>"
         ++ fold_left (fun acc category =>
                         (acc ++ "<li>" ++ description category ++ "</li>")%string)
                      cats EmptyString
         ++ "</ul>")%string
    end in
  (header ++ topics ++ "<h2>Summary</h2>"
   ++ "<div>" ++ replaceNewlines (content summary) ++ "</div>")%string.

Definition markDistributed (w : World) (summary : Summary)
  (recipientEmail : string) : Summary :=
  {| summary_id := summary_id summary; date := date summary;
     topicCategories := topicCategories summary; content := content summary;
     emailCount := emailCount summary; emailIds := emailIds summary;
     isDistributed := true;
     distributedAt := Some (now w);
     distributionRecipients := [recipientEmail] |}.

Definition distributeSummary (w : World) (summaryId : nat) : M Summary :=
  tryCatch
    (found <- findById summaryId ;;
     match found with
     | None =>
         throw (PlainError ("Summary with ID " ++ showNat summaryId
                            ++ " not found")%string)
     | Some summary =>
         if isDistributed summary then
           logger (InfoAlreadyDistributed summaryId (distributedAt summary)) ;;;
           ret summary
         else
           match SUMMARY_RECIPIENT_EMAIL w with
           | Some (String c r) =>
               let recipientEmail := String c r in
               sendEmail w recipientEmail
                 ("Email Summary for " ++ toDateString w (date summary))%string
                 None (Some (emailBodyOf w summary)) ;;;
               let summary' := markDistributed w summary recipientEmail in
               saveExisting summary' ;;;
               logger (InfoDistributed summaryId recipientEmail) ;;;
               ret summary'
           | _ => throw (PlainError "Recipient email not configured")
           end
     end)
    (fun error => logger (ErrorDistributing summaryId error) ;;; throw error).

(** ** [services/emailService.js]: ingestion from the mailbox *)

(** More string primitives. [toLowerCase] on code units below 256 maps
    A-Z and the Latin-1 capitals (192-222 except 215) to their small
    letters. *)
Definition lowerChar (c : ascii) : ascii :=
  let n := nat_of_ascii c in
  if ((65 <=? n)%nat && (n <=? 90)%nat)
     || ((192 <=? n)%nat && (n <=? 222)%nat && negb (n =? 215)%nat)
  then ascii_of_nat (n + 32) else c.

Fixpoint toLowerCase (s : string) : string :=
  match s with
  | EmptyString => EmptyString
  | String c r => String (lowerChar c) (toLowerCase r)
  end.

(** [s.replace(/a/g, b)] for single characters. *)
Fixpoint replaceChar (a b : ascii) (s : string) : string :=
  match s with
  | EmptyString => EmptyString
  | String c r => String (if Ascii.eqb c a then b else c) (replaceChar a b r)
  end.

(** [s.replace(/\s+/g, ' ')]: [inRun] is set inside a run of white space. *)
Fixpoint collapseFrom (inRun : bool) (s : string) : string :=
  match s with
  | EmptyString => EmptyString
  | String c r =>
      if isWhitespace c then
        if inRun then collapseFrom true r
        else String " "%char (collapseFrom true r)
      else String c (collapseFrom false r)
  end.

Definition collapseWhitespace (s : string) : string := collapseFrom false s.

(** A Gmail message as [users.messages.get] with [format: 'full'] returns
    it. A missing string is the empty string. *)
Record Header := mkHeader {
  header_name : string;
  header_value : string
}.

Record PartBody := mkPartBody {
  body_data : option string;
  body_size : Z;
  body_attachmentId : option string
}.

#[warnings="-register-all"]
Inductive Part : Type :=
| mkPart (mimeType : string) (filename : string) (partBody : option PartBody)
         (parts : option (list Part)).

Record Payload := mkPayload {
  payload_headers : list Header;
  payload_parts : option (list Part);
  payload_body : option PartBody;
  payload_mimeType : string
}.

Record GmailMessage := mkGmailMessage {
  gm_id : string;
  gm_threadId : string;
  (** [parseInt(internalDate)]; [None] is [NaN]. *)
  gm_internalDate : option Z;
  gm_payload : Payload;
  gm_labelIds : option (list string);
  gm_snippet : option string
}.

Record MessageRef := mkMessageRef {
  ref_id : string;
  ref_threadId : string
}.

Record ListOptions := mkListOptions {
  list_maxResults : Z;
  list_q : string;
  list_startHistoryId : option string
}.

(** The [options] argument of [fetchEmails]; [None] is [undefined]. *)
Record FetchOptions := mkFetchOptions {
  opt_maxResults : option Z;
  opt_query : option string;
  opt_startHistoryId : option string
}.

Record Attachment := mkAttachment {
  att_filename : string;
  att_mimeType : string;
  att_size : Z;
  att_attachmentId : option string
}.

(** What [extractEmailData] returns. *)
Record EmailData := mkEmailData {
  data_messageId : string;
  data_threadId : string;
  data_from : string;
  data_to : string;
  data_cc : string;
  data_bcc : string;
  data_subject : string;
  data_snippet : string;
  data_body : string;
  data_htmlBody : string;
  data_receivedAt : option Z;
  data_labels : list string;
  data_attachments : list Attachment
}.

(** The mailbox and the two libraries the ingestion relies on. *)
Record Mailbox := mkMailbox {
  (** [new google.auth.OAuth2(...)], [setCredentials] or [google.gmail]
      may throw. *)
  oauthFault : option JsError;
  gmailFault : option JsError;
  (** [gmail.users.messages.list]: [response.data.messages]. *)
  messagesList : ListOptions -> JsError + option (list MessageRef);
  (** [gmail.users.messages.get]: the answer to the [n]-th request. *)
  messagesGet : nat -> string -> JsError + GmailMessage;
  (** [Buffer.from(s, 'base64').toString('utf-8')]. *)
  bufferFromBase64 : string -> string;
  (** [cheerio.load(html)], removal of script and style elements,
      [$.text()]. *)
  cheerioText : string -> JsError + string
}.

(** The log entries and requests of the ingestion, kept in a trace of
    their own beside the [State]. *)
Inductive FetchEvent : Type :=
| ErrorCreatingOAuth (e : JsError)
| ErrorInitGmail (e : JsError)
| ErrorExtractingHtml (e : JsError)
| ErrorExtractingData (id : string) (e : JsError)
| InfoNoNewEmails
| InfoFound (n : nat)
| DebugExists (id : string)
| DebugSaved (id : string)
| ErrorProcessingMessage (id : string) (e : JsError)
| InfoProcessed (n : nat)
| ErrorFetchingGmail (e : JsError)
| InfoJobStarting
| InfoJobCompleted
| ErrorJob (e : JsError)
| ListCall (o : ListOptions)
| GetCall (id : string).

Definition isGetCall (ev : FetchEvent) : bool :=
  match ev with GetCall _ => true | _ => false end.

Definition getCalls (t : list FetchEvent) : list FetchEvent := filter isGetCall t.

(** [base64UrlDecode]. *)
Definition base64UrlDecode (mb : Mailbox) (str : string) : string :=
  bufferFromBase64 mb (replaceChar "_"%char "/"%char
                         (replaceChar "-"%char "+"%char str)).

(** [extractTextFromHtml], with the entries it logs. *)
Definition extractTextFromHtml (mb : Mailbox) (html : string)
  : string * list FetchEvent :=
  match cheerioText mb html with
  | inr text => (trim (collapseWhitespace text), [])
  | inl error => (html, [ErrorExtractingHtml error])
  end.

Definition dataOf (b : option PartBody) : option string :=
  match b with
  | Some pb => if truthy (body_data pb) then body_data pb else None
  | None => None
  end.

(** [extractContent] inside [processEmailParts]: the accumulator is
    [(plainText, htmlBody)]. *)
Fixpoint extractContent (mb : Mailbox) (part : Part) (acc : string * string)
  : string * string :=
  match part with
  | mkPart mimeType _ partBody parts =>
      match String.eqb mimeType "text/plain", dataOf partBody with
      | true, Some data =>
          ((fst acc ++ base64UrlDecode mb data)%string, snd acc)
      | _, _ =>
          match String.eqb mimeType "text/html", dataOf partBody with
          | true, Some data =>
              (fst acc, (snd acc ++ base64UrlDecode mb data)%string)
          | _, _ =>
              match parts with
              | Some ps =>
                  fold_left (fun a p => extractContent mb p a) ps acc
              | None => acc
              end
          end
      end
  end.

Definition nonEmpty (s : string) : bool :=
  match s with EmptyString => false | String _ _ => true end.

Definition processEmailParts (mb : Mailbox) (parts : option (list Part))
  : (string * string) * list FetchEvent :=
  let acc :=
    match parts with
    | Some ps => fold_left (fun a p => extractContent mb p a) ps
                   (EmptyString, EmptyString)
    | None => (EmptyString, EmptyString)
    end in
  if negb (nonEmpty (fst acc)) && nonEmpty (snd acc)
  then let r := extractTextFromHtml mb (snd acc) in
       ((fst r, snd acc), snd r)
  else (acc, []).

(** [processAttachments]: [part.body.size] throws when a part with a file
    name has no body. *)
Fixpoint attachmentsOfPart (part : Part) (acc : JsError + list Attachment)
  : JsError + list Attachment :=
  match acc with
  | inl e => inl e
  | inr atts =>
      match part with
      | mkPart mimeType filename partBody parts =>
          let pushed :=
            if nonEmpty filename then
              match partBody with
              | Some pb =>
                  inr (atts ++ [{| att_filename := filename;
                                   att_mimeType := mimeType;
                                   att_size := body_size pb;
                                   att_attachmentId := body_attachmentId pb |}])
              | None =>
                  inl (PlainError
                         "Cannot read properties of undefined (reading 'size')")
              end
            else inr atts in
          match parts with
          | Some ps => fold_left (fun a p => attachmentsOfPart p a) ps pushed
          | None => pushed
          end
      end
  end.

Definition processAttachments (parts : option (list Part))
  : JsError + list Attachment :=
  match parts with
  | Some ps => fold_left (fun a p => attachmentsOfPart p a) ps (inr [])
  | None => inr []
  end.

(** The object built by [payload.headers.reduce]: a later header with the
    same lower-case name overwrites the earlier one. *)
Fixpoint setProperty (key value : string) (obj : list (string * string))
  : list (string * string) :=
  match obj with
  | [] => [(key, value)]
  | (k, v) :: r =>
      if String.eqb k key then (k, value) :: r
      else (k, v) :: setProperty key value r
  end.

Fixpoint getProperty (key : string) (obj : list (string * string))
  : option string :=
  match obj with
  | [] => None
  | (k, v) :: r => if String.eqb k key then Some v else getProperty key r
  end.

Definition headersObject (headers : list Header) : list (string * string) :=
  fold_left (fun acc header =>
               setProperty (toLowerCase (header_name header))
                           (header_value header) acc)
            headers [].

(** [headers.key || '']. *)
Definition headerOr (obj : list (string * string)) (key : string) : string :=
  orElse (getProperty key obj) EmptyString.

(** [extractEmailData], with the entries it logs. *)
Definition extractEmailData (mb : Mailbox) (message_ : GmailMessage)
  : (JsError + EmailData) * list FetchEvent :=
  let payload := gm_payload message_ in
  let headers := headersObject (payload_headers payload) in
  let processed := processEmailParts mb (payload_parts payload) in
  let plainText := fst (fst processed) in
  let htmlBody := snd (fst processed) in
  let direct :=
    match nonEmpty plainText, dataOf (payload_body payload) with
    | false, Some data =>
        let decoded := base64UrlDecode mb data in
        if String.eqb (payload_mimeType payload) "text/html"
        then let r := extractTextFromHtml mb decoded in
             ((fst r, decoded), snd r)
        else ((decoded, htmlBody), [])
    | _, _ => ((plainText, htmlBody), [])
    end in
  let logs := snd processed ++ snd direct in
  match processAttachments (payload_parts payload) with
  | inl error =>
      (inl error, logs ++ [ErrorExtractingData (gm_id message_) error])
  | inr attachments =>
      (inr {| data_messageId := gm_id message_;
              data_threadId := gm_threadId message_;
              data_from := headerOr headers "from";
              data_to := headerOr headers "to";
              data_cc := headerOr headers "cc";
              data_bcc := headerOr headers "bcc";
              data_subject := headerOr headers "subject";
              data_snippet := orElse (gm_snippet message_) EmptyString;
              data_body := fst (fst direct);
              data_htmlBody := snd (fst direct);
              data_receivedAt := gm_internalDate message_;
              data_labels := match gm_labelIds message_ with
                             | Some l => l
                             | None => []
                             end;
              data_attachments := attachments |},
       logs)
  end.

(** The ingestion monad: the [State] of the services together with the
    ingestion's own trace. *)
Definition FetchM (A : Type) : Type :=
  State * list FetchEvent -> Outcome A * (State * list FetchEvent).

Definition fret {A} (a : A) : FetchM A := fun c => (Return a, c).
Definition fthrow {A} (e : JsError) : FetchM A := fun c => (Throw e, c).

Definition fbind {A B} (m : FetchM A) (k : A -> FetchM B) : FetchM B :=
  fun c =>
    match m c with
    | (Return a, c') => k a c'
    | (Throw e, c') => (Throw e, c')
    | (OutOfFuel, c') => (OutOfFuel, c')
    end.

Definition ftry {A} (m : FetchM A) (h : JsError -> FetchM A) : FetchM A :=
  fun c =>
    match m c with
    | (Throw e, c') => h e c'
    | r => r
    end.

Definition femit (evs : list FetchEvent) : FetchM unit :=
  fun c => (Return tt, (fst c, snd c ++ evs)).

(** A function of the services run inside the ingestion monad. *)
Definition lift {A} (m : M A) : FetchM A :=
  fun c => let r := m (fst c) in (fst r, (snd r, snd c)).

Notation "x <~ m ;; k" := (fbind m (fun x => k))
  (at level 100, m at next level, right associativity) : js_scope.
Notation "m ;;~ k" := (fbind m (fun _ => k))
  (at level 100, right associativity) : js_scope.

(** [createOAuth2Client] and [getGmailService] of [config/gmail.js]. *)
Definition createOAuth2Client (mb : Mailbox) : FetchM unit :=
  ftry (match oauthFault mb with
        | Some e => fthrow e
        | None => fret tt
        end)
       (fun error => femit [ErrorCreatingOAuth error] ;;~ fthrow error).

Definition getGmailService (mb : Mailbox) : FetchM unit :=
  ftry (createOAuth2Client mb ;;~
        match gmailFault mb with
        | Some e => fthrow e
        | None => fret tt
        end)
       (fun error => femit [ErrorInitGmail error] ;;~ fthrow error).

(** [Email.findOne({ messageId })]. *)
Definition findOneByMessageId (id : string) : FetchM (option Email) :=
  fun c => (Return (find (fun e => String.eqb (messageId e) id)
                         (emailStore (fst c))), c).

(** Schema validation of a message: the required strings must be
    non-empty and the date valid; the first failing path is reported. *)
Definition validateEmail (data : EmailData) : option JsError :=
  let missing path := Some (ValidationError "Email" path) in
  if negb (nonEmpty (data_messageId data)) then missing "messageId"
  else if negb (nonEmpty (data_threadId data)) then missing "threadId"
  else if negb (nonEmpty (data_from data)) then missing "from"
  else if negb (nonEmpty (data_to data)) then missing "to"
  else if negb (nonEmpty (data_body data)) then missing "body"
  else match data_receivedAt data with
       | None => missing "receivedAt"
       | Some _ => None
       end.

(** The stored document of [new Email(emailData)], with the schema
    defaults. *)
Definition emailOfData (id : nat) (data : EmailData) : Email :=
  {| email_id := id; messageId := data_messageId data;
     threadId := data_threadId data; from := data_from data;
     to := data_to data; subject := data_subject data;
     snippet := data_snippet data; body := data_body data;
     receivedAt := match data_receivedAt data with
                   | Some t => t
                   | None => 0%Z
                   end;
     isProcessed := false; isSummarized := false |}.

(** [new Email(emailData)] followed by [save()]: validation, then the
    unique index on [messageId]. *)
Definition saveNewEmail (data : EmailData) : FetchM Email :=
  fun c =>
    let s := fst c in
    let doc := emailOfData (nextObjectId s) data in
    let s1 := withNextId s (S (nextObjectId s)) in
    match validateEmail data with
    | Some e => (Throw e, (s1, snd c))
    | None =>
        if existsb (fun e => String.eqb (messageId e) (messageId doc))
                   (emailStore s)
        then (Throw (StoreError "E11000 duplicate key error: messageId"),
              (s1, snd c))
        else (Return doc, (withEmails s1 (emailStore s ++ [doc]), snd c))
    end.

(** One [await gmail.users.messages.get(...)]. *)
Definition getMessage (mb : Mailbox) (id : string) : FetchM GmailMessage :=
  fun c =>
    let n := List.length (getCalls (snd c)) in
    let c' := (fst c, snd c ++ [GetCall id]) in
    match messagesGet mb n id with
    | inr details => (Return details, c')
    | inl e => (Throw e, c')
    end.

(** [extractEmailData] as a step of the ingestion. *)
Definition extractStep (mb : Mailbox) (details : GmailMessage) : FetchM EmailData :=
  femit (snd (extractEmailData mb details)) ;;~
  match fst (extractEmailData mb details) with
  | inr data => fret data
  | inl e => fthrow e
  end.

(** One turn of the loop of [fetchEmails]: the [try] around one listed
    message. *)
Definition fetchOne (mb : Mailbox) (message_ : MessageRef) (emails : list Email)
  : FetchM (list Email) :=
  ftry
    (existingEmail <~ findOneByMessageId (ref_id message_) ;;
     match existingEmail with
     | Some _ =>
         femit [DebugExists (ref_id message_)] ;;~ fret emails
     | None =>
         messageDetails <~ getMessage mb (ref_id message_) ;;
         emailData <~ extractStep mb messageDetails ;;
         newEmail <~ saveNewEmail emailData ;;
         femit [DebugSaved (ref_id message_)] ;;~
         fret (emails ++ [newEmail])
     end)
    (fun error =>
       femit [ErrorProcessingMessage (ref_id message_) error] ;;~
       fret emails).

(** The loop of [fetchEmails] over the listed messages. *)
Fixpoint fetchLoop (mb : Mailbox) (messages : list MessageRef)
  (emails : list Email) : FetchM (list Email) :=
  match messages with
  | [] => fret emails
  | message_ :: rest =>
      emails' <~ fetchOne mb message_ emails ;;
      fetchLoop mb rest emails'
  end.

Definition listOptionsOf (options : FetchOptions) : ListOptions :=
  {| list_maxResults := match opt_maxResults options with
                        | Some n => n
                        | None => 100%Z
                        end;
     list_q := match opt_query options with
               | Some q => q
               | None => EmptyString
               end;
     list_startHistoryId := opt_startHistoryId options |}.

Definition fetchEmails (mb : Mailbox) (options : FetchOptions)
  : FetchM (list Email) :=
  ftry
    (getGmailService mb ;;~
     response <~
       (femit [ListCall (listOptionsOf options)] ;;~
        match messagesList mb (listOptionsOf options) with
        | inr messages => fret messages
        | inl e => fthrow e
        end) ;;
     match response with
     | None | Some [] => femit [InfoNoNewEmails] ;;~ fret []
     | Some messages =>
         femit [InfoFound (List.length messages)] ;;~
         emails <~ fetchLoop mb messages [] ;;
         femit [InfoProcessed (List.length emails)] ;;~
         fret emails
     end)
    (fun error => femit [ErrorFetchingGmail error] ;;~ fthrow error).

Definition defaultFetchOptions : FetchOptions :=
  {| opt_maxResults := None; opt_query := None; opt_startHistoryId := None |}.

(** [yesterday.setDate(yesterday.getDate() - 1)] on the current time: the
    same local time one calendar day earlier. *)
Definition yesterdayOf (w : World) : Z :=
  utcTime w (localTime w (now w) - msPerDay)%Z.

(** [startEmailSummaryJob] of [services/summaryService.js]. *)
Definition startEmailSummaryJob (fuel : nat) (w : World) (mb : Mailbox)
  : FetchM unit :=
  ftry
    (femit [InfoJobStarting] ;;~
     fetchEmails mb defaultFetchOptions ;;~
     let yesterday := yesterdayOf w in
     summary <~ lift (createDailySummary fuel w yesterday) ;;
     match summary with
     | Some x => lift (distributeSummary w (summary_id x)) ;;~ fret tt
     | None => fret tt
     end ;;~
     femit [InfoJobCompleted])
    (fun error => femit [ErrorJob error] ;;~ fthrow error).

(** ** [routes/summaryRoutes.js]: the handlers that call the services *)

Inductive ResponseBody : Type :=
| GenerateSuccess (message_ : string) (summaryId : nat) (date_ : Z)
                  (emailCount_ : nat)
| DistributeSuccess (message_ : string) (summaryId : nat) (date_ : Z)
                    (distributedAt_ : option Z) (recipients : list string)
| ErrorResponse (message_ : string) (error : option string).

Record Response := mkResponse {
  statusCode : nat;
  responseBody : ResponseBody
}.

(** What the handler of [POST /generate] makes of [req.body.date],
    whatever JSON value it is: whether it is truthy, and the time value
    of [new Date(req.body.date)], [None] for an invalid date. *)
Record BodyDate := mkBodyDate {
  date_truthy : bool;
  date_time : option Z
}.

(** [TimeClip]. *)
Definition timeClip (t : Z) : option Z :=
  if (Z.abs t <=? 8640000000000000)%Z then Some t else None.

(** A body without [date], with a number, and with a string; [parse] is
    [Date.parse], [None] for [NaN]. *)
Definition noDate : BodyDate :=
  {| date_truthy := false; date_time := None |}.

Definition numberDate (n : Z) : BodyDate :=
  {| date_truthy := negb (n =? 0)%Z; date_time := timeClip n |}.

Definition stringDate (parse : string -> option Z) (s : string) : BodyDate :=
  {| date_truthy := nonEmpty s;
     date_time := match parse s with Some t => timeClip t | None => None end |}.

(** [req.body.date ? new Date(req.body.date) : new Date()]; [None] is an
    invalid date. *)
Definition requestDate (w : World) (body : BodyDate) : option Z :=
  if date_truthy body then date_time body else Some (now w).

(** The [:id] of a request. [ObjectIdParam id] is a string that spells
    the ObjectId [id]; the services print it as [showNat id], whatever
    its letter case. [UncastableParam raw castError] is a string that
    mongoose cannot cast to an ObjectId, with the CastError raised for
    it. *)
Inductive IdParam : Type :=
| ObjectIdParam (id : nat)
| UncastableParam (raw : string) (castError : JsError).

(** The handlers' own [logger.error] entries. *)
Inductive RouteLog : Type :=
| ErrorGeneratingSummary (e : JsError)
| ErrorDistributingSummary (param : IdParam) (e : JsError).

(** What a handler leaves behind: the response sent, if any, and its own
    log entries. *)
Definition Handled : Type := option Response * list RouteLog.

(** [createDailySummary] on an invalid date: setting the hours leaves the
    date invalid, [Summary.findOne] cannot cast it and rejects with
    [castError], which the [catch] clause logs and rethrows. *)
Definition createDailySummaryInvalid (castError : JsError)
  : M (option Summary) :=
  tryCatch (throw castError)
           (fun error => logger (ErrorCreating error) ;;; throw error).

(** [distributeSummary] on a string that is not an ObjectId:
    [Summary.findById] rejects with [castError], which the [catch] clause
    logs and rethrows. *)
Definition distributeUncastable (raw : string) (castError : JsError)
  : M Summary :=
  tryCatch (throw castError)
           (fun error =>
              logger (ErrorDistributingParam raw error) ;;; throw error).

(** [router.post('/generate', ...)]; [castError] is the CastError of an
    invalid date. *)
Definition postGenerate (fuel : nat) (w : World) (castError : JsError)
  (body : BodyDate) : State -> Handled * State :=
  fun s =>
    let run :=
      match requestDate w body with
      | Some date_ => createDailySummary fuel w date_ s
      | None => createDailySummaryInvalid castError s
      end in
    match run with
    | (Return None, s') =>
        ((Some {| statusCode := 404;
                  responseBody :=
                    ErrorResponse
                      "No emails found for the specified date or summary already exists"
                      None |}, []), s')
    | (Return (Some summary), s') =>
        ((Some {| statusCode := 200;
                  responseBody :=
                    GenerateSuccess
                      ("Summary generated for "
                       ++ match requestDate w body with
                          | Some date_ => toDateString w date_
                          | None => "Invalid Date"
                          end)%string
                      (summary_id summary) (date summary)
                      (emailCount summary) |}, []), s')
    | (Throw error, s') =>
        ((Some {| statusCode := 500;
                  responseBody :=
                    ErrorResponse "Failed to generate summary"
                      (Some (message error)) |},
          [ErrorGeneratingSummary error]), s')
    | (OutOfFuel, s') => ((None, []), s')
    end.

(** [router.post('/:id/distribute', ...)]. *)
Definition postDistribute (w : World) (param : IdParam)
  : State -> Handled * State :=
  fun s =>
    let run :=
      match param with
      | ObjectIdParam id => distributeSummary w id s
      | UncastableParam raw castError => distributeUncastable raw castError s
      end in
    match run with
    | (Return summary, s') =>
        ((Some {| statusCode := 200;
                  responseBody :=
                    DistributeSuccess "Summary distributed successfully"
                      (summary_id summary) (date summary)
                      (distributedAt summary)
                      (distributionRecipients summary) |}, []), s')
    | (Throw error, s') =>
        ((Some {| statusCode := 500;
                  responseBody :=
                    ErrorResponse "Failed to distribute summary"
                      (Some (message error)) |},
          [ErrorDistributingSummary param error]), s')
    | (OutOfFuel, s') => ((None, []), s')
    end.

(** ** Vocabulary of the statements *)

(** Number of generation-backend requests made so far. *)
Definition callsBefore (s : State) : nat := List.length (chatCalls (trace s)).

(** The messages a run for day [d] fetches in state [s]. *)
Definition fetchedEmails (w : World) (d : Z) (s : State) : list Email :=
  sortByReceivedAt
    (filter (inRangeUnsummarized (startOfDay w d) (endOfDay w d))
            (emailStore s)).

(** The digest stored for the day of [d], if any. *)
Definition digestFor (w : World) (d : Z) (s : State) : option Summary :=
  find (fun x => (date x =? startOfDay w d)%Z) (summaryStore s).

(** The request issued for one batch, and for the merge step. *)
Definition batchRequest (w : World) (batch : list PreparedEmail) : ChatRequest :=
  summaryRequest DEFAULT_MODEL 1000 (batchContent w batch).

Definition mergeRequest (sums : list BatchSummary) : ChatRequest :=
  summaryRequest DEFAULT_MODEL 1000 (mergePrompt sums).

(** The batch summaries that survive when the first batch's request is the
    backend's request number [c0]. *)
Fixpoint successes (w : World) (c0 : nat) (batches : list (list PreparedEmail))
  : list BatchSummary :=
  match batches with
  | [] => []
  | batch :: rest =>
      match chatCompletion w c0 (batchRequest w batch) with
      | inr text => [{| bs_emails := batch; bs_summary := trim text |}]
      | inl _ => []
      end ++ successes w (S c0) rest
  end.

(** Whether batch number [j] of [batches] fails, counting requests from [c0]. *)
Definition batchFails (w : World) (c0 : nat)
  (batches : list (list PreparedEmail)) (j : nat) : bool :=
  match nth_error batches j with
  | Some batch =>
      match chatCompletion w (c0 + j) (batchRequest w batch) with
      | inl _ => true
      | inr _ => false
      end
  | None => false
  end.

(** The categories a run ends up with, given the categorization answer. *)
Definition categoriesOf (answer : JsError + string) : list Category :=
  match answer with
  | inr text => parseCategories (trim text)
  | inl _ => []
  end.

(** Steps 6 and 7 of the orchestrator, and its [catch] clause. *)
Definition persistAndMark (w : World) (startDate : Z) (content_ : string)
  (cats : list Category) (emails : list Email) : M (option Summary) :=
  summary <- newSummary startDate content_ cats
               (List.length emails) (map email_id emails) ;;
  concurrentRun w ;;;
  saveNew summary ;;;
  markEmailsAsSummarized w (map email_id emails) ;;;
  logger (InfoCreated startDate (List.length emails)) ;;;
  ret (Some summary).

Definition rethrowCreating {A} (error : JsError) : M A :=
  logger (ErrorCreating error) ;;; throw error.

(** The digest a run builds by [new Summary] in state [s]. *)
Definition freshDigest (s : State) (startDate : Z) (content_ : string)
  (cats : list Category) (emails : list Email) : Summary :=
  {| summary_id := nextObjectId s; date := startDate; topicCategories := cats;
     content := content_; emailCount := List.length emails;
     emailIds := map email_id emails;
     isDistributed := false; distributedAt := None;
     distributionRecipients := [] |}.

(** The message store after [updateMany] over [ids]. *)
Definition markAll (ids : list nat) (store : list Email) : list Email :=
  map (fun e => if idIn ids e then setSummarized e else e) store.

(** The number of documents [updateMany] over [ids] modifies. *)
Definition modifiedBy (ids : list nat) (store : list Email) : nat :=
  List.length (filter (fun e => idIn ids e && negb (isSummarized e)) store).

(** The digest stored under an identifier, if any. *)
Definition findDigest (id : nat) (s : State) : option Summary :=
  find (fun x => Nat.eqb (summary_id x) id) (summaryStore s).

(** The subject line [distributeSummary] gives its mail. *)
Definition distributionSubject (w : World) (summary : Summary) : string :=
  ("Email Summary for " ++ toDateString w (date summary))%string.

(** The part of [distributeSummary] after the mail has been handed over. *)
Definition recordDistribution (w : World) (id : nat) (dg : Summary)
  (recipientEmail : string) : M Summary :=
  tryCatch
    (saveExisting (markDistributed w dg recipientEmail) ;;;
     logger (InfoDistributed id recipientEmail) ;;;
     ret (markDistributed w dg recipientEmail))
    (fun error => logger (ErrorDistributing id error) ;;; throw error).



(** A line all of whose characters are white space. *)
Definition isBlank (line : string) : bool :=
  forallb isWhitespace (list_ascii_of_string line).

(** The category of a line, in the words of the specification: the name is
    the trimmed portion before the first ':' when there is one, the whole
    trimmed line otherwise; the description is the whole trimmed line. *)
Definition categoryPerSpec (line : string) : Category :=
  {| name := match index 0 ":" line with
             | Some k => trim (substring 0 k line)
             | None => trim line
             end;
     description := trim line |}.

(** A text in which no '<' is followed, anywhere later, by a '>'. *)
Fixpoint noTag (s : string) : bool :=
  match s with
  | EmptyString => true
  | String c r =>
      negb (Ascii.eqb c "<"%char && includes ">"%char r) && noTag r
  end.

(** ** Vocabulary of the statements on ingestion, job and routes *)

(** A message as the ingestion stores it: the required strings are
    present and both flags are off. *)
Definition freshlyStored (e : Email) : bool :=
  nonEmpty (messageId e) && nonEmpty (threadId e) && nonEmpty (from e)
  && nonEmpty (to e) && nonEmpty (body e)
  && negb (isProcessed e) && negb (isSummarized e).

(** The state after the ingestion has stored [added] and used object
    identifiers up to [next]. *)
Definition grown (s : State) (added : list Email) (next : nat) : State :=
  withNextId (withEmails s (emailStore s ++ added)) next.

(** Whether a listed message is already in the store, and the listed
    messages that are not. *)
Definition stored (store : list Email) (m : MessageRef) : bool :=
  existsb (fun e => String.eqb (messageId e) (ref_id m)) store.

Definition unseen (store : list Email) (messages : list MessageRef)
  : list MessageRef :=
  filter (fun m => negb (stored store m)) messages.

(** The requests for the details of the messages [messages]. *)
Definition detailRequests (messages : list MessageRef) : list FetchEvent :=
  map (fun m => GetCall (ref_id m)) messages.

(** The messages that [users.messages.list] answers with. *)
Definition listed (mb : Mailbox) (options : FetchOptions) : list MessageRef :=
  match messagesList mb (listOptionsOf options) with
  | inr (Some messages) => messages
  | _ => []
  end.

(** The parts of a message in document order, a part before the parts
    nested in it. *)
Definition part_mimeType (p : Part) : string :=
  match p with mkPart m _ _ _ => m end.
Definition part_filename (p : Part) : string :=
  match p with mkPart _ f _ _ => f end.
Definition part_body (p : Part) : option PartBody :=
  match p with mkPart _ _ b _ => b end.

Fixpoint flatten (p : Part) : list Part :=
  match p with
  | mkPart _ _ _ ps =>
      p :: match ps with
           | Some l => flat_map flatten l
           | None => []
           end
  end.

Definition allParts (parts : option (list Part)) : list Part :=
  match parts with
  | Some l => flat_map flatten l
  | None => []
  end.

Definition named (p : Part) : bool := nonEmpty (part_filename p).

Definition hasBody (p : Part) : bool :=
  match part_body p with Some _ => true | None => false end.

Definition attachmentOf (p : Part) : Attachment :=
  {| att_filename := part_filename p;
     att_mimeType := part_mimeType p;
     att_size := match part_body p with Some pb => body_size pb | None => 0%Z end;
     att_attachmentId := match part_body p with
                         | Some pb => body_attachmentId pb
                         | None => None
                         end |}.

(** The value of the last header whose name is [key] in any letter case,
    and [''] when there is none. *)
Definition lastHeader (key : string) (headers : list Header) : string :=
  match find (fun h => String.eqb (toLowerCase (header_name h)) key)
             (rev headers) with
  | Some h => header_value h
  | None => EmptyString
  end.

(** Text whose white space is single blanks between words: [afterBlank]
    is set at the start and after a blank. *)
Fixpoint singleSpaced (afterBlank : bool) (s : string) : bool :=
  match s with
  | EmptyString => true
  | String c r =>
      if isWhitespace c
      then Ascii.eqb c " "%char && negb afterBlank && singleSpaced true r
      else singleSpaced false r
  end.

(** What [part.body.size] throws on a part without a body. *)
Definition noBodyError : JsError :=
  PlainError "Cannot read properties of undefined (reading 'size')".

(** What [processAttachments] makes of the parts [ps] in document order,
    starting from [atts]. *)
Definition attachmentsSpec (ps : list Part) (atts : list Attachment)
  : JsError + list Attachment :=
  if forallb hasBody (filter named ps)
  then inr (atts ++ map attachmentOf (filter named ps))
  else inl noBodyError.


(** Induction over a part and the parts nested in it. *)
Section PartInduction.

Variable P : Part -> Prop.
Hypothesis step :
  forall m f b ps,
    match ps with Some l => Forall P l | None => True end ->
    P (mkPart m f b ps).

Fixpoint Part_nested_ind (p : Part) : P p :=
  match p with
  | mkPart m f b ps =>
      step m f b ps
        (match ps return match ps with Some l => Forall P l | None => True end
         with
         | Some l =>
             (fix go (l : list Part) : Forall P l :=
                match l with
                | [] => Forall_nil P
                | x :: r => Forall_cons x (Part_nested_ind x) (go r)
                end) l
         | None => I
         end)
  end.

End PartInduction.

(** The error that stops [fetchEmails] before any message is looked at:
    the credentials, the Gmail client or the listing. *)
Definition setupFault (mb : Mailbox) (options : FetchOptions) : option JsError :=
  match oauthFault mb with
  | Some e => Some e
  | None =>
      match gmailFault mb with
      | Some e => Some e
      | None =>
          match messagesList mb (listOptionsOf options) with
          | inl e => Some e
          | inr _ => None
          end
      end
  end.

(** The status of the response a handler sent, and the two answers of
    success. *)
Definition statusOf (h : Handled * State) : option nat :=
  option_map statusCode (fst (fst h)).

Definition generated (w : World) (d : Z) (x : Summary) : Response :=
  {| statusCode := 200;
     responseBody :=
       GenerateSuccess ("Summary generated for " ++ toDateString w d)%string
         (summary_id x) (date x) (emailCount x) |}.

Definition distributed (x : Summary) : Response :=
  {| statusCode := 200;
     responseBody :=
       DistributeSuccess "Summary distributed successfully"
         (summary_id x) (date x) (distributedAt x)
         (distributionRecipients x) |}.

(** ** Scenarios *)

Module Scenario.

Definition mail (i : nat) (t : Z) : Email :=
  {| email_id := i; messageId := ("msg-" ++ showNat i)%string;
     threadId := "thread-1"; from := "sender@example.com";
     to := "recipient@example.com";
     subject := ("Test Email " ++ showNat i)%string; snippet := "";
     body := "Test content"; receivedAt := t;
     isProcessed := false; isSummarized := false |}.

(** A process environment with a Resend key and a recipient, in UTC. *)
Definition world (nodeEnv : option string) (batchSize : option Z)
  (chat : nat -> ChatRequest -> JsError + string)
  (send : nat -> Mail -> TransportOutcome)
  (fault : option JsError) (other : option Summary) : World :=
  {| NODE_ENV := nodeEnv; RESEND_API_KEY := Some "re_test";
     EMAIL_FROM := None;
     SUMMARY_RECIPIENT_EMAIL := Some "reader@example.com";
     EMAILS_BATCH_SIZE := batchSize; localTZA := fun _ _ => 0%Z;
     now := 1700000000000;
     toISOString := showZ; toDateString := showZ;
     chatCompletion := chat; resendSend := send; resendCtor := None;
     updateManyFault := fault; concurrentSave := other |}.

Definition answers : nat -> ChatRequest -> JsError + string :=
  fun _ _ => inr "Work: two test emails".

(** The backend rejects exactly the requests numbered in [failing]. *)
Definition failingAt (failing : list nat)
  : nat -> ChatRequest -> JsError + string :=
  fun n _ => if existsb (Nat.eqb n) failing
             then inl (ProviderError "503 Service Unavailable")
             else inr "Work: two test emails".

Definition delivers : nat -> Mail -> TransportOutcome :=
  fun _ _ => Delivered "re_1".

Definition rejects : nat -> Mail -> TransportOutcome :=
  fun _ _ => Rejected (TransportError "ECONNREFUSED").


(** Three messages of day 0 and one of the next day. *)
Definition inbox : list Email :=
  [mail 1 3000; mail 2 1000; mail 3 2000; mail 4 90000000].

Definition inbox125 : list Email :=
  map (fun i => mail i (Z.of_nat i)) (seq 1 125).

Definition digest (id : nat) (d : Z) (distributed : bool) : Summary :=
  {| summary_id := id; date := d;
     topicCategories := [{| name := "Work"; description := "Work Emails" |}];
     content := "Summary content for distribution";
     emailCount := 5; emailIds := [1; 2]%nat;
     isDistributed := distributed;
     distributedAt := if distributed then Some 1600000000000%Z else None;
     distributionRecipients :=
       if distributed then ["previous@example.com"] else [] |}.

Definition development : option string := Some "development".

Definition wPlain : World :=
  world development (Some 2%Z) answers delivers None None.
Definition wMergeFails : World :=
  world development (Some 2%Z) (failingAt [3%nat]) delivers None None.
Definition wOneBatchFails : World :=
  world development None (failingAt [1%nat]) delivers None None.
Definition wAllBatchesFail : World :=
  world development (Some 2%Z) (failingAt [0%nat; 1%nat]) delivers None None.
Definition wRace : World :=
  world development (Some 2%Z) answers delivers None (Some (digest 7 0 false)).
Definition wMarkFails : World :=
  world development (Some 2%Z) answers delivers
        (Some (StoreError "connection lost")) None.
Definition wDevTransportDown : World :=
  world development (Some 2%Z) answers rejects None None.
Definition wNegativeBatch : World :=
  world development (Some (-5)%Z) answers delivers None None.

(** The same environment in a zone one hour ahead of UTC whose clocks go
    forward by an hour at 01:00 UTC of day 0; a local time in the hour
    that is skipped is read with the offset before the change. *)
Definition springForward (t : Z) (isUTC : bool) : Z :=
  if isUTC
  then (if (t <? 3600000)%Z then 3600000%Z else 7200000%Z)
  else (if (t <? 10800000)%Z then 3600000%Z else 7200000%Z).

Definition wSpringForward : World :=
  {| NODE_ENV := development; RESEND_API_KEY := Some "re_test";
     EMAIL_FROM := None;
     SUMMARY_RECIPIENT_EMAIL := Some "reader@example.com";
     EMAILS_BATCH_SIZE := Some 2%Z; localTZA := springForward;
     now := 1700000000000;
     toISOString := showZ; toDateString := showZ;
     chatCompletion := answers; resendSend := delivers; resendCtor := None;
     updateManyFault := None; concurrentSave := None |}.

Definition start (w : World) : State := initialState w inbox [] 100.
Definition start125 (w : World) : State := initialState w inbox125 [] 1000.
Definition withDigest (w : World) (distributed : bool) : State :=
  initialState w inbox [digest 7 0 distributed] 100.

(** The mocks of the service's unit test: one batch summary, the
    categorization, the merged summary. *)
Definition jestAnswers : nat -> ChatRequest -> JsError + string :=
  fun n _ =>
    match n with
    | 0%nat => inr "Batch summary for emails"
    | 1%nat => inr ("Category 1: Work Emails" ++ LF
                    ++ "Category 2: Personal Emails")%string
    | _ => inr "Final combined summary of all emails"
    end.

Definition wJest : World :=
  world (Some "test") None jestAnswers delivers None None.

Definition jestInbox : list Email := [mail 1 0; mail 2 0].

(** The batches of the two inboxes. *)
Definition batches125 : list (list PreparedEmail) :=
  [ firstn 50 (prepareEmailsForSummary inbox125);
    firstn 50 (skipn 50 (prepareEmailsForSummary inbox125));
    skipn 100 (prepareEmailsForSummary inbox125) ].

Definition batches3 : list (list PreparedEmail) :=
  map prepareEmailsForSummary [[mail 2 1000; mail 3 2000]; [mail 1 3000]].

End Scenario.

(** ** A mailbox for the examples *)

Module Letterbox.

Definition textPart (data : string) : Part :=
  mkPart "text/plain" EmptyString
    (Some {| body_data := Some data; body_size := 5;
             body_attachmentId := None |})
    None.

Definition htmlPart (data : string) : Part :=
  mkPart "text/html" EmptyString
    (Some {| body_data := Some data; body_size := 12;
             body_attachmentId := None |})
    None.

Definition filePart (name : string) (inner : option (list Part)) : Part :=
  mkPart "application/pdf" name
    (Some {| body_data := None; body_size := 2048;
             body_attachmentId := Some ("att-" ++ name)%string |})
    inner.

Definition letter (id : string) (headers : list Header) (parts : list Part)
  : GmailMessage :=
  {| gm_id := id; gm_threadId := ("thread-" ++ id)%string;
     gm_internalDate := Some 1700000000000%Z;
     gm_payload := {| payload_headers := headers;
                      payload_parts := Some parts;
                      payload_body := None;
                      payload_mimeType := "multipart/mixed" |};
     gm_labelIds := Some ["INBOX"%string];
     gm_snippet := Some "Hello"%string |}.

Definition usualHeaders : list Header :=
  [ mkHeader "From" "news@example.com";
    mkHeader "TO" "reader@example.com";
    mkHeader "Subject" "Old subject";
    mkHeader "subject" "Weekly news" ].

(** The listing names [a] twice and [msg-1], which the store of
    [Scenario.start] already holds; the details of [b] cannot be fetched
    and [c] has no recipient header. *)
Definition refs : list MessageRef :=
  [ mkMessageRef "a" "thread-a"; mkMessageRef "msg-1" "thread-1";
    mkMessageRef "b" "thread-b"; mkMessageRef "a" "thread-a";
    mkMessageRef "c" "thread-c" ].

Definition details (n : nat) (id : string) : JsError + GmailMessage :=
  if String.eqb id "b" then inl (PlainError "Request failed with status 500")
  else if String.eqb id "c"
  then inr (letter id [mkHeader "From" "news@example.com"] [textPart "aGVsbG8"])
  else inr (letter id usualHeaders
              [textPart "aGVsbG8"; filePart "report.pdf" None]).

Definition decoder (s : string) : string :=
  if String.eqb s "aGVsbG8" then "hello" else s.

Definition mailbox : Mailbox :=
  {| oauthFault := None; gmailFault := None;
     messagesList := fun _ => inr (Some refs);
     messagesGet := details;
     bufferFromBase64 := decoder;
     cheerioText := fun html => inr html |}.

(** The same mailbox behind credentials that are refused. *)
Definition lockedMailbox : Mailbox :=
  {| oauthFault := Some (PlainError "invalid_grant"); gmailFault := None;
     messagesList := fun _ => inr (Some refs);
     messagesGet := details;
     bufferFromBase64 := decoder;
     cheerioText := fun html => inr html |}.

End Letterbox.

(** * Properties *)

(** ** Lists: slices and the partition loop *)

Section PartitionFacts.
Context {A : Type}.
Implicit Types (emails : list A) (B i : Z).

Lemma slice_in_range emails i B :
  (0 <= i)%Z -> (0 < B)%Z -> (i <= Z.of_nat (List.length emails))%Z ->
  slice emails i (i + B) = firstn (Z.to_nat B) (skipn (Z.to_nat i) emails).
Proof.
  intros Hi HB Hlen. unfold slice.
  destruct (i <? 0)%Z eqn:E1; [apply Z.ltb_lt in E1; lia|].
  destruct (i + B <? 0)%Z eqn:E2; [apply Z.ltb_lt in E2; lia|].
  rewrite (Z.min_l i) by lia.
  destruct (Z.le_gt_cases (i + B) (Z.of_nat (List.length emails))) as [Hle|Hgt].
  - rewrite Z.min_l by lia. f_equal. lia.
  - rewrite Z.min_r by lia.
    rewrite !firstn_all2; try reflexivity; rewrite length_skipn; lia.
Qed.

Lemma batchesFrom_spec B (HB : (0 < B)%Z) emails :
  forall fuel i,
    (0 <= i)%Z -> (Z.of_nat (List.length emails) - i <= Z.of_nat fuel)%Z ->
    exists batches,
      batchesFrom fuel emails B i = Some batches /\
      List.concat batches = skipn (Z.to_nat i) emails /\
      Z.of_nat (List.length batches)
      = Z.max 0 ((Z.of_nat (List.length emails) - i + B - 1) / B) /\
      forall k b, nth_error batches k = Some b ->
        (i + Z.of_nat k * B < Z.of_nat (List.length emails))%Z /\
        b = firstn (Z.to_nat B)
              (skipn (Z.to_nat (i + Z.of_nat k * B)) emails).
Proof.
  remember (Z.of_nat (List.length emails)) as N eqn:HN.
  induction fuel as [|fuel IH]; intros i Hi Hfuel.
  - exists []. cbn [batchesFrom]. rewrite <- HN.
    destruct (i <? N)%Z eqn:E; [apply Z.ltb_lt in E; lia|].
    apply Z.ltb_ge in E. repeat split.
    + cbn. symmetry. apply skipn_all2. lia.
    + cbn. assert ((N - i + B - 1) / B < 1)%Z
        by (apply Z.div_lt_upper_bound; lia). lia.
    + destruct k; discriminate.
    + destruct k; discriminate.
  - cbn [batchesFrom]. rewrite <- HN.
    destruct (i <? N)%Z eqn:E.
    + apply Z.ltb_lt in E.
      destruct (IH (i + B)%Z) as (rest & Hrun & Hcat & Hlen & Hnth); try lia.
      exists (slice emails i (i + B) :: rest).
      rewrite Hrun. cbn [option_map]. repeat split.
      * cbn [List.concat]. rewrite Hcat, slice_in_range by lia.
        replace (Z.to_nat (i + B)) with (Z.to_nat B + Z.to_nat i)%nat by lia.
        rewrite <- skipn_skipn. apply firstn_skipn.
      * cbn [List.length]. rewrite Nat2Z.inj_succ, Hlen.
        replace (N - i + B - 1)%Z with ((N - i - 1) + 1 * B)%Z by lia.
        rewrite Z.div_add by lia.
        replace (N - (i + B) + B - 1)%Z with (N - i - 1)%Z by lia.
        assert (0 <= (N - i - 1) / B)%Z by (apply Z.div_pos; lia). lia.
      * destruct k as [|k]; cbn [nth_error] in *; [lia|].
        apply Hnth in H. lia.
      * destruct k as [|k]; cbn [nth_error] in *.
        -- injection H as <-. rewrite slice_in_range by lia.
           do 2 f_equal. lia.
        -- apply Hnth in H as [_ ->]. do 2 f_equal. lia.
    + apply Z.ltb_ge in E. exists []. repeat split.
      * cbn. symmetry. apply skipn_all2. lia.
      * cbn. assert ((N - i + B - 1) / B < 1)%Z
          by (apply Z.div_lt_upper_bound; lia). lia.
      * destruct k; discriminate.
      * destruct k; discriminate.
Qed.

(** For a non-positive batch size on a non-empty list the loop is not at
    its end after any number of turns. *)
Lemma batchesFrom_diverges B (HB : (B <= 0)%Z) emails :
  forall fuel i,
    (i < Z.of_nat (List.length emails))%Z ->
    batchesFrom fuel emails B i = None.
Proof.
  induction fuel as [|fuel IH]; intros i Hi; cbn [batchesFrom].
  - apply Z.ltb_lt in Hi. now rewrite Hi.
  - rewrite (proj2 (Z.ltb_lt _ _) Hi), IH by lia. reflexivity.
Qed.

End PartitionFacts.

Lemma batchesFrom_more_fuel {A} (emails : list A) B :
  forall fuel fuel' i batches,
    batchesFrom fuel emails B i = Some batches ->
    (fuel <= fuel')%nat ->
    batchesFrom fuel' emails B i = Some batches.
Proof.
  induction fuel as [|fuel IH]; intros fuel' i batches H Hle.
  - cbn [batchesFrom] in H.
    destruct fuel'; cbn [batchesFrom];
      destruct (i <? Z.of_nat (List.length emails))%Z; congruence.
  - destruct fuel' as [|fuel']; [lia|].
    cbn [batchesFrom] in *.
    destruct (i <? Z.of_nat (List.length emails))%Z; [|exact H].
    destruct (batchesFrom fuel emails B (i + B)) as [rest|] eqn:E; [|discriminate].
    rewrite (IH fuel' _ rest E) by lia. exact H.
Qed.

(** ** Strings: trimming and splitting *)

Lemma trimStart_blank s :
  trimStart s = EmptyString <-> isBlank s = true.
Proof.
  unfold isBlank. induction s as [|c r IH]; cbn; [tauto|].
  destruct (isWhitespace c); cbn; [exact IH|].
  split; discriminate.
Qed.

Lemma trimEnd_nonblank_head c r :
  isWhitespace c = false -> trimEnd (String c r) <> EmptyString.
Proof.
  intros Hc. cbn. destruct (trimEnd r); [rewrite Hc|]; discriminate.
Qed.

Lemma trimStart_head s :
  match trimStart s with
  | EmptyString => True
  | String c _ => isWhitespace c = false
  end.
Proof.
  induction s as [|c r IH]; cbn; [exact I|].
  destruct (isWhitespace c) eqn:E; [exact IH|exact E].
Qed.

Lemma trim_blank s : trim s = EmptyString <-> isBlank s = true.
Proof.
  rewrite <- trimStart_blank. unfold trim.
  pose proof (trimStart_head s) as H.
  destruct (trimStart s) as [|c r] eqn:E.
  - cbn. tauto.
  - split; [|discriminate].
    intros Habs. now apply trimEnd_nonblank_head in Habs.
Qed.

Lemma nonblank_filter line :
  (0 <? String.length (trim line))%nat = negb (isBlank line).
Proof.
  destruct (isBlank line) eqn:E.
  - apply trim_blank in E. now rewrite E.
  - destruct (trim line) eqn:T; [|reflexivity].
    apply trim_blank in T. congruence.
Qed.

Lemma split_head_index (c : ascii) (line : string) :
  match index 0 (String c EmptyString) line with
  | Some k => includes c line = true /\
              hd EmptyString (split c line) = substring 0 k line
  | None => includes c line = false
  end.
Proof.
  induction line as [|d r IH].
  - reflexivity.
  - cbn [index prefix includes split].
    destruct (ascii_dec c d) as [->|Hne].
    + rewrite Ascii.eqb_refl. cbn. destruct r; split; reflexivity.
    + assert (Ascii.eqb d c = false) as ->
        by (apply Ascii.eqb_neq; congruence).
      cbn [orb].
      destruct (index 0 (String c EmptyString) r) as [k|].
      * destruct IH as [Hin Hhd]. split; [exact Hin|].
        cbn [substring]. rewrite <- Hhd.
        destruct (split c r) as [|h t]; reflexivity.
      * exact IH.
Qed.

Lemma categoryOfLine_spec line : categoryOfLine line = categoryPerSpec line.
Proof.
  unfold categoryOfLine, categoryPerSpec.
  pose proof (split_head_index ":"%char line) as H.
  destruct (index 0 ":" line) as [k|].
  - destruct H as [-> ->]. reflexivity.
  - rewrite H. reflexivity.
Qed.

(** ** Effects: how each step acts on the state *)

Lemma appendEvents_nil s : appendEvents s [] = s.
Proof. destruct s. unfold appendEvents. cbn. now rewrite app_nil_r. Qed.

Lemma appendEvents_app s a b :
  appendEvents (appendEvents s a) b = appendEvents s (a ++ b).
Proof. unfold appendEvents. cbn. now rewrite app_assoc. Qed.

Lemma callsBefore_append s evs :
  callsBefore (appendEvents s evs)
  = (callsBefore s + List.length (chatCalls evs))%nat.
Proof.
  unfold callsBefore, chatCalls. cbn.
  now rewrite filter_app, length_app.
Qed.

Lemma createCompletion_run w req s :
  createCompletion w req s =
  (match chatCompletion w (callsBefore s) req with
   | inr text => Return text
   | inl e => Throw e
   end, appendEvents s [ChatCall req]).
Proof.
  unfold createCompletion, bind, get, emit, modify, withEvent, callsBefore.
  destruct (chatCompletion w _ req); reflexivity.
Qed.

Lemma generateSummary_run w c s :
  generateSummary w c noOptions s =
  match chatCompletion w (callsBefore s) (summaryRequest DEFAULT_MODEL 1000 c) with
  | inr text =>
      (Return (trim text),
       appendEvents s [ChatCall (summaryRequest DEFAULT_MODEL 1000 c)])
  | inl e =>
      (Throw e,
       appendEvents s [ChatCall (summaryRequest DEFAULT_MODEL 1000 c);
                       Log (ErrorOpenAISummary e)])
  end.
Proof.
  unfold generateSummary, tryCatch, bind. cbn [noOptions opt_model opt_maxTokens orElse truthy].
  rewrite createCompletion_run.
  destruct (chatCompletion w (callsBefore s) _); [|reflexivity].
  unfold logger, emit, modify, withEvent, throw.
  now rewrite appendEvents_app.
Qed.

Lemma categorizeEmails_run w emails s :
  categorizeEmails w emails s =
  match chatCompletion w (callsBefore s) (categorizeRequest emails) with
  | inr text =>
      (Return (trim text), appendEvents s [ChatCall (categorizeRequest emails)])
  | inl e =>
      (Throw e,
       appendEvents s [ChatCall (categorizeRequest emails);
                       Log (ErrorOpenAICategorize e)])
  end.
Proof.
  unfold categorizeEmails, tryCatch, bind.
  rewrite createCompletion_run.
  destruct (chatCompletion w (callsBefore s) _); [|reflexivity].
  unfold logger, emit, modify, withEvent, throw.
  now rewrite appendEvents_app.
Qed.

(** The summarizing loop never throws, leaves the stores alone, makes one
    request per batch and keeps the surviving summaries in batch order. *)
Lemma summarizeBatches_run w batches :
  forall acc s,
  exists evs,
    summarizeBatches w batches acc s
    = (Return (acc ++ successes w (callsBefore s) batches), appendEvents s evs)
    /\ List.length (chatCalls evs) = List.length batches
    /\ sendEmailCalls evs = [].
Proof.
  induction batches as [|batch rest IH]; intros acc s.
  - exists []. cbn. now rewrite appendEvents_nil, app_nil_r.
  - cbn [summarizeBatches successes]. unfold bind at 1. unfold tryCatch, bind at 1.
    rewrite generateSummary_run. fold (batchRequest w batch).
    destruct (chatCompletion w (callsBefore s) (batchRequest w batch)) as [e|text].
    + unfold logger, emit, modify, withEvent, bind, ret.
      rewrite appendEvents_app.
      destruct (IH acc (appendEvents s ([ChatCall (batchRequest w batch);
                 Log (ErrorOpenAISummary e)] ++ [Log (ErrorProcessingBatch e)])))
        as (evs & Hrun & Hlen & Hsend).
      rewrite Hrun, appendEvents_app, callsBefore_append. cbn [app].
      eexists. split; [|split].
      * cbn [chatCalls filter isChatCall List.length].
        now rewrite Nat.add_1_r.
      * cbn. unfold chatCalls in Hlen. now rewrite Hlen.
      * cbn. exact Hsend.
    + unfold ret.
      destruct (IH (acc ++ [{| bs_emails := batch; bs_summary := trim text |}])
                  (appendEvents s [ChatCall (batchRequest w batch)]))
        as (evs & Hrun & Hlen & Hsend).
      rewrite Hrun, appendEvents_app, callsBefore_append.
      eexists. split; [|split].
      * cbn [chatCalls filter isChatCall List.length].
        now rewrite Nat.add_1_r, <- app_assoc.
      * cbn. unfold chatCalls in Hlen. now rewrite Hlen.
      * cbn. exact Hsend.
Qed.


Ltac run :=
  cbv beta iota zeta delta
    [bind tryCatch ret throw outOfFuel logger emit modify withEvent get].

Ltac tidy := rewrite ?appendEvents_app; cbn [app].

Lemma generateCombinedSummary_run w sums allEmails s :
  exists evs,
    generateCombinedSummary w sums allEmails s
    = (match chatCompletion w (S (callsBefore s)) (mergeRequest sums) with
       | inr text =>
           Return (trim text,
                   categoriesOf (chatCompletion w (callsBefore s)
                                   (categorizeRequest allEmails)))
       | inl e => Throw e
       end, appendEvents s evs)
    /\ List.length (chatCalls evs) = 2%nat
    /\ sendEmailCalls evs = []
    /\ In (ChatCall (mergeRequest sums)) evs
    /\ In (ChatCall (categorizeRequest allEmails)) evs.
Proof.
  unfold generateCombinedSummary. run.
  rewrite categorizeEmails_run.
  destruct (chatCompletion w (callsBefore s) (categorizeRequest allEmails))
    as [ec|ctext]; cbn [categoriesOf]; run; tidy;
    rewrite generateSummary_run, callsBefore_append;
    cbn [chatCalls filter isChatCall List.length]; rewrite Nat.add_1_r;
    fold (mergeRequest sums);
    destruct (chatCompletion w (S (callsBefore s)) (mergeRequest sums))
      as [e|text]; run; tidy;
    (eexists; split; [reflexivity|cbn; repeat split; auto 10]).
Qed.

Lemma createDailySummary_existing w fuel d s x :
  digestFor w d s = Some x ->
  createDailySummary fuel w d s
  = (Return (Some x), appendEvents s [Log (InfoSummaryExists (startOfDay w d))]).
Proof.
  intros H. unfold createDailySummary, findOneByDate. run.
  unfold digestFor in H. rewrite H. reflexivity.
Qed.

Lemma createDailySummary_no_emails w fuel d s :
  digestFor w d s = None ->
  fetchedEmails w d s = [] ->
  createDailySummary fuel w d s
  = (Return None, appendEvents s [Log (InfoNoEmails (startOfDay w d))]).
Proof.
  intros H He.
  unfold createDailySummary, findOneByDate, getEmailsForSummary. run.
  unfold digestFor in H. rewrite H.
  unfold fetchedEmails in He. rewrite He. reflexivity.
Qed.

(** A run that reaches the generation steps: the requests it makes and
    where the merge answer sends it. *)
Lemma createDailySummary_generate w fuel d s batches :
  digestFor w d s = None ->
  fetchedEmails w d s <> [] ->
  makeBatches fuel (prepareEmailsForSummary (fetchedEmails w d s)) (batchSizeOf w)
  = Some batches ->
  let sums := successes w (callsBefore s) batches in
  exists evs,
    List.length (chatCalls evs) = (List.length batches + 2)%nat
    /\ sendEmailCalls evs = []
    /\ In (ChatCall (mergeRequest sums)) evs
    /\ In (ChatCall (categorizeRequest
                       (prepareEmailsForSummary (fetchedEmails w d s)))) evs
    /\ createDailySummary fuel w d s
       = match chatCompletion w (callsBefore s + List.length batches + 1)
                 (mergeRequest sums) with
         | inl e => (Throw e, appendEvents s (evs ++ [Log (ErrorCreating e)]))
         | inr text =>
             tryCatch
               (persistAndMark w (startOfDay w d) (trim text)
                  (categoriesOf
                     (chatCompletion w (callsBefore s + List.length batches)
                        (categorizeRequest
                           (prepareEmailsForSummary (fetchedEmails w d s)))))
                  (fetchedEmails w d s))
               rethrowCreating (appendEvents s evs)
         end.
Proof.
  intros Hnone Hne Hb sums.
  unfold createDailySummary, findOneByDate, getEmailsForSummary, processBatches.
  run.
  unfold digestFor in Hnone. rewrite Hnone.
  fold (fetchedEmails w d s).
  destruct (fetchedEmails w d s) as [|e0 es] eqn:Hf; [congruence|].
  cbn [List.length Nat.eqb].
  rewrite Hb.
  set (s1 := appendEvents s [Log (InfoGenerating (S (List.length es)) (startOfDay w d))]).
  destruct (summarizeBatches_run w batches [] s1) as (ev1 & Hrun1 & Hlen1 & Hsend1).
  rewrite Hrun1. cbn [app].
  assert (Hc1 : callsBefore s1 = callsBefore s).
  { unfold s1. rewrite callsBefore_append. cbn. lia. }
  rewrite Hc1. fold sums.
  destruct (generateCombinedSummary_run w sums
              (prepareEmailsForSummary (e0 :: es)) (appendEvents s1 ev1))
    as (ev2 & Hrun2 & Hlen2 & Hsend2 & Hin2 & Hcat2).
  rewrite Hrun2.
  rewrite callsBefore_append, Hc1, Hlen1.
  replace (S (callsBefore s + List.length batches))
    with (callsBefore s + List.length batches + 1)%nat by lia.
  unfold s1. tidy.
  exists (Log (InfoGenerating (S (List.length es)) (startOfDay w d)) :: ev1 ++ ev2).
  split; [|split; [|split; [|split]]].
  - unfold chatCalls in *. cbn [filter isChatCall]. rewrite !filter_app, !length_app. lia.
  - unfold sendEmailCalls in *. cbn [filter isSendEmailCall].
    rewrite !filter_app, Hsend1, Hsend2. reflexivity.
  - right. apply in_or_app. now right.
  - right. apply in_or_app. now right.
  - destruct (chatCompletion w (callsBefore s + List.length batches + 1)
                (mergeRequest sums)) as [e|text].
    + tidy. rewrite <- app_assoc. reflexivity.
    + unfold persistAndMark, rethrowCreating. run. cbn [fst snd]. reflexivity.
Qed.

(** ** Steps 6 and 7 of the orchestrator *)

Lemma find_none_existsb {A} (p : A -> bool) l :
  find p l = None -> existsb p l = false.
Proof.
  induction l as [|x l IH]; cbn; [reflexivity|].
  destruct (p x); [discriminate|exact IH].
Qed.

Lemma find_app_fresh {A} (p : A -> bool) l x :
  existsb p l = false -> p x = true -> find p (l ++ [x]) = Some x.
Proof.
  induction l as [|y l IH]; cbn; intros Hl Hx.
  - now rewrite Hx.
  - destruct (p y); [discriminate|]. now apply IH.
Qed.

Ltac fields :=
  unfold appendEvents, withNextId, withSummaries, withEmails, withMailer;
  cbn [content date summary_id isDistributed summaryStore emailStore
       nextObjectId emailService useMockTransport trace
       result_error result_id result_mock].

Ltac unfoldPersist :=
  unfold persistAndMark, rethrowCreating, newSummary, concurrentRun, saveNew,
    validate, markEmailsAsSummarized, updateMany; run.

(** Steps 6 and 7 when nothing goes wrong. *)
Lemma persistAndMark_ok w sd content_ cats emails s :
  concurrentSave w = None ->
  updateManyFault w = None ->
  content_ <> EmptyString ->
  existsb (fun x => (date x =? sd)%Z) (summaryStore s) = false ->
  tryCatch (persistAndMark w sd content_ cats emails) rethrowCreating s
  = (Return (Some (freshDigest s sd content_ cats emails)),
     {| emailStore := markAll (map email_id emails) (emailStore s);
        summaryStore := summaryStore s ++ [freshDigest s sd content_ cats emails];
        nextObjectId := S (nextObjectId s);
        emailService := emailService s;
        useMockTransport := useMockTransport s;
        trace := trace s ++ [Log (InfoMarked (modifiedBy (map email_id emails)
                                                (emailStore s)));
                             Log (InfoCreated sd (List.length emails))] |}).
Proof.
  intros Hc Hu Hne Hex. unfoldPersist.
  rewrite Hc, Hu. fields.
  destruct content_ as [|c r]; [congruence|].
  fields. rewrite Hex. fields.
  rewrite <- app_assoc. reflexivity.
Qed.

(** Step 7 fails: the digest stays, the error goes to the caller. *)
Lemma persistAndMark_mark_fault w sd content_ cats emails s e :
  concurrentSave w = None ->
  updateManyFault w = Some e ->
  content_ <> EmptyString ->
  existsb (fun x => (date x =? sd)%Z) (summaryStore s) = false ->
  tryCatch (persistAndMark w sd content_ cats emails) rethrowCreating s
  = (Throw e,
     {| emailStore := emailStore s;
        summaryStore := summaryStore s ++ [freshDigest s sd content_ cats emails];
        nextObjectId := S (nextObjectId s);
        emailService := emailService s;
        useMockTransport := useMockTransport s;
        trace := trace s ++ [Log (ErrorMarking e); Log (ErrorCreating e)] |}).
Proof.
  intros Hc Hu Hne Hex. unfoldPersist.
  rewrite Hc, Hu. fields.
  destruct content_ as [|c r]; [congruence|].
  fields. rewrite Hex. fields.
  rewrite <- app_assoc. reflexivity.
Qed.

(** Step 6 loses the race for the date: the save is refused and the error
    goes to the caller. *)
Lemma persistAndMark_duplicate w sd content_ cats emails s other :
  concurrentSave w = Some other ->
  date other = sd ->
  content other <> EmptyString ->
  content_ <> EmptyString ->
  existsb (fun x => (date x =? sd)%Z) (summaryStore s) = false ->
  tryCatch (persistAndMark w sd content_ cats emails) rethrowCreating s
  = (Throw (DuplicateKeyError sd),
     {| emailStore := emailStore s;
        summaryStore := summaryStore s ++ [other];
        nextObjectId := S (nextObjectId s);
        emailService := emailService s;
        useMockTransport := useMockTransport s;
        trace := trace s ++ [Log (ErrorCreating (DuplicateKeyError sd))] |}).
Proof.
  intros Hc Hd Ho Hne Hex. unfoldPersist.
  rewrite Hc. fields.
  destruct (content other) as [|c0 r0]; [congruence|].
  destruct content_ as [|c r]; [congruence|].
  fields. rewrite Hd, Hex. fields.
  rewrite existsb_app, Hex. cbn [existsb orb]. rewrite Hd, Z.eqb_refl.
  reflexivity.
Qed.

(** Whatever happens in steps 6 and 7, a digest that is returned is the one
    stored for the date. *)
Lemma persistAndMark_returns w sd content_ cats emails s x s' :
  tryCatch (persistAndMark w sd content_ cats emails) rethrowCreating s
  = (Return (Some x), s') ->
  find (fun y => (date y =? sd)%Z) (summaryStore s') = Some x.
Proof.
  unfoldPersist.
  destruct (concurrentSave w) as [other|]; fields;
    [destruct (content other); fields|];
    destruct content_; fields;
    repeat match goal with
      | |- context [if existsb ?p ?l then _ else _] =>
          destruct (existsb p l) eqn:?; fields
      end;
    try discriminate;
    (destruct (updateManyFault w); fields; [discriminate|]);
    intros [= <- <-]; fields;
    (apply find_app_fresh; [assumption|apply Z.eqb_refl]).
Qed.

(** ** Surviving batch summaries *)

Lemma batchFails_cons w c0 batch rest j :
  batchFails w c0 (batch :: rest) (S j) = batchFails w (S c0) rest j.
Proof.
  unfold batchFails. cbn [nth_error]. now rewrite Nat.add_succ_r.
Qed.

Lemma batchFails_head w c0 batch rest :
  batchFails w c0 (batch :: rest) 0
  = match chatCompletion w c0 (batchRequest w batch) with
    | inl _ => true
    | inr _ => false
    end.
Proof. unfold batchFails. cbn [nth_error]. now rewrite Nat.add_0_r. Qed.

Lemma successes_none_fail w batches :
  forall c0,
    (forall j, (j < List.length batches)%nat -> batchFails w c0 batches j = false) ->
    map bs_emails (successes w c0 batches) = batches.
Proof.
  induction batches as [|batch rest IH]; intros c0 H; [reflexivity|].
  cbn [successes]. pose proof (H 0%nat ltac:(cbn; lia)) as H0.
  rewrite batchFails_head in H0.
  destruct (chatCompletion w c0 (batchRequest w batch)) as [err|txt]; [discriminate|].
  cbn. f_equal. apply IH. intros j Hj.
  rewrite <- batchFails_cons with (batch := batch). apply H. cbn. lia.
Qed.

Lemma successes_all_fail w batches :
  forall c0,
    (forall j, (j < List.length batches)%nat -> batchFails w c0 batches j = true) ->
    successes w c0 batches = [].
Proof.
  induction batches as [|batch rest IH]; intros c0 H; [reflexivity|].
  cbn [successes]. pose proof (H 0%nat ltac:(cbn; lia)) as H0.
  rewrite batchFails_head in H0.
  destruct (chatCompletion w c0 (batchRequest w batch)) as [err|txt]; [|discriminate].
  cbn. apply IH. intros j Hj.
  rewrite <- batchFails_cons with (batch := batch). apply H. cbn. lia.
Qed.

Lemma successes_one_fails w batches :
  forall c0 k,
    (k < List.length batches)%nat ->
    (forall j, (j < List.length batches)%nat ->
               batchFails w c0 batches j = Nat.eqb j k) ->
    map bs_emails (successes w c0 batches)
    = firstn k batches ++ skipn (S k) batches.
Proof.
  induction batches as [|batch rest IH]; intros c0 k Hk H; [cbn in Hk; lia|].
  cbn [successes]. pose proof (H 0%nat ltac:(cbn; lia)) as H0.
  rewrite batchFails_head in H0.
  destruct k as [|k].
  - destruct (chatCompletion w c0 (batchRequest w batch)) as [err|txt]; [|discriminate].
    cbn. apply successes_none_fail. intros j Hj.
    rewrite <- batchFails_cons with (batch := batch). apply H. cbn. lia.
  - destruct (chatCompletion w c0 (batchRequest w batch)) as [err|txt]; [discriminate|].
    cbn. f_equal. apply IH; [cbn in Hk; lia|]. intros j Hj.
    rewrite <- batchFails_cons with (batch := batch).
    rewrite H by (cbn; lia). reflexivity.
Qed.

(** ** The message store under [updateMany] *)

Lemma insertByReceivedAt_In e x l :
  In x (insertByReceivedAt e l) <-> x = e \/ In x l.
Proof.
  induction l as [|y l IH]; cbn.
  - intuition congruence.
  - destruct (receivedAt e <=? receivedAt y)%Z; cbn; rewrite ?IH; intuition congruence.
Qed.

Lemma sortByReceivedAt_In x l : In x (sortByReceivedAt l) <-> In x l.
Proof.
  induction l as [|y l IH]; cbn; [tauto|].
  rewrite insertByReceivedAt_In, IH. intuition congruence.
Qed.

Lemma insertByReceivedAt_length e l :
  List.length (insertByReceivedAt e l) = S (List.length l).
Proof.
  induction l as [|y l IH]; cbn; [reflexivity|].
  destruct (receivedAt e <=? receivedAt y)%Z; cbn; congruence.
Qed.

Lemma fetchedEmails_stored w d s e :
  In e (fetchedEmails w d s) ->
  In e (emailStore s) /\ isSummarized e = false.
Proof.
  unfold fetchedEmails. rewrite sortByReceivedAt_In, filter_In.
  unfold inRangeUnsummarized. intros [Hin Hp]. split; [exact Hin|].
  apply andb_prop in Hp as [_ Hp]. now destruct (isSummarized e).
Qed.

Lemma idIn_map_id emails e :
  In e emails -> idIn (map email_id emails) e = true.
Proof.
  intros H. unfold idIn. apply existsb_exists.
  exists (email_id e). split; [now apply in_map|apply Nat.eqb_refl].
Qed.


Lemma markAll_marks emails store e :
  In e emails -> In e store ->
  In (setSummarized e) (markAll (map email_id emails) store).
Proof.
  intros He Hs. unfold markAll. apply in_map_iff.
  exists e. now rewrite idIn_map_id.
Qed.

(** After [updateMany] every stored message with a listed identifier has
    [isSummarized = true]. *)
Lemma markAll_flags ids store :
  forallb (fun e => implb (idIn ids e) (isSummarized e)) (markAll ids store)
  = true.
Proof.
  unfold markAll. apply forallb_forall. intros e' He'.
  apply in_map_iff in He' as (e & <- & _).
  destruct (idIn ids e) eqn:E.
  - change (idIn ids (setSummarized e)) with (idIn ids e). now rewrite E.
  - now rewrite E.
Qed.

(** ** The orchestrator as a whole *)

Lemma createDailySummary_out_of_fuel w fuel d s :
  digestFor w d s = None ->
  fetchedEmails w d s <> [] ->
  makeBatches fuel (prepareEmailsForSummary (fetchedEmails w d s)) (batchSizeOf w)
  = None ->
  fst (createDailySummary fuel w d s)
  = if (arrayLimit <=? Z.of_nat fuel)%Z then Throw invalidArrayLength
    else OutOfFuel.
Proof.
  intros Hnone Hne Hb.
  unfold createDailySummary, findOneByDate, getEmailsForSummary, processBatches.
  run.
  unfold digestFor in Hnone. rewrite Hnone.
  fold (fetchedEmails w d s).
  destruct (fetchedEmails w d s) as [|e0 es] eqn:Hf; [congruence|].
  cbn [List.length Nat.eqb]. rewrite Hb.
  destruct (arrayLimit <=? Z.of_nat fuel)%Z; reflexivity.
Qed.

(** A digest the orchestrator returns is the one stored for the date. *)
Lemma createDailySummary_returns_stored w fuel d s x s' :
  createDailySummary fuel w d s = (Return (Some x), s') ->
  digestFor w d s' = Some x.
Proof.
  intros H.
  destruct (digestFor w d s) as [y|] eqn:Hd.
  - rewrite (createDailySummary_existing w fuel d s y Hd) in H.
    injection H as <- <-. exact Hd.
  - destruct (fetchedEmails w d s) as [|e0 es] eqn:Hf.
    + rewrite (createDailySummary_no_emails w fuel d s Hd Hf) in H. discriminate.
    + destruct (makeBatches fuel (prepareEmailsForSummary (fetchedEmails w d s))
                  (batchSizeOf w)) as [batches|] eqn:Hb.
      * destruct (createDailySummary_generate w fuel d s batches Hd
                    ltac:(congruence) Hb) as (evs & _ & _ & _ & _ & Hrun).
        rewrite Hrun in H.
        destruct (chatCompletion w _ _); [discriminate|].
        apply persistAndMark_returns in H. exact H.
      * pose proof (createDailySummary_out_of_fuel w fuel d s Hd
                      ltac:(congruence) Hb) as Ho.
        rewrite H in Ho.
        destruct (arrayLimit <=? Z.of_nat fuel)%Z; discriminate.
Qed.

(** ** The notification service *)

Ltac unfoldSend :=
  unfold sendEmail, initializeEmailService, emailsSend; run; fields.

Ltac caseSend :=
  repeat match goal with
    | |- context [match emailService ?s with _ => _ end] =>
        destruct (emailService s) as [[|]|] eqn:?; fields
    | |- context [if truthy (RESEND_API_KEY ?w) then _ else _] =>
        destruct (truthy (RESEND_API_KEY w)) eqn:?; fields
    | |- context [match resendCtor ?w with _ => _ end] =>
        destruct (resendCtor w) eqn:?; fields
    | |- context [if useMockTransport ?s then _ else _] =>
        destruct (useMockTransport s) eqn:?; fields
    | |- context [if negb (useMockTransport ?s) then _ else _] =>
        destruct (useMockTransport s) eqn:?; cbn [negb]; fields
    | |- context [match resendSend ?w ?n ?m with _ => _ end] =>
        destruct (resendSend w n m) as [?|[|]|?] eqn:?; fields
    | |- context [if negb (isProduction ?w) then _ else _] =>
        destruct (isProduction w) eqn:?; cbn [negb]; fields
    | |- context [if isProduction ?w then _ else _] =>
        destruct (isProduction w) eqn:?; fields
    end.

(** [sendEmail] touches neither store; it records its own call once and
    never asks the generation backend. *)
Lemma sendEmail_frame w to_ subject_ text html s :
  emailStore (snd (sendEmail w to_ subject_ text html s)) = emailStore s
  /\ summaryStore (snd (sendEmail w to_ subject_ text html s)) = summaryStore s
  /\ nextObjectId (snd (sendEmail w to_ subject_ text html s)) = nextObjectId s
  /\ fst (sendEmail w to_ subject_ text html s) <> OutOfFuel
  /\ exists evs,
       trace (snd (sendEmail w to_ subject_ text html s))
       = trace s ++ SendEmailCall to_ subject_ :: evs
       /\ sendEmailCalls evs = [] /\ chatCalls evs = [].
Proof.
  unfoldSend. caseSend.
  all: cbn [fst snd emailStore summaryStore nextObjectId trace].
  all: repeat split; try discriminate.
  all: rewrite <- ?app_assoc; cbn [app]; eexists; split; [reflexivity|].
  all: split; reflexivity.
Qed.

Lemma transportSends_snoc_other t ev :
  isTransportSend ev = false ->
  transportSends (t ++ [ev]) = transportSends t.
Proof.
  intros H. unfold transportSends. rewrite filter_app. cbn. rewrite H.
  apply app_nil_r.
Qed.


(** ** Distribution *)

Lemma distributeSummary_already w id s dg :
  findDigest id s = Some dg ->
  isDistributed dg = true ->
  distributeSummary w id s
  = (Return dg,
     appendEvents s [Log (InfoAlreadyDistributed id (distributedAt dg))]).
Proof.
  intros Hf Hd. unfold distributeSummary, findById. run.
  unfold findDigest in Hf. rewrite Hf, Hd. reflexivity.
Qed.

Lemma distributeSummary_send w id s dg c r :
  findDigest id s = Some dg ->
  isDistributed dg = false ->
  SUMMARY_RECIPIENT_EMAIL w = Some (String c r) ->
  distributeSummary w id s
  = match sendEmail w (String c r) (distributionSubject w dg) None
            (Some (emailBodyOf w dg)) s with
    | (Return _, s1) => recordDistribution w id dg (String c r) s1
    | (Throw e, s1) => (Throw e, appendEvents s1 [Log (ErrorDistributing id e)])
    | (OutOfFuel, s1) => (OutOfFuel, s1)
    end.
Proof.
  intros Hf Hd Hr. unfold distributeSummary, recordDistribution, findById. run.
  unfold findDigest in Hf. rewrite Hf, Hd, Hr.
  fold (distributionSubject w dg).
  destruct (sendEmail w (String c r) (distributionSubject w dg) None
              (Some (emailBodyOf w dg)) s) as [[res|e|] s1]; reflexivity.
Qed.


Lemma findDigest_id id s dg : findDigest id s = Some dg -> summary_id dg = id.
Proof.
  unfold findDigest. intros H. apply find_some in H as [_ H].
  now apply Nat.eqb_eq.
Qed.



(** ** The service's unit tests, replayed *)

(** 'should create a daily summary for emails'. *)
Example jest_creates_daily_summary :
  match createDailySummary 2 Scenario.wJest 0
          (initialState Scenario.wJest Scenario.jestInbox [] 100) with
  | (Return (Some summary), s') =>
      content summary = "Final combined summary of all emails"
      /\ emailCount summary = 2%nat
      /\ emailIds summary = [1; 2]%nat
      /\ map name (topicCategories summary) = ["Category 1"; "Category 2"]
      /\ List.length (chatCalls (trace s')) = 3%nat
      /\ map isSummarized (emailStore s') = [true; true]
  | _ => False
  end.
Proof. vm_compute. repeat split; reflexivity. Qed.

(** 'should return null if no emails found for date'. *)
Example jest_no_emails :
  createDailySummary 0 Scenario.wJest 0 (initialState Scenario.wJest [] [] 100)
  = (Return None,
     appendEvents (initialState Scenario.wJest [] [] 100)
       [Log (InfoNoEmails 0)]).
Proof. reflexivity. Qed.

(** 'should not redistribute already distributed summary'. *)
Example jest_no_redistribution :
  distributeSummary Scenario.wJest 7 (Scenario.withDigest Scenario.wJest true)
  = (Return (Scenario.digest 7 0 true),
     appendEvents (Scenario.withDigest Scenario.wJest true)
       [Log (InfoAlreadyDistributed 7 (Some 1600000000000%Z))]).
Proof. reflexivity. Qed.

(** * The claims *)

Import Scenario.

(** C1. Orchestrator idempotence: once a first invocation of
    [createDailySummary] has left a digest stored for the target date, a
    second invocation for that date returns that stored digest (the very
    one the first invocation returned, when it returned one), changes
    neither store, and sends no request to the generation backend. *)
Theorem createDailySummary_idempotent
  (w : World) (fuel1 fuel2 : nat) (d : Z) (s0 s1 : State)
  (r1 : Outcome (option Summary)) (digest : Summary) :
  createDailySummary fuel1 w d s0 = (r1, s1) ->
  digestFor w d s1 = Some digest ->
  exists s2,
    createDailySummary fuel2 w d s1 = (Return (Some digest), s2)
    /\ (forall x, r1 = Return (Some x) -> x = digest)
    /\ chatCalls (trace s2) = chatCalls (trace s1)
    /\ summaryStore s2 = summaryStore s1
    /\ emailStore s2 = emailStore s1.
Proof.
  intros H1 Hd.
  exists (appendEvents s1 [Log (InfoSummaryExists (startOfDay w d))]).
  split; [now apply createDailySummary_existing|].
  split; [|split; [|split; reflexivity]].
  - intros x ->. apply createDailySummary_returns_stored in H1. congruence.
  - unfold chatCalls. cbn. rewrite filter_app. cbn. now rewrite app_nil_r.
Qed.

Lemma createDailySummary_idempotent_witness :
  exists s2,
    createDailySummary 0 wPlain 5
      (snd (createDailySummary 3 wPlain 5
              (start wPlain)))
    = (Return (Some (freshDigest (start wPlain) 0
                       "Work: two test emails"
                       [{| name := "Work";
                           description := "Work: two test emails" |}]
                       (fetchedEmails wPlain 5
                          (start wPlain)))), s2)
    /\ (forall x,
          fst (createDailySummary 3 wPlain 5
                 (start wPlain)) = Return (Some x) ->
          x = freshDigest (start wPlain) 0
                "Work: two test emails"
                [{| name := "Work"; description := "Work: two test emails" |}]
                (fetchedEmails wPlain 5
                   (start wPlain)))
    /\ chatCalls (trace s2)
       = chatCalls (trace (snd (createDailySummary 3 wPlain 5
                                  (start wPlain))))
    /\ summaryStore s2
       = summaryStore (snd (createDailySummary 3 wPlain 5
                              (start wPlain)))
    /\ emailStore s2
       = emailStore (snd (createDailySummary 3 wPlain 5
                            (start wPlain))).
Proof.
  apply (createDailySummary_idempotent wPlain 3 0 5
           (start wPlain)).
  - apply surjective_pairing.
  - vm_compute. reflexivity.
Defined.

(** C2. Partition completeness: for a message list of length [N] and a
    batch size [B > 0], the partition loop of [processBatches] ends and
    yields [ceil(N/B)] batches; batch number [k] is the slice of the list
    from [k * B] of length at most [B], so the batches are contiguous and
    in order; every batch is non-empty, every batch but the last has
    length [B] and the last holds the remainder; their concatenation is
    the list; no batch at all for the empty list; and the result is the
    same for any sufficient fuel. *)
Theorem processBatches_partition_complete
  {A : Type} (emails : list A) (B : Z) (fuel : nat) :
  (0 < B)%Z ->
  (List.length emails <= fuel)%nat ->
  exists batches,
    makeBatches fuel emails B = Some batches
    /\ Z.of_nat (List.length batches)
       = ((Z.of_nat (List.length emails) + B - 1) / B)%Z
    /\ (Z.of_nat (List.length emails) <= Z.of_nat (List.length batches) * B
        < Z.of_nat (List.length emails) + B)%Z
    /\ List.concat batches = emails
    /\ (forall k b, nth_error batches k = Some b ->
          b = firstn (Z.to_nat B) (skipn (k * Z.to_nat B) emails)
          /\ b <> []
          /\ List.length b
             = Nat.min (Z.to_nat B) (List.length emails - k * Z.to_nat B)
          /\ ((S k < List.length batches)%nat ->
              List.length b = Z.to_nat B))
    /\ (emails = [] -> batches = [])
    /\ (forall fuel', (List.length emails <= fuel')%nat ->
          makeBatches fuel' emails B = Some batches).
Proof.
  intros HB Hfuel. unfold makeBatches.
  destruct (batchesFrom_spec B HB emails fuel 0%Z) as (bs & Hrun & Hcat & Hlen & Hnth);
    [lia|lia|].
  assert (HK : Z.of_nat (List.length bs)
               = ((Z.of_nat (List.length emails) + B - 1) / B)%Z).
  { rewrite Hlen, Z.sub_0_r. apply Z.max_r. apply Z.div_pos; lia. }
  assert (Hk : forall k b, nth_error bs k = Some b ->
                 (k * Z.to_nat B < List.length emails)%nat
                 /\ b = firstn (Z.to_nat B) (skipn (k * Z.to_nat B) emails)).
  { intros k b Hb. apply Hnth in Hb as [Hlt ->].
    replace (Z.to_nat (0 + Z.of_nat k * B)) with (k * Z.to_nat B)%nat
      by (rewrite Z.add_0_l, Z2Nat.inj_mul, Nat2Z.id; lia).
    split; [|reflexivity]. nia. }
  exists bs. split; [exact Hrun|]. split; [exact HK|].
  split; [|split; [exact Hcat|split; [|split]]].
  - rewrite HK.
    pose proof (Z.div_mod (Z.of_nat (List.length emails) + B - 1) B ltac:(lia)).
    pose proof (Z.mod_pos_bound (Z.of_nat (List.length emails) + B - 1) B HB).
    nia.
  - intros k b Hb. destruct (Hk k b Hb) as [Hlt ->].
    split; [reflexivity|]. split; [|split].
    + intros Habs. apply (f_equal (@List.length A)) in Habs.
      rewrite length_firstn, length_skipn in Habs. cbn in Habs. lia.
    + now rewrite length_firstn, length_skipn.
    + intros Hnext.
      destruct (nth_error bs (S k)) as [b'|] eqn:E.
      * apply Hk in E as [Hlt' _]. rewrite length_firstn, length_skipn.
        cbn in Hlt'. lia.
      * apply nth_error_None in E. lia.
  - intros ->. cbn in HK. rewrite Z.div_small in HK by lia.
    destruct bs; [reflexivity|discriminate].
  - intros fuel' Hfuel'.
    destruct (batchesFrom_spec B HB emails fuel' 0%Z) as (bs' & Hrun' & _);
      [lia|lia|].
    destruct (Nat.le_ge_cases fuel fuel') as [Hle|Hle].
    + exact (batchesFrom_more_fuel emails B fuel fuel' 0%Z bs Hrun Hle).
    + rewrite Hrun'. f_equal.
      pose proof (batchesFrom_more_fuel emails B fuel' fuel 0%Z bs' Hrun' Hle).
      congruence.
Qed.

Lemma processBatches_partition_complete_witness :
  exists batches,
    makeBatches 5 [1; 2; 3; 4; 5]%nat 2 = Some batches
    /\ Z.of_nat (List.length batches) = ((5 + 2 - 1) / 2)%Z
    /\ (5 <= Z.of_nat (List.length batches) * 2 < 5 + 2)%Z
    /\ List.concat batches = [1; 2; 3; 4; 5]%nat
    /\ (forall k b, nth_error batches k = Some b ->
          b = firstn 2 (skipn (k * 2) [1; 2; 3; 4; 5]%nat)
          /\ b <> []
          /\ List.length b = Nat.min 2 (5 - k * 2)
          /\ ((S k < List.length batches)%nat -> List.length b = 2%nat))
    /\ ([1; 2; 3; 4; 5]%nat = [] -> batches = [])
    /\ (forall fuel', (5 <= fuel')%nat ->
          makeBatches fuel' [1; 2; 3; 4; 5]%nat 2 = Some batches).
Proof.
  apply (processBatches_partition_complete [1; 2; 3; 4; 5]%nat 2%Z 5%nat).
  - lia.
  - cbn. lia.
Defined.

(** C3. Merge-failure atomicity: when the run reaches the merge step and
    the backend rejects the merge request, [createDailySummary] throws that
    error to its caller, no digest is stored and no message is flagged:
    both stores are what they were before the run. *)
Theorem merge_failure_leaves_state
  (w : World) (fuel : nat) (d : Z) (s : State)
  (batches : list (list PreparedEmail)) (e : JsError) :
  digestFor w d s = None ->
  fetchedEmails w d s <> [] ->
  makeBatches fuel (prepareEmailsForSummary (fetchedEmails w d s)) (batchSizeOf w)
  = Some batches ->
  chatCompletion w (callsBefore s + List.length batches + 1)
    (mergeRequest (successes w (callsBefore s) batches)) = inl e ->
  exists s',
    createDailySummary fuel w d s = (Throw e, s')
    /\ summaryStore s' = summaryStore s
    /\ emailStore s' = emailStore s
    /\ In (ChatCall (mergeRequest (successes w (callsBefore s) batches)))
          (trace s').
Proof.
  intros Hd Hne Hb Hmerge.
  destruct (createDailySummary_generate w fuel d s batches Hd Hne Hb)
    as (evs & _ & _ & Hin & Hcat & Hrun).
  rewrite Hmerge in Hrun. eexists. split; [exact Hrun|].
  repeat split. cbn. apply in_or_app. right. apply in_or_app. now left.
Qed.

Lemma merge_failure_leaves_state_witness :
  exists s',
    createDailySummary 3 wMergeFails 5
      (start wMergeFails)
    = (Throw (ProviderError "503 Service Unavailable"), s')
    /\ summaryStore s' = summaryStore (start wMergeFails)
    /\ emailStore s' = emailStore (start wMergeFails)
    /\ In (ChatCall (mergeRequest
                       (successes wMergeFails
                          (callsBefore (start wMergeFails))
                          (map prepareEmailsForSummary
                             [[mail 2 1000; mail 3 2000];
                              [mail 1 3000]]))))
          (trace s').
Proof.
  apply (merge_failure_leaves_state wMergeFails 3 5
           (start wMergeFails)
           (map prepareEmailsForSummary
              [[mail 2 1000; mail 3 2000];
               [mail 1 3000]])).
  - reflexivity.
  - vm_compute. discriminate.
  - vm_compute. reflexivity.
  - vm_compute. reflexivity.
Defined.

(** C4. Partial batch-failure isolation and full accounting: when exactly
    one of the [K] batches (number [k], whichever it is) cannot be
    summarized and the rest of the run succeeds, the merge step receives
    the [K - 1] surviving summaries in batch order, the run returns a
    digest it has stored, the digest counts and lists all [N] fetched
    messages, and all of them are flagged as summarized: each fetched
    message is in the store with [isSummarized = true]. The merge request
    is spelled out: its text is the prompt followed by the surviving
    summaries joined by the batch separator. *)
Theorem one_batch_failure_isolated
  (w : World) (fuel : nat) (d : Z) (s : State)
  (batches : list (list PreparedEmail)) (k : nat) (text : string) :
  digestFor w d s = None ->
  fetchedEmails w d s <> [] ->
  makeBatches fuel (prepareEmailsForSummary (fetchedEmails w d s)) (batchSizeOf w)
  = Some batches ->
  (k < List.length batches)%nat ->
  (forall j, (j < List.length batches)%nat ->
             batchFails w (callsBefore s) batches j = Nat.eqb j k) ->
  chatCompletion w (callsBefore s + List.length batches + 1)
    (mergeRequest (successes w (callsBefore s) batches)) = inr text ->
  trim text <> EmptyString ->
  concurrentSave w = None ->
  updateManyFault w = None ->
  exists s' digest,
    createDailySummary fuel w d s = (Return (Some digest), s')
    /\ List.length (successes w (callsBefore s) batches)
       = (List.length batches - 1)%nat
    /\ map bs_emails (successes w (callsBefore s) batches)
       = firstn k batches ++ skipn (S k) batches
    /\ In (ChatCall (mergeRequest (successes w (callsBefore s) batches)))
          (trace s')
    /\ summaryStore s' = summaryStore s ++ [digest]
    /\ emailCount digest = List.length (fetchedEmails w d s)
    /\ emailIds digest = map email_id (fetchedEmails w d s)
    /\ (forall e, In e (fetchedEmails w d s) ->
                  In (setSummarized e) (emailStore s'))
    /\ (forall e, In e (fetchedEmails w d s) ->
          exists e', In e' (emailStore s')
                     /\ email_id e' = email_id e /\ isSummarized e' = true)
    /\ forallb (fun e' => implb (idIn (map email_id (fetchedEmails w d s)) e')
                                (isSummarized e'))
               (emailStore s') = true
    /\ chat_user (mergeRequest (successes w (callsBefore s) batches))
       = ("Summarize the following email content:" ++ LF ++ LF
          ++ "Please create a consolidated daily email summary from the following batch summaries:"
          ++ LF ++ LF
          ++ join (LF ++ LF ++ "===BATCH SEPARATOR===" ++ LF ++ LF)
                  (map bs_summary (successes w (callsBefore s) batches)))%string.
Proof.
  intros Hd Hne Hb Hk Hfail Hmerge Htext Hc Hu.
  destruct (createDailySummary_generate w fuel d s batches Hd Hne Hb)
    as (evs & _ & _ & Hin & Hcat & Hrun).
  rewrite Hmerge in Hrun.
  rewrite persistAndMark_ok in Hrun; try assumption.
  2: { apply find_none_existsb. exact Hd. }
  pose proof (successes_one_fails w batches (callsBefore s) k Hk Hfail) as Hmap.
  eexists. eexists. split; [exact Hrun|].
  split; [|split; [exact Hmap|split; [|split; [reflexivity|split;
    [reflexivity|split; [reflexivity|split; [|split; [|split;
    [|reflexivity]]]]]]]]].
  - rewrite <- (length_map bs_emails), Hmap, length_app, length_firstn, length_skipn.
    lia.
  - cbn. apply in_or_app. left. apply in_or_app. now right.
  - intros e He. cbn. apply markAll_marks; [exact He|].
    now apply fetchedEmails_stored in He.
  - intros e He. exists (setSummarized e). cbn.
    split; [|split; reflexivity].
    apply markAll_marks; [exact He|]. now apply fetchedEmails_stored in He.
  - cbn. apply markAll_flags.
Qed.

Lemma one_batch_failure_isolated_witness :
  exists s' digest,
    createDailySummary 125 wOneBatchFails 5 (start125 wOneBatchFails)
    = (Return (Some digest), s')
    /\ List.length (successes wOneBatchFails
                      (callsBefore (start125 wOneBatchFails)) batches125)
       = (List.length batches125 - 1)%nat
    /\ map bs_emails (successes wOneBatchFails
                        (callsBefore (start125 wOneBatchFails)) batches125)
       = firstn 1 batches125 ++ skipn 2 batches125
    /\ In (ChatCall (mergeRequest
                       (successes wOneBatchFails
                          (callsBefore (start125 wOneBatchFails)) batches125)))
          (trace s')
    /\ summaryStore s' = summaryStore (start125 wOneBatchFails) ++ [digest]
    /\ emailCount digest
       = List.length (fetchedEmails wOneBatchFails 5 (start125 wOneBatchFails))
    /\ emailIds digest
       = map email_id (fetchedEmails wOneBatchFails 5 (start125 wOneBatchFails))
    /\ (forall e,
          In e (fetchedEmails wOneBatchFails 5 (start125 wOneBatchFails)) ->
          In (setSummarized e) (emailStore s'))
    /\ (forall e,
          In e (fetchedEmails wOneBatchFails 5 (start125 wOneBatchFails)) ->
          exists e', In e' (emailStore s')
                     /\ email_id e' = email_id e /\ isSummarized e' = true)
    /\ forallb (fun e' =>
                  implb (idIn (map email_id
                                 (fetchedEmails wOneBatchFails 5
                                    (start125 wOneBatchFails))) e')
                        (isSummarized e'))
               (emailStore s') = true
    /\ chat_user (mergeRequest
                    (successes wOneBatchFails
                       (callsBefore (start125 wOneBatchFails)) batches125))
       = ("Summarize the following email content:" ++ LF ++ LF
          ++ "Please create a consolidated daily email summary from the following batch summaries:"
          ++ LF ++ LF
          ++ join (LF ++ LF ++ "===BATCH SEPARATOR===" ++ LF ++ LF)
                  (map bs_summary
                     (successes wOneBatchFails
                        (callsBefore (start125 wOneBatchFails))
                        batches125)))%string.
Proof.
  apply (one_batch_failure_isolated wOneBatchFails 125 5
           (start125 wOneBatchFails) batches125 1 "Work: two test emails").
  - reflexivity.
  - vm_compute. discriminate.
  - vm_compute. reflexivity.
  - vm_compute. lia.
  - intros j Hj. destruct j as [|[|[|j]]]; try (vm_compute; reflexivity).
    exfalso. vm_compute in Hj. lia.
  - vm_compute. reflexivity.
  - vm_compute. discriminate.
  - reflexivity.
  - reflexivity.
Defined.

(** The scenario of the specification: 125 messages, batches of 50, the
    second batch fails. *)
Example scenario_125_messages :
  makeBatches 125
    (prepareEmailsForSummary
       (fetchedEmails wOneBatchFails 5 (start125 wOneBatchFails)))
    (batchSizeOf wOneBatchFails) = Some batches125
  /\ map (@List.length PreparedEmail) batches125 = [50; 50; 25]%nat
  /\ List.length (successes wOneBatchFails 0 batches125) = 2%nat
  /\ match createDailySummary 125 wOneBatchFails 5 (start125 wOneBatchFails) with
     | (Return (Some digest), s') =>
         emailCount digest = 125%nat
         /\ List.length (emailIds digest) = 125%nat
         /\ forallb isSummarized (emailStore s') = true
     | _ => False
     end.
Proof. vm_compute. repeat split; reflexivity. Qed.

(** C5 (as amended). When every batch fails, [processBatches] returns the
    empty list, yet the orchestrator does not stop: it still sends the
    categorization request and the merge request, whose text is the
    prompt followed by no summary at all, and, when the merge request and
    the two store operations succeed, stores a digest counting and listing
    all [N] fetched messages and flags all of them: each fetched message
    is in the store with [isSummarized = true]. *)
Theorem all_batches_fail_run_continues
  (w : World) (fuel : nat) (d : Z) (s : State)
  (batches : list (list PreparedEmail)) (text : string) :
  digestFor w d s = None ->
  fetchedEmails w d s <> [] ->
  makeBatches fuel (prepareEmailsForSummary (fetchedEmails w d s)) (batchSizeOf w)
  = Some batches ->
  (forall j, (j < List.length batches)%nat ->
             batchFails w (callsBefore s) batches j = true) ->
  chatCompletion w (callsBefore s + List.length batches + 1) (mergeRequest [])
  = inr text ->
  trim text <> EmptyString ->
  concurrentSave w = None ->
  updateManyFault w = None ->
  (forall st, callsBefore st = callsBefore s ->
     fst (processBatches fuel w
            (prepareEmailsForSummary (fetchedEmails w d s)) (batchSizeOf w) st)
     = Return [])
  /\ exists s' digest,
       createDailySummary fuel w d s = (Return (Some digest), s')
       /\ In (ChatCall (mergeRequest [])) (trace s')
       /\ summaryStore s' = summaryStore s ++ [digest]
       /\ content digest = trim text
       /\ emailCount digest = List.length (fetchedEmails w d s)
       /\ (forall e, In e (fetchedEmails w d s) ->
                     In (setSummarized e) (emailStore s'))
       /\ (forall e, In e (fetchedEmails w d s) ->
             exists e', In e' (emailStore s')
                        /\ email_id e' = email_id e /\ isSummarized e' = true)
       /\ forallb (fun e' =>
                     implb (idIn (map email_id (fetchedEmails w d s)) e')
                           (isSummarized e'))
                  (emailStore s') = true
       /\ emailIds digest = map email_id (fetchedEmails w d s)
       /\ In (ChatCall (categorizeRequest
                          (prepareEmailsForSummary (fetchedEmails w d s))))
             (trace s')
       /\ chat_user (mergeRequest [])
          = ("Summarize the following email content:" ++ LF ++ LF
             ++ "Please create a consolidated daily email summary from the following batch summaries:"
             ++ LF ++ LF)%string.
Proof.
  intros Hd Hne Hb Hfail Hmerge Htext Hc Hu.
  pose proof (successes_all_fail w batches (callsBefore s) Hfail) as Hnil.
  split.
  - intros st Hst. unfold processBatches. rewrite Hb.
    destruct (summarizeBatches_run w batches [] st) as (evs & -> & _).
    cbn. now rewrite Hst, Hnil.
  - destruct (createDailySummary_generate w fuel d s batches Hd Hne Hb)
      as (evs & _ & _ & Hin & Hcat & Hrun).
    rewrite Hnil in *. rewrite Hmerge in Hrun.
    rewrite persistAndMark_ok in Hrun; try assumption.
    2: { apply find_none_existsb. exact Hd. }
    eexists. eexists. split; [exact Hrun|].
    split; [|split; [reflexivity|split; [reflexivity|split; [reflexivity|
      split; [|split; [|split; [|split; [reflexivity|split;
      [|reflexivity]]]]]]]]].
    + cbn. apply in_or_app. left. apply in_or_app. now right.
    + intros e He. cbn. apply markAll_marks; [exact He|].
      now apply fetchedEmails_stored in He.
    + intros e He. exists (setSummarized e). cbn.
      split; [|split; reflexivity].
      apply markAll_marks; [exact He|]. now apply fetchedEmails_stored in He.
    + cbn. apply markAll_flags.
    + cbn. apply in_or_app. left. apply in_or_app. now right.
Qed.

Lemma all_batches_fail_run_continues_witness :
  (forall st, callsBefore st = callsBefore (start wAllBatchesFail) ->
     fst (processBatches 3 wAllBatchesFail
            (prepareEmailsForSummary
               (fetchedEmails wAllBatchesFail 5 (start wAllBatchesFail)))
            (batchSizeOf wAllBatchesFail) st)
     = Return [])
  /\ exists s' digest,
       createDailySummary 3 wAllBatchesFail 5 (start wAllBatchesFail)
       = (Return (Some digest), s')
       /\ In (ChatCall (mergeRequest [])) (trace s')
       /\ summaryStore s' = summaryStore (start wAllBatchesFail) ++ [digest]
       /\ content digest = trim "Work: two test emails"
       /\ emailCount digest
          = List.length (fetchedEmails wAllBatchesFail 5 (start wAllBatchesFail))
       /\ (forall e,
             In e (fetchedEmails wAllBatchesFail 5 (start wAllBatchesFail)) ->
             In (setSummarized e) (emailStore s'))
       /\ (forall e,
             In e (fetchedEmails wAllBatchesFail 5 (start wAllBatchesFail)) ->
             exists e', In e' (emailStore s')
                        /\ email_id e' = email_id e /\ isSummarized e' = true)
       /\ forallb (fun e' =>
                     implb (idIn (map email_id
                                    (fetchedEmails wAllBatchesFail 5
                                       (start wAllBatchesFail))) e')
                           (isSummarized e'))
                  (emailStore s') = true
       /\ emailIds digest
          = map email_id
              (fetchedEmails wAllBatchesFail 5 (start wAllBatchesFail))
       /\ In (ChatCall (categorizeRequest
                          (prepareEmailsForSummary
                             (fetchedEmails wAllBatchesFail 5
                                (start wAllBatchesFail)))))
             (trace s')
       /\ chat_user (mergeRequest [])
          = ("Summarize the following email content:" ++ LF ++ LF
             ++ "Please create a consolidated daily email summary from the following batch summaries:"
             ++ LF ++ LF)%string.
Proof.
  apply (all_batches_fail_run_continues wAllBatchesFail 3 5
           (start wAllBatchesFail) batches3 "Work: two test emails").
  - reflexivity.
  - vm_compute. discriminate.
  - vm_compute. reflexivity.
  - intros j Hj. destruct j as [|[|j]]; try (vm_compute; reflexivity).
    exfalso. vm_compute in Hj. lia.
  - vm_compute. reflexivity.
  - vm_compute. discriminate.
  - reflexivity.
  - reflexivity.
Defined.

Lemma all_batches_fail_counterexample :
  fst (processBatches 3 wAllBatchesFail
         (prepareEmailsForSummary
            (fetchedEmails wAllBatchesFail 5 (start wAllBatchesFail)))
         (batchSizeOf wAllBatchesFail) (start wAllBatchesFail))
  = Return []
  /\ fst (createDailySummary 3 wAllBatchesFail 5 (start wAllBatchesFail))
     = Return (Some (freshDigest (start wAllBatchesFail) 0
                       "Work: two test emails"
                       [{| name := "Work";
                           description := "Work: two test emails" |}]
                       [mail 2 1000; mail 3 2000; mail 1 3000]))
  /\ summaryStore (start wAllBatchesFail) = []
  /\ List.length
       (summaryStore
          (snd (createDailySummary 3 wAllBatchesFail 5 (start wAllBatchesFail))))
     = 1%nat
  /\ map isSummarized (emailStore (start wAllBatchesFail))
     = [false; false; false; false]
  /\ map isSummarized
       (emailStore
          (snd (createDailySummary 3 wAllBatchesFail 5 (start wAllBatchesFail))))
     = [true; true; true; false].
Proof. vm_compute. repeat split; reflexivity. Qed.

(** C6 (as amended). When the save of step 6 is refused because another
    run has stored a digest for the date in the meantime, the orchestrator
    does not recover: [createDailySummary] throws the duplicate-key error to
    its caller. The other run's digest stays the one stored for the date
    and no message is flagged. *)
Theorem duplicate_date_save_propagates
  (w : World) (fuel : nat) (d : Z) (s : State)
  (batches : list (list PreparedEmail)) (text : string) (other : Summary) :
  digestFor w d s = None ->
  fetchedEmails w d s <> [] ->
  makeBatches fuel (prepareEmailsForSummary (fetchedEmails w d s)) (batchSizeOf w)
  = Some batches ->
  chatCompletion w (callsBefore s + List.length batches + 1)
    (mergeRequest (successes w (callsBefore s) batches)) = inr text ->
  trim text <> EmptyString ->
  concurrentSave w = Some other ->
  date other = startOfDay w d ->
  content other <> EmptyString ->
  exists s',
    createDailySummary fuel w d s
    = (Throw (DuplicateKeyError (startOfDay w d)), s')
    /\ summaryStore s' = summaryStore s ++ [other]
    /\ digestFor w d s' = Some other
    /\ emailStore s' = emailStore s
    /\ In (Log (ErrorCreating (DuplicateKeyError (startOfDay w d)))) (trace s').
Proof.
  intros Hd Hne Hb Hmerge Htext Hc Hdate Hother.
  destruct (createDailySummary_generate w fuel d s batches Hd Hne Hb)
    as (evs & _ & _ & Hin & Hcat & Hrun).
  rewrite Hmerge in Hrun.
  rewrite (persistAndMark_duplicate _ _ _ _ _ _ other) in Hrun; try assumption.
  2: { apply find_none_existsb. exact Hd. }
  eexists. split; [exact Hrun|].
  split; [reflexivity|split; [|split; [reflexivity|]]].
  - unfold digestFor. cbn. apply find_app_fresh.
    + apply find_none_existsb. exact Hd.
    + rewrite Hdate. apply Z.eqb_refl.
  - cbn. apply in_or_app. right. now left.
Qed.

Lemma duplicate_date_save_propagates_witness :
  exists s',
    createDailySummary 3 wRace 5 (start wRace)
    = (Throw (DuplicateKeyError (startOfDay wRace 5)), s')
    /\ summaryStore s' = summaryStore (start wRace) ++ [digest 7 0 false]
    /\ digestFor wRace 5 s' = Some (digest 7 0 false)
    /\ emailStore s' = emailStore (start wRace)
    /\ In (Log (ErrorCreating (DuplicateKeyError (startOfDay wRace 5))))
          (trace s').
Proof.
  apply (duplicate_date_save_propagates wRace 3 5 (start wRace) batches3
           "Work: two test emails" (digest 7 0 false)).
  - reflexivity.
  - vm_compute. discriminate.
  - vm_compute. reflexivity.
  - vm_compute. reflexivity.
  - vm_compute. discriminate.
  - reflexivity.
  - reflexivity.
  - vm_compute. discriminate.
Defined.

Lemma duplicate_date_counterexample :
  digestFor wRace 5 (start wRace) = None
  /\ concurrentSave wRace = Some (digest 7 0 false)
  /\ fst (createDailySummary 3 wRace 5 (start wRace))
     = Throw (DuplicateKeyError 0)
  /\ fst (createDailySummary 3 wRace 5 (start wRace))
     <> Return (Some (digest 7 0 false))
  /\ digestFor wRace 5 (snd (createDailySummary 3 wRace 5 (start wRace)))
     = Some (digest 7 0 false).
Proof. vm_compute. repeat split; try reflexivity. discriminate. Qed.

(** C7 (as amended). When flagging the fetched messages fails after the
    digest has been stored, the failure is logged, the stored digest is
    not rolled back and no message is flagged; the error is then thrown to
    the caller of [createDailySummary]. *)
Theorem mark_failure_after_save
  (w : World) (fuel : nat) (d : Z) (s : State)
  (batches : list (list PreparedEmail)) (text : string) (e : JsError) :
  digestFor w d s = None ->
  fetchedEmails w d s <> [] ->
  makeBatches fuel (prepareEmailsForSummary (fetchedEmails w d s)) (batchSizeOf w)
  = Some batches ->
  chatCompletion w (callsBefore s + List.length batches + 1)
    (mergeRequest (successes w (callsBefore s) batches)) = inr text ->
  trim text <> EmptyString ->
  concurrentSave w = None ->
  updateManyFault w = Some e ->
  exists s' digest,
    createDailySummary fuel w d s = (Throw e, s')
    /\ In (Log (ErrorMarking e)) (trace s')
    /\ summaryStore s' = summaryStore s ++ [digest]
    /\ digestFor w d s' = Some digest
    /\ content digest = trim text
    /\ emailStore s' = emailStore s.
Proof.
  intros Hd Hne Hb Hmerge Htext Hc Hu.
  destruct (createDailySummary_generate w fuel d s batches Hd Hne Hb)
    as (evs & _ & _ & Hin & Hcat & Hrun).
  rewrite Hmerge in Hrun.
  rewrite (persistAndMark_mark_fault _ _ _ _ _ _ e) in Hrun; try assumption.
  2: { apply find_none_existsb. exact Hd. }
  eexists. eexists. split; [exact Hrun|].
  split; [|split; [reflexivity|split; [|split; reflexivity]]].
  - cbn. apply in_or_app. right. now left.
  - unfold digestFor. cbn. apply find_app_fresh.
    + apply find_none_existsb. exact Hd.
    + apply Z.eqb_refl.
Qed.

Lemma mark_failure_after_save_witness :
  exists s' digest,
    createDailySummary 3 wMarkFails 5 (start wMarkFails)
    = (Throw (StoreError "connection lost"), s')
    /\ In (Log (ErrorMarking (StoreError "connection lost"))) (trace s')
    /\ summaryStore s' = summaryStore (start wMarkFails) ++ [digest]
    /\ digestFor wMarkFails 5 s' = Some digest
    /\ content digest = trim "Work: two test emails"
    /\ emailStore s' = emailStore (start wMarkFails).
Proof.
  apply (mark_failure_after_save wMarkFails 3 5 (start wMarkFails) batches3
           "Work: two test emails" (StoreError "connection lost")).
  - reflexivity.
  - vm_compute. discriminate.
  - vm_compute. reflexivity.
  - vm_compute. reflexivity.
  - vm_compute. discriminate.
  - reflexivity.
  - reflexivity.
Defined.

Lemma mark_failure_counterexample :
  updateManyFault wMarkFails = Some (StoreError "connection lost")
  /\ fst (createDailySummary 3 wMarkFails 5 (start wMarkFails))
     = Throw (StoreError "connection lost")
  /\ List.length
       (summaryStore
          (snd (createDailySummary 3 wMarkFails 5 (start wMarkFails))))
     = 1%nat
  /\ In (Log (ErrorMarking (StoreError "connection lost")))
        (trace (snd (createDailySummary 3 wMarkFails 5 (start wMarkFails)))).
Proof. vm_compute. repeat split; try reflexivity. tauto. Qed.

(** C8. Category parsing: the categorization text is split into lines,
    blank lines are dropped, and every remaining line yields one category
    whose name is the trimmed portion before the first ':' when the line
    has one (the whole trimmed line otherwise) and whose description is
    the whole trimmed line; the two-line example of the specification
    yields exactly its two categories. *)
Theorem category_parsing :
  (forall text,
     parseCategories text
     = map categoryPerSpec
         (filter (fun line => negb (isBlank line)) (split "010"%char text)))
  /\ parseCategories
       ("Work: meetings and deadlines" ++ LF ++ "Personal: vacation")%string
     = [ {| name := "Work"; description := "Work: meetings and deadlines" |};
         {| name := "Personal"; description := "Personal: vacation" |} ].
Proof.
  split; [|reflexivity].
  intros text. unfold parseCategories.
  rewrite (filter_ext _ _ nonblank_filter).
  apply map_ext. exact categoryOfLine_spec.
Qed.







(** * Further properties *)

(** ** The orchestrator: what a run may touch *)

Lemma NoDup_dates_snoc (l : list Summary) (doc : Summary) :
  existsb (fun x => (date x =? date doc)%Z) l = false ->
  NoDup (map date l) -> NoDup (map date (l ++ [doc])).
Proof.
  intros Hex Hnd. rewrite map_app. cbn.
  apply NoDup_app; [exact Hnd|constructor; [intros []|constructor]|].
  intros a Ha [<-|[]]. apply in_map_iff in Ha as (x & Hx & Hin).
  assert (existsb (fun x => (date x =? date doc)%Z) l = true).
  { apply existsb_exists. exists x. split; [exact Hin|]. now apply Z.eqb_eq. }
  congruence.
Qed.

(** What steps 6 and 7 can do to the state, whatever happens. *)
Lemma persistAndMark_frame w sd content_ cats emails s :
  fst (tryCatch (persistAndMark w sd content_ cats emails) rethrowCreating s)
  <> OutOfFuel
  /\ (emailStore (snd (tryCatch (persistAndMark w sd content_ cats emails)
                         rethrowCreating s)) = emailStore s
      \/ emailStore (snd (tryCatch (persistAndMark w sd content_ cats emails)
                            rethrowCreating s))
         = markAll (map email_id emails) (emailStore s))
  /\ ((exists x, fst (tryCatch (persistAndMark w sd content_ cats emails)
                        rethrowCreating s) = Return x) ->
      emailStore (snd (tryCatch (persistAndMark w sd content_ cats emails)
                         rethrowCreating s))
      = markAll (map email_id emails) (emailStore s))
  /\ (exists added,
        summaryStore (snd (tryCatch (persistAndMark w sd content_ cats emails)
                             rethrowCreating s))
        = summaryStore s ++ added
        /\ (NoDup (map date (summaryStore s)) ->
            NoDup (map date (summaryStore s ++ added))))
  /\ (exists evs,
        trace (snd (tryCatch (persistAndMark w sd content_ cats emails)
                      rethrowCreating s)) = trace s ++ evs
        /\ chatCalls evs = [] /\ sendEmailCalls evs = []).
Proof.
  unfoldPersist.
  destruct (concurrentSave w) as [other|]; fields;
    [destruct (content other); fields|];
    destruct content_; fields;
    repeat match goal with
      | |- context [if existsb ?p ?l then _ else _] =>
          destruct (existsb p l) eqn:?; fields
      end;
    try (destruct (updateManyFault w); fields);
    cbn [fst snd emailStore summaryStore trace];
    (split; [discriminate|]);
    (split; [first [left; reflexivity|right; reflexivity]|]);
    (split; [intros [x Hx]; first [discriminate|reflexivity]|]);
    (split;
     [first
        [ exists []; split; [now rewrite app_nil_r|now rewrite app_nil_r]
        | eexists [_]; split;
          [reflexivity|intros Hnd; now apply NoDup_dates_snoc]
        | eexists [_; _]; split;
          [now rewrite <- app_assoc
          |intros Hnd;
           change (summaryStore s ++ [?a; ?b])
             with (summaryStore s ++ [a] ++ [b]);
           rewrite app_assoc;
           apply NoDup_dates_snoc; [assumption|];
           now apply NoDup_dates_snoc] ]
     |]);
    rewrite <- ?app_assoc; cbn [app];
    (eexists; split; [reflexivity|split; reflexivity]).
Qed.

Lemma createDailySummary_out_of_fuel_state w fuel d s :
  digestFor w d s = None ->
  fetchedEmails w d s <> [] ->
  makeBatches fuel (prepareEmailsForSummary (fetchedEmails w d s)) (batchSizeOf w)
  = None ->
  createDailySummary fuel w d s
  = if (arrayLimit <=? Z.of_nat fuel)%Z
    then (Throw invalidArrayLength,
          appendEvents s
            [Log (InfoGenerating (List.length (fetchedEmails w d s))
                    (startOfDay w d));
             Log (ErrorCreating invalidArrayLength)])
    else (OutOfFuel,
          appendEvents s
            [Log (InfoGenerating (List.length (fetchedEmails w d s))
                    (startOfDay w d))]).
Proof.
  intros Hnone Hne Hb.
  unfold createDailySummary, findOneByDate, getEmailsForSummary, processBatches.
  run.
  unfold digestFor in Hnone. rewrite Hnone.
  fold (fetchedEmails w d s).
  destruct (fetchedEmails w d s) as [|e0 es] eqn:Hf; [congruence|].
  cbn [List.length Nat.eqb]. rewrite Hb.
  destruct (arrayLimit <=? Z.of_nat fuel)%Z; [|reflexivity].
  tidy. reflexivity.
Qed.

(** Every run, whatever its outcome: the message store is either
    untouched or has the fetched identifiers flagged; digests are only
    appended, keeping dates distinct; the trace grows by log entries and
    backend requests, never by a mail. *)
Lemma createDailySummary_frame w fuel d s :
  (emailStore (snd (createDailySummary fuel w d s)) = emailStore s
   \/ emailStore (snd (createDailySummary fuel w d s))
      = markAll (map email_id (fetchedEmails w d s)) (emailStore s))
  /\ (exists added,
        summaryStore (snd (createDailySummary fuel w d s))
        = summaryStore s ++ added
        /\ (NoDup (map date (summaryStore s)) ->
            NoDup (map date (summaryStore s ++ added))))
  /\ (exists evs,
        trace (snd (createDailySummary fuel w d s)) = trace s ++ evs
        /\ sendEmailCalls evs = []
        /\ (chatCalls evs = []
            \/ exists batches,
                 makeBatches fuel
                   (prepareEmailsForSummary (fetchedEmails w d s))
                   (batchSizeOf w) = Some batches
                 /\ List.length (chatCalls evs)
                    = (List.length batches + 2)%nat)).
Proof.
  destruct (digestFor w d s) as [y|] eqn:Hd.
  { rewrite (createDailySummary_existing w fuel d s y Hd). cbn [snd].
    split; [now left|]. split.
    - exists []. rewrite app_nil_r. auto.
    - eexists. split; [reflexivity|]. split; [reflexivity|now left]. }
  destruct (fetchedEmails w d s) as [|e0 es] eqn:Hf.
  { rewrite (createDailySummary_no_emails w fuel d s Hd Hf). cbn [snd].
    split; [now left|]. split.
    - exists []. rewrite app_nil_r. auto.
    - eexists. split; [reflexivity|]. split; [reflexivity|now left]. }
  rewrite <- Hf.
  assert (Hne : fetchedEmails w d s <> []) by congruence.
  destruct (makeBatches fuel (prepareEmailsForSummary (fetchedEmails w d s))
              (batchSizeOf w)) as [batches|] eqn:Hb.
  2: { rewrite (createDailySummary_out_of_fuel_state w fuel d s Hd Hne Hb).
       destruct (arrayLimit <=? Z.of_nat fuel)%Z;
         (cbn [snd]; split; [now left|]; split;
          [exists []; rewrite app_nil_r; auto
          |eexists; split; [reflexivity|]; split; [reflexivity|now left]]). }
  destruct (createDailySummary_generate w fuel d s batches Hd Hne Hb)
    as (evs & Hlen & Hsend & _ & _ & Hrun).
  rewrite Hrun.
  destruct (chatCompletion w _ _) as [e|text].
  { cbn [snd]. split; [now left|]. split.
    - exists []. rewrite app_nil_r. auto.
    - eexists. split; [reflexivity|]. split.
      + unfold sendEmailCalls in *. rewrite filter_app, Hsend. reflexivity.
      + right. exists batches. split; [reflexivity|].
        unfold chatCalls in *. rewrite filter_app, length_app, Hlen. cbn. lia. }
  match goal with
  | |- context [tryCatch (persistAndMark w ?sd ?c ?cats ?em) rethrowCreating ?st] =>
      destruct (persistAndMark_frame w sd c cats em st)
        as (_ & Hem & _ & (added & Hadd & Hnd) & (evs' & Ht & Hc' & Hs'))
  end.
  split; [exact Hem|]. split.
  - exists added. split; [exact Hadd|exact Hnd].
  - exists (evs ++ evs'). split; [|split].
    + rewrite Ht. cbn. now rewrite app_assoc.
    + unfold sendEmailCalls in *. now rewrite filter_app, Hsend, Hs'.
    + right. exists batches. split; [reflexivity|].
      unfold chatCalls in *. rewrite filter_app, length_app, Hc', Hlen. cbn. lia.
Qed.

Lemma markAll_ids ids store :
  map email_id (markAll ids store) = map email_id store.
Proof.
  unfold markAll. rewrite map_map. apply map_ext.
  intros e. now destruct (idIn ids e).
Qed.



Lemma idIn_In ids e : idIn ids e = true <-> In (email_id e) ids.
Proof.
  unfold idIn. rewrite existsb_exists. split.
  - intros (x & Hx & Heq). apply Nat.eqb_eq in Heq. now subst.
  - intros H. exists (email_id e). split; [exact H|apply Nat.eqb_refl].
Qed.

Lemma sortByReceivedAt_length l :
  List.length (sortByReceivedAt l) = List.length l.
Proof.
  unfold sortByReceivedAt.
  induction l as [|e l IH]; cbn; [reflexivity|].
  now rewrite insertByReceivedAt_length, IH.
Qed.

Lemma fetchedEmails_length w d s :
  (List.length (fetchedEmails w d s) <= List.length (emailStore s))%nat.
Proof.
  unfold fetchedEmails. rewrite sortByReceivedAt_length. apply filter_length_le.
Qed.

Lemma fetchedEmails_complete w d s e :
  In e (emailStore s) ->
  inRangeUnsummarized (startOfDay w d) (endOfDay w d) e = true ->
  In e (fetchedEmails w d s).
Proof.
  intros Hin Hp. unfold fetchedEmails.
  apply sortByReceivedAt_In, filter_In. now split.
Qed.

Lemma prepareEmailsForSummary_length emails :
  List.length (prepareEmailsForSummary emails) = List.length emails.
Proof. apply length_map. Qed.

(** X1. No-data short-circuit: when no digest is stored for the day and no
    stored message is both inside the day and unsummarized,
    [createDailySummary] returns null; its only effect is one log entry:
    no backend request, no digest, no message flagged. *)
Theorem no_messages_short_circuit
  (w : World) (fuel : nat) (d : Z) (s : State) :
  digestFor w d s = None ->
  (forall e, In e (emailStore s) ->
             inRangeUnsummarized (startOfDay w d) (endOfDay w d) e = false) ->
  createDailySummary fuel w d s
  = (Return None, appendEvents s [Log (InfoNoEmails (startOfDay w d))]).
Proof.
  intros Hd Hnone. apply createDailySummary_no_emails; [exact Hd|].
  unfold fetchedEmails.
  replace (filter _ (emailStore s)) with (@nil Email); [reflexivity|].
  symmetry. induction (emailStore s) as [|e l IH]; [reflexivity|].
  cbn. rewrite Hnone by now left. apply IH. intros x Hx. apply Hnone. now right.
Qed.

Lemma no_messages_short_circuit_witness :
  createDailySummary 0 wPlain 200000000 (start wPlain)
  = (Return None,
     appendEvents (start wPlain)
       [Log (InfoNoEmails (startOfDay wPlain 200000000))]).
Proof.
  apply (no_messages_short_circuit wPlain 0 200000000 (start wPlain)).
  - reflexivity.
  - intros e He. cbn in He.
    repeat (destruct He as [<-|He]; [reflexivity|]). destruct He.
Defined.

(** X2. Termination: with a positive batch size, fuel at least the number
    of stored messages is always enough; [createDailySummary] returns or
    throws. *)
Theorem createDailySummary_terminates
  (w : World) (fuel : nat) (d : Z) (s : State) :
  (0 < batchSizeOf w)%Z ->
  (List.length (emailStore s) <= fuel)%nat ->
  fst (createDailySummary fuel w d s) <> OutOfFuel.
Proof.
  intros HB Hfuel.
  destruct (digestFor w d s) as [y|] eqn:Hd.
  { rewrite (createDailySummary_existing w fuel d s y Hd). discriminate. }
  destruct (fetchedEmails w d s) as [|e0 es] eqn:Hf.
  { rewrite (createDailySummary_no_emails w fuel d s Hd Hf). discriminate. }
  assert (Hne : fetchedEmails w d s <> []) by congruence.
  pose proof (fetchedEmails_length w d s) as Hlen.
  destruct (batchesFrom_spec (batchSizeOf w) HB
              (prepareEmailsForSummary (fetchedEmails w d s)) fuel 0%Z)
    as (batches & Hb & _); [lia|rewrite prepareEmailsForSummary_length; lia|].
  destruct (createDailySummary_generate w fuel d s batches Hd Hne Hb)
    as (evs & _ & _ & _ & _ & Hrun).
  rewrite Hrun. destruct (chatCompletion w _ _) as [e|text]; [discriminate|].
  apply persistAndMark_frame.
Qed.

Lemma createDailySummary_terminates_witness :
  fst (createDailySummary 4 wOneBatchFails 5 (start wOneBatchFails))
  <> OutOfFuel.
Proof.
  apply (createDailySummary_terminates wOneBatchFails 4 5 (start wOneBatchFails)).
  - reflexivity.
  - cbn. lia.
Defined.

(** X3. A negative EMAILS_BATCH_SIZE: as soon as there is a message to
    summarize, [createDailySummary] never returns. The partition loop of
    [processBatches] makes no progress and appends a batch at every turn;
    it ends only when the array of batches is full, where [push] throws
    the RangeError that [createDailySummary] logs and rethrows. Until
    then and after, no backend request is made, no mail is attempted, no
    digest is stored and no message is flagged. *)
Theorem negative_batch_size_never_returns
  (w : World) (fuel : nat) (d : Z) (s : State) :
  (batchSizeOf w < 0)%Z ->
  digestFor w d s = None ->
  fetchedEmails w d s <> [] ->
  match fst (createDailySummary fuel w d s) with
  | Return _ => False
  | Throw e => e = invalidArrayLength /\ (arrayLimit <= Z.of_nat fuel)%Z
  | OutOfFuel => (Z.of_nat fuel < arrayLimit)%Z
  end
  /\ summaryStore (snd (createDailySummary fuel w d s)) = summaryStore s
  /\ emailStore (snd (createDailySummary fuel w d s)) = emailStore s
  /\ chatCalls (trace (snd (createDailySummary fuel w d s)))
     = chatCalls (trace s)
  /\ sendEmailCalls (trace (snd (createDailySummary fuel w d s)))
     = sendEmailCalls (trace s).
Proof.
  intros HB Hd Hne.
  rewrite (createDailySummary_out_of_fuel_state w fuel d s Hd Hne).
  - destruct (arrayLimit <=? Z.of_nat fuel)%Z eqn:E; cbn [fst snd];
      [apply Z.leb_le in E|apply Z.leb_gt in E];
      (split; [auto|]); (split; [reflexivity|]); (split; [reflexivity|]);
      cbn; unfold chatCalls, sendEmailCalls; rewrite !filter_app; cbn;
      now rewrite !app_nil_r.
  - unfold makeBatches. apply batchesFrom_diverges; [lia|].
    rewrite prepareEmailsForSummary_length.
    destruct (fetchedEmails w d s); [congruence|cbn; lia].
Qed.

Lemma negative_batch_size_never_returns_witness :
  match fst (createDailySummary 1000 wNegativeBatch 5 (start wNegativeBatch)) with
  | Return _ => False
  | Throw e => e = invalidArrayLength /\ (arrayLimit <= Z.of_nat 1000)%Z
  | OutOfFuel => (Z.of_nat 1000 < arrayLimit)%Z
  end
  /\ summaryStore (snd (createDailySummary 1000 wNegativeBatch 5 (start wNegativeBatch)))
     = summaryStore (start wNegativeBatch)
  /\ emailStore (snd (createDailySummary 1000 wNegativeBatch 5 (start wNegativeBatch)))
     = emailStore (start wNegativeBatch)
  /\ chatCalls (trace (snd (createDailySummary 1000 wNegativeBatch 5 (start wNegativeBatch))))
     = chatCalls (trace (start wNegativeBatch))
  /\ sendEmailCalls (trace (snd (createDailySummary 1000 wNegativeBatch 5 (start wNegativeBatch))))
     = sendEmailCalls (trace (start wNegativeBatch)).
Proof.
  apply (negative_batch_size_never_returns wNegativeBatch 1000 5 (start wNegativeBatch)).
  - reflexivity.
  - reflexivity.
  - vm_compute. discriminate.
Defined.

(** X4. One digest per date: whatever a run of [createDailySummary] does
    (return, throw, lose the race for the date to another run), a digest
    store with pairwise distinct dates still has pairwise distinct dates
    afterwards. *)
Theorem one_digest_per_date_kept
  (w : World) (fuel : nat) (d : Z) (s : State) :
  NoDup (map date (summaryStore s)) ->
  NoDup (map date (summaryStore (snd (createDailySummary fuel w d s)))).
Proof.
  intros Hnd.
  destruct (createDailySummary_frame w fuel d s) as (_ & (added & -> & H) & _).
  now apply H.
Qed.

Lemma one_digest_per_date_kept_witness :
  NoDup (map date (summaryStore (snd (createDailySummary 3 wRace 5 (start wRace))))).
Proof.
  apply (one_digest_per_date_kept wRace 3 5 (start wRace)).
  cbn. constructor.
Defined.


Lemma markAll_leaves_none ids store p :
  (forall e, In e store -> p e = true -> In (email_id e) ids) ->
  (forall e, p (setSummarized e) = false) ->
  filter p (markAll ids store) = [].
Proof.
  intros Hids Hp. unfold markAll.
  induction store as [|e store IH]; [reflexivity|]. cbn.
  destruct (idIn ids e) eqn:E.
  - rewrite Hp. apply IH. intros x Hx. apply Hids. now right.
  - destruct (p e) eqn:Hpe.
    + exfalso. apply (Hids e (or_introl eq_refl)) in Hpe.
      apply idIn_In in Hpe. congruence.
    + apply IH. intros x Hx. apply Hids. now right.
Qed.

(** X6. No double counting: after a run that created and returned a
    digest for the day, no stored message of that day is left unsummarized;
    a later fetch for the same day is empty. *)
Theorem created_digest_consumes_the_day
  (w : World) (fuel : nat) (d : Z) (s s' : State) (x : Summary) :
  digestFor w d s = None ->
  createDailySummary fuel w d s = (Return (Some x), s') ->
  fetchedEmails w d s' = []
  /\ emailCount x = List.length (fetchedEmails w d s)
  /\ emailIds x = map email_id (fetchedEmails w d s).
Proof.
  intros Hd H.
  destruct (fetchedEmails w d s) as [|e0 es] eqn:Hf.
  { rewrite (createDailySummary_no_emails w fuel d s Hd Hf) in H. discriminate. }
  rewrite <- Hf in *.
  assert (Hne : fetchedEmails w d s <> []) by (rewrite Hf; discriminate).
  destruct (makeBatches fuel (prepareEmailsForSummary (fetchedEmails w d s))
              (batchSizeOf w)) as [batches|] eqn:Hb.
  2: { rewrite (createDailySummary_out_of_fuel_state w fuel d s Hd Hne Hb) in H.
       destruct (arrayLimit <=? Z.of_nat fuel)%Z; discriminate. }
  destruct (createDailySummary_generate w fuel d s batches Hd Hne Hb)
    as (evs & _ & _ & _ & _ & Hrun).
  rewrite Hrun in H. clear Hrun.
  destruct (chatCompletion w _ _) as [e|text]; [discriminate|].
  match type of H with
  | tryCatch (persistAndMark w ?sd ?c ?cats ?em) rethrowCreating ?st = _ =>
      destruct (persistAndMark_frame w sd c cats em st) as (_ & _ & Hem & _);
      pose proof (persistAndMark_returns w sd c cats em st x s' H) as Hst
  end.
  rewrite H in Hem. cbn [fst snd] in Hem.
  specialize (Hem (ex_intro _ (Some x) eq_refl)).
  split.
  - unfold fetchedEmails at 1. rewrite Hem.
    rewrite markAll_leaves_none; [reflexivity| |].
    + intros e He Hp. apply in_map. now apply fetchedEmails_complete.
    + intros e. unfold inRangeUnsummarized. cbn. apply andb_false_r.
  - revert H. unfoldPersist.
    destruct (concurrentSave w) as [other|]; fields;
      [destruct (content other); fields|];
      destruct (trim text); fields;
      repeat match goal with
        | |- context [if existsb ?p ?l then _ else _] =>
            destruct (existsb p l) eqn:?; fields
        end;
      try discriminate;
      (destruct (updateManyFault w); fields; [discriminate|]);
      intros [= <- _]; split; reflexivity.
Qed.

Lemma created_digest_consumes_the_day_witness :
  fetchedEmails wPlain 5 (snd (createDailySummary 3 wPlain 5 (start wPlain))) = []
  /\ emailCount (freshDigest (start wPlain) 0 "Work: two test emails"
                   [{| name := "Work"; description := "Work: two test emails" |}]
                   (fetchedEmails wPlain 5 (start wPlain)))
     = List.length (fetchedEmails wPlain 5 (start wPlain))
  /\ emailIds (freshDigest (start wPlain) 0 "Work: two test emails"
                 [{| name := "Work"; description := "Work: two test emails" |}]
                 (fetchedEmails wPlain 5 (start wPlain)))
     = map email_id (fetchedEmails wPlain 5 (start wPlain)).
Proof.
  apply (created_digest_consumes_the_day wPlain 3 5 (start wPlain)).
  - reflexivity.
  - vm_compute. reflexivity.
Defined.

(** X7. Backend budget: with batch size [B > 0] and [N] messages fetched,
    a run sends either no request to the generation backend or exactly
    [ceil(N/B) + 2] of them (one per batch, the categorization, the
    merge), whichever of them fail. *)
Theorem backend_request_budget
  (w : World) (fuel : nat) (d : Z) (s : State) :
  (0 < batchSizeOf w)%Z ->
  callsBefore (snd (createDailySummary fuel w d s)) = callsBefore s
  \/ Z.of_nat (callsBefore (snd (createDailySummary fuel w d s)))
     = (Z.of_nat (callsBefore s)
        + (Z.of_nat (List.length (fetchedEmails w d s)) + batchSizeOf w - 1)
          / batchSizeOf w
        + 2)%Z.
Proof.
  intros HB.
  destruct (createDailySummary_frame w fuel d s)
    as (_ & _ & (evs & Ht & _ & [Hc|(batches & Hb & Hlen)])).
  - left. unfold callsBefore, chatCalls in *. now rewrite Ht, filter_app, Hc, app_nil_r.
  - right. unfold callsBefore, chatCalls in *.
    rewrite Ht, filter_app, length_app, Hlen.
    unfold makeBatches in Hb.
    assert (Hfuel : exists fuel', (fuel <= fuel')%nat
              /\ (List.length (prepareEmailsForSummary (fetchedEmails w d s))
                  <= fuel')%nat)
      by (exists (fuel + List.length (prepareEmailsForSummary (fetchedEmails w d s)))%nat; lia).
    destruct Hfuel as (fuel' & Hle & Hbig).
    destruct (batchesFrom_spec (batchSizeOf w) HB
                (prepareEmailsForSummary (fetchedEmails w d s)) fuel' 0%Z)
      as (bs & Hrun & _ & HK & _); [lia|lia|].
    rewrite (batchesFrom_more_fuel _ _ fuel fuel' 0%Z batches Hb Hle) in Hrun.
    injection Hrun as <-.
    rewrite prepareEmailsForSummary_length, Z.sub_0_r in HK.
    rewrite Z.max_r in HK by (apply Z.div_pos; lia).
    lia.
Qed.

Lemma backend_request_budget_witness :
  callsBefore (snd (createDailySummary 125 wOneBatchFails 5
                      (start125 wOneBatchFails)))
  = callsBefore (start125 wOneBatchFails)
  \/ Z.of_nat (callsBefore (snd (createDailySummary 125 wOneBatchFails 5
                                   (start125 wOneBatchFails))))
     = (Z.of_nat (callsBefore (start125 wOneBatchFails))
        + (Z.of_nat (List.length (fetchedEmails wOneBatchFails 5
                                    (start125 wOneBatchFails)))
           + batchSizeOf wOneBatchFails - 1) / batchSizeOf wOneBatchFails
        + 2)%Z.
Proof.
  apply (backend_request_budget wOneBatchFails 125 5 (start125 wOneBatchFails)).
  reflexivity.
Defined.

(** ** Degraded runs *)

Lemma generateCombinedSummary_degraded w sums allEmails s e text :
  chatCompletion w (callsBefore s) (categorizeRequest allEmails) = inl e ->
  chatCompletion w (S (callsBefore s)) (mergeRequest sums) = inr text ->
  generateCombinedSummary w sums allEmails s
  = (Return (trim text, []),
     appendEvents s [ChatCall (categorizeRequest allEmails);
                     Log (ErrorOpenAICategorize e);
                     Log (ErrorCategorizing e);
                     ChatCall (mergeRequest sums)]).
Proof.
  intros Hc Hm. unfold generateCombinedSummary. run.
  rewrite categorizeEmails_run, Hc. run. tidy.
  rewrite generateSummary_run, callsBefore_append.
  cbn [chatCalls filter isChatCall List.length]. rewrite Nat.add_1_r.
  fold (mergeRequest sums). rewrite Hm. run. tidy. reflexivity.
Qed.

(** X8. Categorization failure is not fatal: when the categorization
    request is rejected and the merge request succeeds,
    [generateCombinedSummary] logs the failure and returns the merged text
    with an empty category list; the merge request is the same as it would
    have been. *)
Theorem categorization_failure_degrades
  (w : World) (sums : list BatchSummary) (allEmails : list PreparedEmail)
  (s : State) (e : JsError) (text : string) :
  chatCompletion w (callsBefore s) (categorizeRequest allEmails) = inl e ->
  chatCompletion w (S (callsBefore s)) (mergeRequest sums) = inr text ->
  exists s',
    generateCombinedSummary w sums allEmails s = (Return (trim text, []), s')
    /\ In (Log (ErrorCategorizing e)) (trace s')
    /\ In (ChatCall (mergeRequest sums)) (trace s')
    /\ emailStore s' = emailStore s
    /\ summaryStore s' = summaryStore s.
Proof.
  intros Hc Hm. eexists. split.
  - exact (generateCombinedSummary_degraded w sums allEmails s e text Hc Hm).
  - cbn. repeat split; apply in_or_app; right; cbn; auto.
Qed.

Lemma categorization_failure_degrades_witness :
  exists s',
    generateCombinedSummary (world development (Some 2%Z) (failingAt [0%nat])
                               delivers None None)
      [] (prepareEmailsForSummary inbox)
      (start (world development (Some 2%Z) (failingAt [0%nat])
                delivers None None))
    = (Return (trim "Work: two test emails", []), s')
    /\ In (Log (ErrorCategorizing (ProviderError "503 Service Unavailable")))
          (trace s')
    /\ In (ChatCall (mergeRequest [])) (trace s')
    /\ emailStore s'
       = emailStore (start (world development (Some 2%Z) (failingAt [0%nat])
                              delivers None None))
    /\ summaryStore s'
       = summaryStore (start (world development (Some 2%Z) (failingAt [0%nat])
                                delivers None None)).
Proof.
  apply (categorization_failure_degrades
           (world development (Some 2%Z) (failingAt [0%nat]) delivers None None)
           [] (prepareEmailsForSummary inbox)
           (start (world development (Some 2%Z) (failingAt [0%nat])
                     delivers None None))
           (ProviderError "503 Service Unavailable") "Work: two test emails").
  - reflexivity.
  - reflexivity.
Defined.





(** With the second request rejected, the first batch survives and the
    second is dropped. *)
Example processBatches_one_survivor :
  fst (processBatches 4 wOneBatchFails (prepareEmailsForSummary inbox) 2
         (start wOneBatchFails))
  = Return [{| bs_emails := prepareEmailsForSummary [mail 1 3000; mail 2 1000];
               bs_summary := "Work: two test emails" |}].
Proof. vm_compute. reflexivity. Qed.

(** ** Distribution: when a mail goes out, and what it changes *)

Lemma sendEmailCalls_app t evs :
  sendEmailCalls (t ++ evs) = sendEmailCalls t ++ sendEmailCalls evs.
Proof. apply filter_app. Qed.

Lemma distributeSummary_not_found w id s :
  findDigest id s = None ->
  distributeSummary w id s
  = (Throw (PlainError ("Summary with ID " ++ showNat id ++ " not found")%string),
     appendEvents s
       [Log (ErrorDistributing id
               (PlainError ("Summary with ID " ++ showNat id
                            ++ " not found")%string))]).
Proof.
  intros Hf. unfold distributeSummary, findById. run.
  unfold findDigest in Hf. rewrite Hf. reflexivity.
Qed.

Lemma distributeSummary_no_recipient w id s dg :
  findDigest id s = Some dg ->
  isDistributed dg = false ->
  truthy (SUMMARY_RECIPIENT_EMAIL w) = false ->
  distributeSummary w id s
  = (Throw (PlainError "Recipient email not configured"),
     appendEvents s
       [Log (ErrorDistributing id (PlainError "Recipient email not configured"))]).
Proof.
  intros Hf Hd Hr. unfold distributeSummary, findById. run.
  unfold findDigest in Hf. rewrite Hf, Hd.
  destruct (SUMMARY_RECIPIENT_EMAIL w) as [[|c r]|]; try discriminate; reflexivity.
Qed.

(** X10. [distributeSummary] enters [sendEmail] at most once per call, and
    only for a stored digest that is not yet distributed and with a
    recipient configured: for an unknown identifier, an already
    distributed digest or a missing recipient no mail is attempted and
    the digest store is left as it was. *)
Theorem mail_only_when_due (w : World) (id : nat) (s : State) :
  (sendEmailCalls (trace (snd (distributeSummary w id s)))
   = sendEmailCalls (trace s)
   /\ summaryStore (snd (distributeSummary w id s)) = summaryStore s)
  \/ (exists dg c r,
        findDigest id s = Some dg
        /\ isDistributed dg = false
        /\ SUMMARY_RECIPIENT_EMAIL w = Some (String c r)
        /\ sendEmailCalls (trace (snd (distributeSummary w id s)))
           = sendEmailCalls (trace s)
             ++ [SendEmailCall (String c r) (distributionSubject w dg)]).
Proof.
  destruct (findDigest id s) as [dg|] eqn:Hf.
  2: { left. rewrite (distributeSummary_not_found w id s Hf). cbn [snd].
       split; [|reflexivity]. cbn. rewrite sendEmailCalls_app. cbn.
       apply app_nil_r. }
  destruct (isDistributed dg) eqn:Hd.
  { left. rewrite (distributeSummary_already w id s dg Hf Hd). cbn [snd].
    split; [|reflexivity]. cbn. rewrite sendEmailCalls_app. cbn.
    apply app_nil_r. }
  destruct (SUMMARY_RECIPIENT_EMAIL w) as [[|c r]|] eqn:Hr.
  1, 3: left; rewrite (distributeSummary_no_recipient w id s dg Hf Hd)
          by (rewrite Hr; reflexivity);
        cbn [snd]; split; [|reflexivity]; cbn; rewrite sendEmailCalls_app; cbn;
        apply app_nil_r.
  right. exists dg, c, r. repeat split; try assumption.
  rewrite (distributeSummary_send w id s dg c r Hf Hd Hr).
  destruct (sendEmail_frame w (String c r) (distributionSubject w dg) None
              (Some (emailBodyOf w dg)) s)
    as (_ & _ & _ & _ & evs & Ht & Hsend & _).
  destruct (sendEmail w (String c r) (distributionSubject w dg) None
              (Some (emailBodyOf w dg)) s) as [[res|e|] s1];
    cbn [fst snd] in *.
  - unfold recordDistribution, saveExisting, validate. run.
    cbn [content markDistributed summary_id].
    destruct (content dg); fields;
      [|destruct (existsb _ (summaryStore s1)); fields];
      cbn [snd trace]; rewrite Ht, !sendEmailCalls_app;
      cbn [sendEmailCalls filter isSendEmailCall];
      fold (sendEmailCalls evs); rewrite Hsend; cbn;
      rewrite ?app_nil_r; reflexivity.
  - cbn. rewrite Ht, !sendEmailCalls_app.
    cbn [sendEmailCalls filter isSendEmailCall].
    fold (sendEmailCalls evs). rewrite Hsend. cbn. now rewrite app_nil_r.
  - rewrite Ht, sendEmailCalls_app.
    cbn [sendEmailCalls filter isSendEmailCall].
    fold (sendEmailCalls evs). now rewrite Hsend.
Qed.

(** X11. A successful first distribution changes exactly the distribution
    fields: the digest returned is the stored one with [isDistributed]
    set, [distributedAt] the current time and the configured recipient as
    only recipient; date, content, categories, count and message
    identifiers are kept; every digest with another identifier and the
    whole message store are untouched. *)
Theorem distribution_updates_only_its_fields
  (w : World) (id : nat) (s s' : State) (dg x : Summary) :
  findDigest id s = Some dg ->
  isDistributed dg = false ->
  distributeSummary w id s = (Return x, s') ->
  (exists c r, SUMMARY_RECIPIENT_EMAIL w = Some (String c r)
               /\ distributionRecipients x = [String c r])
  /\ isDistributed x = true
  /\ distributedAt x = Some (now w)
  /\ (summary_id x, date x, content x, topicCategories x, emailCount x, emailIds x)
     = (summary_id dg, date dg, content dg, topicCategories dg, emailCount dg,
        emailIds dg)
  /\ summaryStore s'
     = map (fun y => if Nat.eqb (summary_id y) id then x else y) (summaryStore s)
  /\ emailStore s' = emailStore s.
Proof.
  intros Hf Hd H.
  destruct (SUMMARY_RECIPIENT_EMAIL w) as [[|c r]|] eqn:Hr.
  1, 3: rewrite (distributeSummary_no_recipient w id s dg Hf Hd) in H
          by (rewrite Hr; reflexivity); discriminate.
  rewrite (distributeSummary_send w id s dg c r Hf Hd Hr) in H.
  destruct (sendEmail_frame w (String c r) (distributionSubject w dg) None
              (Some (emailBodyOf w dg)) s) as (He & Hs & _).
  destruct (sendEmail w (String c r) (distributionSubject w dg) None
              (Some (emailBodyOf w dg)) s) as [[res|e|] s1];
    try discriminate.
  cbn [fst snd] in *.
  revert H. unfold recordDistribution, saveExisting, validate. run.
  cbn [content markDistributed summary_id].
  pose proof (findDigest_id id s dg Hf) as Hid.
  destruct (content dg) eqn:Hc; fields; [discriminate|].
  destruct (existsb _ (summaryStore s1)); fields; [|discriminate].
  intros [= <- <-]. cbn.
  split; [exists c, r; auto|]. rewrite Hc, Hid, Hs, He. repeat split.
Qed.

Lemma distribution_updates_only_its_fields_witness :
  (exists c r, SUMMARY_RECIPIENT_EMAIL wPlain = Some (String c r)
               /\ distributionRecipients
                    (markDistributed wPlain (digest 7 0 false)
                       "reader@example.com") = [String c r])
  /\ isDistributed (markDistributed wPlain (digest 7 0 false)
                      "reader@example.com") = true
  /\ distributedAt (markDistributed wPlain (digest 7 0 false)
                      "reader@example.com") = Some (now wPlain)
  /\ (summary_id (markDistributed wPlain (digest 7 0 false) "reader@example.com"),
      date (markDistributed wPlain (digest 7 0 false) "reader@example.com"),
      content (markDistributed wPlain (digest 7 0 false) "reader@example.com"),
      topicCategories
        (markDistributed wPlain (digest 7 0 false) "reader@example.com"),
      emailCount (markDistributed wPlain (digest 7 0 false) "reader@example.com"),
      emailIds (markDistributed wPlain (digest 7 0 false) "reader@example.com"))
     = (summary_id (digest 7 0 false), date (digest 7 0 false),
        content (digest 7 0 false), topicCategories (digest 7 0 false),
        emailCount (digest 7 0 false), emailIds (digest 7 0 false))
  /\ summaryStore (snd (distributeSummary wPlain 7 (withDigest wPlain false)))
     = map (fun y => if Nat.eqb (summary_id y) 7
                     then markDistributed wPlain (digest 7 0 false)
                            "reader@example.com"
                     else y)
           (summaryStore (withDigest wPlain false))
  /\ emailStore (snd (distributeSummary wPlain 7 (withDigest wPlain false)))
     = emailStore (withDigest wPlain false).
Proof.
  apply (distribution_updates_only_its_fields wPlain 7 (withDigest wPlain false)
           (snd (distributeSummary wPlain 7 (withDigest wPlain false)))
           (digest 7 0 false)).
  - reflexivity.
  - reflexivity.
  - vm_compute. reflexivity.
Defined.

(** ** The notification service *)

Ltac caseSendAll :=
  repeat first [progress caseSend | progress (fields; cbn [negb])].

(** X12. Outside production [sendEmail] never throws: whatever the
    transport does (deliver, answer with an error field, reject) and
    whatever the state of the service, the call returns a result. *)
Theorem sendEmail_never_throws_outside_production
  (w : World) (to_ subject_ : string) (text html : option string) (s : State) :
  isProduction w = false ->
  exists res, fst (sendEmail w to_ subject_ text html s) = Return res.
Proof.
  intros Hp. unfoldSend. rewrite Hp. cbn [negb]. caseSendAll.
  all: cbn [fst]; eexists; reflexivity.
Qed.

Lemma sendEmail_never_throws_outside_production_witness :
  exists res,
    fst (sendEmail wDevTransportDown "reader@example.com" "Hello" None
           (Some "<p>Hi</p>") (start wDevTransportDown))
    = Return res.
Proof.
  apply (sendEmail_never_throws_outside_production wDevTransportDown).
  reflexivity.
Defined.

(** X13. Without a RESEND_API_KEY (unset or empty) a first [sendEmail]
    installs the mock service: the transport is never asked, the call
    returns the mock result, and the service stays the mock one. *)
Theorem sendEmail_without_key_is_mock
  (w : World) (to_ subject_ : string) (text html : option string) (s : State) :
  truthy (RESEND_API_KEY w) = false ->
  emailService s = None ->
  fst (sendEmail w to_ subject_ text html s)
  = Return {| result_id := Some ("mock-email-id-" ++ showZ (now w))%string;
              result_mock := true; result_error := None |}
  /\ transportSends (trace (snd (sendEmail w to_ subject_ text html s)))
     = transportSends (trace s)
  /\ emailService (snd (sendEmail w to_ subject_ text html s))
     = Some MockService
  /\ useMockTransport (snd (sendEmail w to_ subject_ text html s)) = true.
Proof.
  intros Hk Hs. unfoldSend. rewrite Hs, Hk. repeat (progress (fields; cbn [negb])).
  cbn [fst snd trace emailService useMockTransport].
  repeat split.
  rewrite !transportSends_snoc_other by reflexivity. reflexivity.
Qed.

Lemma sendEmail_without_key_is_mock_witness :
  fst (sendEmail (mkWorld development None None None None (fun _ _ => 0%Z) 1700000000000
                    showZ showZ answers rejects None None None)
         "reader@example.com" "Hello" None (Some "<p>Hi</p>")
         (initialState (mkWorld development None None None None (fun _ _ => 0%Z) 1700000000000
                          showZ showZ answers rejects None None None) [] [] 0))
  = Return {| result_id := Some "mock-email-id-1700000000000";
              result_mock := true; result_error := None |}
  /\ transportSends
       (trace (snd (sendEmail
                      (mkWorld development None None None None (fun _ _ => 0%Z) 1700000000000
                         showZ showZ answers rejects None None None)
                      "reader@example.com" "Hello" None (Some "<p>Hi</p>")
                      (initialState
                         (mkWorld development None None None None (fun _ _ => 0%Z)
                            1700000000000 showZ showZ answers rejects
                            None None None) [] [] 0))))
     = transportSends
         (trace (initialState
                   (mkWorld development None None None None (fun _ _ => 0%Z) 1700000000000
                      showZ showZ answers rejects None None None) [] [] 0))
  /\ emailService
       (snd (sendEmail
               (mkWorld development None None None None (fun _ _ => 0%Z) 1700000000000
                  showZ showZ answers rejects None None None)
               "reader@example.com" "Hello" None (Some "<p>Hi</p>")
               (initialState
                  (mkWorld development None None None None (fun _ _ => 0%Z) 1700000000000
                     showZ showZ answers rejects None None None) [] [] 0)))
     = Some MockService
  /\ useMockTransport
       (snd (sendEmail
               (mkWorld development None None None None (fun _ _ => 0%Z) 1700000000000
                  showZ showZ answers rejects None None None)
               "reader@example.com" "Hello" None (Some "<p>Hi</p>")
               (initialState
                  (mkWorld development None None None None (fun _ _ => 0%Z) 1700000000000
                     showZ showZ answers rejects None None None) [] [] 0)))
     = true.
Proof.
  apply (sendEmail_without_key_is_mock
           (mkWorld development None None None None (fun _ _ => 0%Z) 1700000000000
              showZ showZ answers rejects None None None)).
  - reflexivity.
  - reflexivity.
Defined.

(** X14. The mail service is a lazily built singleton:
    [initializeEmailService] never throws, always leaves a service
    installed, and once one is installed returns that same service without
    any further effect, even if the environment would now choose the
    other one. A service it builds comes with the matching value of
    [useMockTransport]. *)
Theorem initializeEmailService_is_cached (w w' : World) (s : State) :
  exists service,
    fst (initializeEmailService w s) = Return service
    /\ emailService (snd (initializeEmailService w s)) = Some service
    /\ initializeEmailService w' (snd (initializeEmailService w s))
       = (Return service, snd (initializeEmailService w s))
    /\ useMockTransport (snd (initializeEmailService w s))
       = match emailService s, service with
         | Some _, _ => useMockTransport s
         | None, MockService => true
         | None, ResendService => false
         end.
Proof.
  unfold initializeEmailService. run. fields.
  destruct (emailService s) as [[|]|] eqn:Hs; fields.
  - exists ResendService. cbn [fst snd]. rewrite Hs. repeat split.
  - exists MockService. cbn [fst snd]. rewrite Hs. repeat split.
  - destruct (truthy (RESEND_API_KEY w)); fields;
      [destruct (resendCtor w); fields|];
      repeat (progress fields); cbn [fst snd emailService useMockTransport];
      eexists; repeat split.
Qed.

Lemma includes_stripTagsFrom c b s :
  includes c (stripTagsFrom b s) = true -> includes c s = true.
Proof.
  revert b. induction s as [|d r IH]; intros b; cbn; [now destruct b|].
  destruct b.
  - intros H. apply IH in H. rewrite H. apply orb_true_r.
  - destruct (Ascii.eqb d "<"%char && includes ">"%char r).
    + intros H. apply IH in H. rewrite H. apply orb_true_r.
    + cbn. destruct (Ascii.eqb d c); [reflexivity|]. cbn. apply IH.
Qed.

Lemma noTag_stripTagsFrom b s : noTag (stripTagsFrom b s) = true.
Proof.
  revert b. induction s as [|d r IH]; intros b; cbn; [now destruct b|].
  destruct b; [apply IH|].
  destruct (Ascii.eqb d "<"%char && includes ">"%char r) eqn:E; [apply IH|].
  cbn. rewrite IH, andb_true_r.
  destruct (Ascii.eqb d "<"%char); [|reflexivity]. cbn in *.
  destruct (includes ">"%char (stripTagsFrom false r)) eqn:E'; [|reflexivity].
  apply includes_stripTagsFrom in E'. congruence.
Qed.

Lemma stripTags_noTag s : noTag s = true -> stripTagsFrom false s = s.
Proof.
  induction s as [|d r IH]; cbn; [reflexivity|].
  intros H. apply andb_prop in H as [H1 H2].
  apply negb_true_iff in H1. rewrite H1. now rewrite IH.
Qed.

(** X15. The text body [sendEmail] derives from the HTML one: after
    [html.replace(/<[^>]*>/g, '')] no '<' is followed by a '>' any more, so
    stripping again changes nothing, and a text without tags is kept as
    it is. *)
Theorem stripTags_removes_every_tag (s : string) :
  noTag (stripTags s) = true
  /\ stripTags (stripTags s) = stripTags s
  /\ (if noTag s then stripTags s = s else stripTags s <> s).
Proof.
  unfold stripTags. split; [apply noTag_stripTagsFrom|]. split.
  - apply stripTags_noTag, noTag_stripTagsFrom.
  - destruct (noTag s) eqn:E; [now apply stripTags_noTag|].
    intros Habs. pose proof (noTag_stripTagsFrom false s) as H.
    rewrite Habs in H. congruence.
Qed.

(** ** The message store *)







Lemma insertByReceivedAt_perm e l :
  Permutation (insertByReceivedAt e l) (e :: l).
Proof.
  induction l as [|x l IH]; cbn; [reflexivity|].
  destruct (receivedAt e <=? receivedAt x)%Z; [reflexivity|].
  rewrite IH. apply perm_swap.
Qed.

Lemma insertByReceivedAt_sorted e l :
  StronglySorted (fun a b => (receivedAt a <= receivedAt b)%Z) l ->
  StronglySorted (fun a b => (receivedAt a <= receivedAt b)%Z)
                 (insertByReceivedAt e l).
Proof.
  induction l as [|x l IH]; intros Hs; cbn.
  - constructor; constructor.
  - destruct (receivedAt e <=? receivedAt x)%Z eqn:E.
    + apply Z.leb_le in E. constructor; [exact Hs|].
      constructor; [exact E|].
      apply StronglySorted_inv in Hs as [_ Hx].
      eapply Forall_impl; [|exact Hx]. cbn. intros a Ha. lia.
    + apply Z.leb_gt in E.
      apply StronglySorted_inv in Hs as [Hl Hx].
      constructor; [now apply IH|].
      apply Forall_forall. intros a Ha.
      apply insertByReceivedAt_In in Ha as [->|Ha]; [lia|].
      rewrite Forall_forall in Hx. now apply Hx.
Qed.

(** X17. [getEmailsForSummary] returns, oldest first, exactly the stored
    messages received within the range and not yet summarized: the result
    is sorted by [receivedAt] and is a rearrangement of those messages,
    none lost and none twice; the state is not changed. *)
Theorem getEmailsForSummary_sorted_selection
  (startDate endDate : Z) (s : State) :
  exists emails,
    getEmailsForSummary startDate endDate s = (Return emails, s)
    /\ StronglySorted (fun a b => (receivedAt a <= receivedAt b)%Z) emails
    /\ Permutation emails
         (filter (fun e => (startDate <=? receivedAt e)%Z
                           && (receivedAt e <=? endDate)%Z
                           && negb (isSummarized e))
                 (emailStore s)).
Proof.
  eexists. split; [reflexivity|].
  fold (inRangeUnsummarized startDate endDate).
  unfold sortByReceivedAt.
  induction (filter (inRangeUnsummarized startDate endDate) (emailStore s))
    as [|e l [IHs IHp]]; cbn.
  - split; constructor.
  - split; [now apply insertByReceivedAt_sorted|].
    rewrite insertByReceivedAt_perm. now constructor.
Qed.

(** ** Category parsing and the day range *)

Lemma trimStart_fixed s :
  match s with
  | EmptyString => True
  | String c _ => isWhitespace c = false
  end ->
  trimStart s = s.
Proof. destruct s as [|c r]; cbn; [reflexivity|]. now intros ->. Qed.

Lemma trimEnd_keeps_head c r :
  isWhitespace c = false ->
  exists r', trimEnd (String c r) = String c r'.
Proof.
  intros Hc. cbn. destruct (trimEnd r); [rewrite Hc|]; eexists; reflexivity.
Qed.

Lemma trimEnd_idempotent s : trimEnd (trimEnd s) = trimEnd s.
Proof.
  induction s as [|c r IH]; [reflexivity|]. cbn.
  destruct (trimEnd r) as [|c' r'] eqn:E.
  - destruct (isWhitespace c) eqn:Hc; [reflexivity|]. cbn. now rewrite Hc.
  - cbn [trimEnd]. cbn [trimEnd] in IH. rewrite IH. reflexivity.
Qed.

Lemma trim_idempotent s : trim (trim s) = trim s.
Proof.
  unfold trim. pose proof (trimStart_head s) as H.
  destruct (trimStart s) as [|c r]; [reflexivity|].
  destruct (trimEnd_keeps_head c r H) as (r' & Hr).
  rewrite Hr, trimStart_fixed by exact H.
  rewrite <- Hr. apply trimEnd_idempotent.
Qed.

Lemma includes_trimStart c s :
  includes c (trimStart s) = true -> includes c s = true.
Proof.
  induction s as [|d r IH]; cbn; [discriminate|].
  destruct (isWhitespace d); [|exact (fun H => H)].
  intros H. rewrite (IH H). apply orb_true_r.
Qed.

Lemma includes_trimEnd c s :
  includes c (trimEnd s) = true -> includes c s = true.
Proof.
  induction s as [|d r IH]; cbn; [discriminate|].
  destruct (trimEnd r) as [|d' r'].
  - destruct (isWhitespace d); cbn; [discriminate|].
    rewrite orb_false_r. intros ->. reflexivity.
  - cbn [includes] in *. destruct (Ascii.eqb d c); [reflexivity|]. exact IH.
Qed.

Lemma includes_trim c s : includes c (trim s) = true -> includes c s = true.
Proof. intros H. now apply includes_trimStart, includes_trimEnd. Qed.

Lemma includes_split_head c s :
  includes c (hd EmptyString (split c s)) = false.
Proof.
  induction s as [|d r IH]; [reflexivity|]. cbn.
  destruct (Ascii.eqb d c) eqn:E; [reflexivity|].
  destruct (split c r) as [|h t]; cbn in *; rewrite E; [reflexivity|exact IH].
Qed.

Lemma isBlank_lines text :
  forallb isBlank (split "010"%char text) = isBlank text.
Proof.
  unfold isBlank. induction text as [|c r IH]; [reflexivity|].
  cbn [split].
  destruct (Ascii.eqb c "010"%char) eqn:E.
  - apply Ascii.eqb_eq in E. subst c. cbn. exact IH.
  - destruct (split "010"%char r) as [|h t]; cbn in *.
    + rewrite <- IH. now rewrite !andb_true_r.
    + rewrite <- IH. now rewrite andb_assoc.
Qed.

Lemma filter_nil_forallb {A} (p : A -> bool) l :
  filter (fun x => negb (p x)) l = [] <-> forallb p l = true.
Proof.
  induction l as [|x l IH]; cbn; [tauto|].
  destruct (p x); cbn; [exact IH|]. split; discriminate.
Qed.

(** X18. What the category parser yields: one category per non-blank line
    of the answer; every description is non-empty and carries no leading
    or trailing white space, every name is trimmed and contains no ':';
    the list is empty exactly when the whole answer is white space. *)
Theorem parseCategories_wellformed (text : string) :
  forallb (fun c =>
             negb (String.eqb (description c) EmptyString)
             && String.eqb (trim (description c)) (description c)
             && String.eqb (trim (name c)) (name c)
             && negb (includes ":"%char (name c)))
          (parseCategories text) = true
  /\ List.length (parseCategories text)
     = List.length (filter (fun line => negb (isBlank line))
                      (split "010"%char text))
  /\ (if isBlank text then parseCategories text = []
      else parseCategories text <> []).
Proof.
  unfold parseCategories. rewrite (filter_ext _ _ nonblank_filter).
  split; [|split].
  - apply forallb_forall. intros c Hc.
    apply in_map_iff in Hc as (line & <- & Hl).
    apply filter_In in Hl as [_ Hl].
    unfold categoryOfLine. cbn [name description].
    rewrite trim_idempotent, String.eqb_refl.
    assert (Hne : String.eqb (trim line) EmptyString = false).
    { apply String.eqb_neq. intros Habs. apply trim_blank in Habs.
      rewrite Habs in Hl. discriminate. }
    rewrite Hne. cbn.
    destruct (includes ":"%char line) eqn:Hi.
    + rewrite trim_idempotent, String.eqb_refl. cbn.
      destruct (includes ":"%char (trim (hd EmptyString (split ":"%char line))))
        eqn:E; [|reflexivity].
      apply includes_trim in E. now rewrite includes_split_head in E.
    + rewrite trim_idempotent, String.eqb_refl. cbn.
      destruct (includes ":"%char (trim line)) eqn:E; [|reflexivity].
      apply includes_trim in E. congruence.
  - apply length_map.
  - rewrite <- isBlank_lines.
    destruct (forallb isBlank (split "010"%char text)) eqn:E.
    + apply filter_nil_forallb in E. now rewrite E.
    + intros Habs. apply map_eq_nil in Habs.
      apply filter_nil_forallb in Habs. congruence.
Qed.





(** On the day the clocks go forward the range is an hour shorter. *)
Example day_range_when_clocks_change :
  startOfDay wSpringForward 0 = (-3600000)%Z
  /\ endOfDay wSpringForward 0 = 79199999%Z
  /\ (endOfDay wSpringForward 0 - startOfDay wSpringForward 0 = 82799999)%Z.
Proof. vm_compute. repeat split; reflexivity. Qed.

(** ** Ingestion *)

Ltac frun :=
  cbv beta iota zeta delta
    [fbind ftry fret fthrow femit lift findOneByMessageId getMessage
     extractStep saveNewEmail].

Lemma grown_grown s a1 n1 a2 n2 :
  grown (grown s a1 n1) a2 n2 = grown s (a1 ++ a2) n2.
Proof. unfold grown, withNextId, withEmails. cbn. now rewrite app_assoc. Qed.

Lemma grown_nil s : grown s [] (nextObjectId s) = s.
Proof.
  destruct s. unfold grown, withNextId, withEmails. cbn. now rewrite app_nil_r.
Qed.

Lemma validateEmail_ok data :
  validateEmail data = None ->
  forall id, freshlyStored (emailOfData id data) = true.
Proof.
  unfold validateEmail, freshlyStored, emailOfData. cbn.
  destruct (nonEmpty (data_messageId data)); cbn; [|discriminate].
  destruct (nonEmpty (data_threadId data)); cbn; [|discriminate].
  destruct (nonEmpty (data_from data)); cbn; [|discriminate].
  destruct (nonEmpty (data_to data)); cbn; [|discriminate].
  destruct (nonEmpty (data_body data)); cbn; [|discriminate].
  reflexivity.
Qed.

Lemma NoDup_messageId_snoc (l : list Email) (doc : Email) :
  existsb (fun e => String.eqb (messageId e) (messageId doc)) l = false ->
  NoDup (map messageId l) -> NoDup (map messageId (l ++ [doc])).
Proof.
  intros Hex Hnd. rewrite map_app. cbn.
  apply NoDup_app; [exact Hnd|constructor; [intros []|constructor]|].
  intros a Ha [<-|[]]. apply in_map_iff in Ha as (x & Hx & Hin).
  assert (existsb (fun e => String.eqb (messageId e) (messageId doc)) l = true).
  { apply existsb_exists. exists x. split; [exact Hin|]. now apply String.eqb_eq. }
  congruence.
Qed.

Lemma extractEmailData_logs mb details :
  getCalls (snd (extractEmailData mb details)) = [].
Proof.
  unfold extractEmailData, processEmailParts, extractTextFromHtml, getCalls.
  repeat match goal with
    | |- context [match ?x with _ => _ end] => destruct x; cbn
    end; reflexivity.
Qed.

Lemma getCalls_app a b : getCalls (a ++ b) = getCalls a ++ getCalls b.
Proof. apply filter_app. Qed.

(** One turn of the loop never throws; it asks for the details of the
    message exactly when the message is not stored yet, and stores at most
    that message. *)
Lemma fetchOne_frame mb m emails c :
  exists added next evs,
    fetchOne mb m emails c
    = (Return (emails ++ added), (grown (fst c) added next, snd c ++ evs))
    /\ (nextObjectId (fst c) <= next)%nat
    /\ forallb freshlyStored added = true
    /\ (NoDup (map messageId (emailStore (fst c))) ->
        NoDup (map messageId (emailStore (fst c) ++ added)))
    /\ (List.length added <= List.length (getCalls evs))%nat
    /\ getCalls evs
       = (if stored (emailStore (fst c)) m then [] else [GetCall (ref_id m)]).
Proof.
  destruct c as [s t]. unfold fetchOne, stored. frun. cbn [fst snd].
  destruct (find (fun e => String.eqb (messageId e) (ref_id m)) (emailStore s))
    as [ex|] eqn:Hfind; cbv beta iota; cbn [fst snd].
  { exists [], (nextObjectId s), [DebugExists (ref_id m)].
    rewrite grown_nil, !app_nil_r.
    assert (Hex : existsb (fun e => String.eqb (messageId e) (ref_id m))
                    (emailStore s) = true).
    { apply find_some in Hfind as [Hin Heq].
      apply existsb_exists. now exists ex. }
    rewrite Hex. repeat split; auto. }
  assert (Hnot : existsb (fun e => String.eqb (messageId e) (ref_id m))
                   (emailStore s) = false)
    by (apply find_none_existsb; exact Hfind).
  rewrite Hnot.
  destruct (messagesGet mb (List.length (getCalls t)) (ref_id m)) as [e|details];
    cbv beta iota; cbn [fst snd].
  { exists [], (nextObjectId s),
      [GetCall (ref_id m); ErrorProcessingMessage (ref_id m) e].
    rewrite grown_nil, !app_nil_r, <- app_assoc.
    repeat split; auto. cbn. lia. }
  pose proof (extractEmailData_logs mb details) as Hlogs.
  assert (Hcalls : forall ev,
            getCalls (GetCall (ref_id m) :: snd (extractEmailData mb details)
                      ++ [ev]) = GetCall (ref_id m) :: getCalls [ev]).
  { intros ev. cbn. f_equal. fold (getCalls (snd (extractEmailData mb details) ++ [ev])).
    now rewrite getCalls_app, Hlogs. }
  destruct (fst (extractEmailData mb details)) as [e|data];
    cbv beta iota; cbn [fst snd].
  { exists [], (nextObjectId s),
      (GetCall (ref_id m) :: snd (extractEmailData mb details)
       ++ [ErrorProcessingMessage (ref_id m) e]).
    rewrite grown_nil, !app_nil_r, <- !app_assoc. cbn [app].
    split; [reflexivity|]. rewrite Hcalls. repeat split; auto. cbn. lia. }
  destruct (validateEmail data) eqn:Hv; cbv beta iota; cbn [fst snd].
  { exists [], (S (nextObjectId s)),
      (GetCall (ref_id m) :: snd (extractEmailData mb details)
       ++ [ErrorProcessingMessage (ref_id m) j]).
    unfold grown. cbn [fst snd]. rewrite <- !app_assoc. cbn [app].
    split; [unfold withNextId, withEmails; cbn; now rewrite !app_nil_r|].
    rewrite Hcalls. repeat split; auto.
    - now rewrite app_nil_r.
    - cbn. lia. }
  cbn [emailOfData messageId].
  destruct (existsb (fun e => String.eqb (messageId e) (data_messageId data))
              (emailStore s)) eqn:Hdup; cbv beta iota; cbn [fst snd].
  { exists [], (S (nextObjectId s)),
      (GetCall (ref_id m) :: snd (extractEmailData mb details)
       ++ [ErrorProcessingMessage (ref_id m)
             (StoreError "E11000 duplicate key error: messageId")]).
    unfold grown. cbn [fst snd]. rewrite <- !app_assoc. cbn [app].
    split; [unfold withNextId, withEmails; cbn; now rewrite !app_nil_r|].
    rewrite Hcalls. repeat split; auto.
    - now rewrite app_nil_r.
    - cbn. lia. }
  exists [emailOfData (nextObjectId s) data], (S (nextObjectId s)),
    (GetCall (ref_id m) :: snd (extractEmailData mb details)
     ++ [DebugSaved (ref_id m)]).
  cbn [fst snd]. rewrite <- !app_assoc. cbn [app].
  split; [reflexivity|]. split; [lia|]. split.
  { cbn. now rewrite (validateEmail_ok data Hv). }
  split.
  { intros Hnd. now apply NoDup_messageId_snoc. }
  rewrite Hcalls. split; [cbn; lia|reflexivity].
Qed.

Lemma grown_emailStore s a n : emailStore (grown s a n) = emailStore s ++ a.
Proof. reflexivity. Qed.

Lemma grown_trace s a n : trace (grown s a n) = trace s.
Proof. reflexivity. Qed.

Lemma grown_nextObjectId s a n : nextObjectId (grown s a n) = n.
Proof. reflexivity. Qed.

Lemma stored_app l a m : stored l m = true -> stored (l ++ a) m = true.
Proof. unfold stored. rewrite existsb_app. intros ->. reflexivity. Qed.

Lemma unseen_app_le l a messages :
  (List.length (unseen (l ++ a) messages) <= List.length (unseen l messages))%nat.
Proof.
  unfold unseen.
  induction messages as [|m ms IH]; cbn [filter]; [lia|].
  destruct (stored l m) eqn:Hs.
  - rewrite (stored_app l a m Hs). cbn [negb]. exact IH.
  - cbn [negb]. destruct (stored (l ++ a) m); cbn [negb List.length]; lia.
Qed.

Lemma unseen_app_incl l a messages :
  incl (detailRequests (unseen (l ++ a) messages))
       (detailRequests (unseen l messages)).
Proof.
  unfold unseen, detailRequests.
  induction messages as [|m ms IH]; cbn [filter map]; [apply incl_refl|].
  destruct (stored l m) eqn:Hs.
  - rewrite (stored_app l a m Hs). cbn [negb]. exact IH.
  - cbn [negb map]. destruct (stored (l ++ a) m); cbn [negb map].
    + now apply incl_tl.
    + intros ev [<-|Hev]; [now left|]. right. now apply IH.
Qed.

(** The whole loop: it returns what it stored, never throws, keeps
    [messageId] unique, and asks for details at most once per listed
    message that was not stored when the loop began. *)
Lemma fetchLoop_frame mb messages :
  forall emails c,
  exists added next evs,
    fetchLoop mb messages emails c
    = (Return (emails ++ added), (grown (fst c) added next, snd c ++ evs))
    /\ (nextObjectId (fst c) <= next)%nat
    /\ forallb freshlyStored added = true
    /\ (NoDup (map messageId (emailStore (fst c))) ->
        NoDup (map messageId (emailStore (fst c) ++ added)))
    /\ (List.length added <= List.length (getCalls evs))%nat
    /\ (List.length (getCalls evs)
        <= List.length (unseen (emailStore (fst c)) messages))%nat
    /\ incl (getCalls evs)
            (detailRequests (unseen (emailStore (fst c)) messages)).
Proof.
  induction messages as [|m ms IH]; intros emails c.
  { exists [], (nextObjectId (fst c)), []. cbn [fetchLoop]. unfold fret.
    rewrite grown_nil, !app_nil_r. destruct c. cbn.
    repeat split; auto. apply incl_nil_l. }
  cbn [fetchLoop]. unfold fbind at 1.
  destruct (fetchOne_frame mb m emails c)
    as (a1 & n1 & e1 & -> & Hn1 & Hf1 & Hd1 & Hl1 & Hc1).
  destruct (IH (emails ++ a1) (grown (fst c) a1 n1, snd c ++ e1))
    as (a2 & n2 & e2 & -> & Hn2 & Hf2 & Hd2 & Hl2 & Hc2 & Hi2).
  cbn [fst snd] in *. rewrite grown_emailStore in *.
  rewrite grown_nextObjectId in Hn2.
  exists (a1 ++ a2), n2, (e1 ++ e2).
  rewrite grown_grown, <- !app_assoc. split; [reflexivity|].
  split; [lia|]. split; [now rewrite forallb_app, Hf1, Hf2|]. split.
  { intros Hnd. rewrite app_assoc. auto. }
  rewrite getCalls_app, !length_app. split; [lia|].
  pose proof (unseen_app_le (emailStore (fst c)) a1 ms) as Hle.
  pose proof (unseen_app_incl (emailStore (fst c)) a1 ms) as Hsub.
  cbn [unseen filter]. fold (unseen (emailStore (fst c)) ms).
  destruct (stored (emailStore (fst c)) m); rewrite Hc1; cbn [negb app].
  - split; [cbn; lia|]. intros ev Hev. apply Hsub, Hi2, Hev.
  - split; [cbn; lia|]. intros ev [<-|Hev]; [now left|].
    right. apply Hsub, Hi2, Hev.
Qed.

(** [fetchEmails] as a whole. *)
Lemma fetchEmails_frame mb options c :
  exists out added next evs,
    fetchEmails mb options c
    = (out, (grown (fst c) added next, snd c ++ evs))
    /\ (nextObjectId (fst c) <= next)%nat
    /\ forallb freshlyStored added = true
    /\ (NoDup (map messageId (emailStore (fst c))) ->
        NoDup (map messageId (emailStore (fst c) ++ added)))
    /\ (List.length added <= List.length (getCalls evs))%nat
    /\ (List.length (getCalls evs)
        <= List.length (unseen (emailStore (fst c)) (listed mb options)))%nat
    /\ incl (getCalls evs)
            (detailRequests (unseen (emailStore (fst c)) (listed mb options)))
    /\ match out with
       | Return emails =>
           emails = added
           /\ oauthFault mb = None /\ gmailFault mb = None
           /\ exists r, messagesList mb (listOptionsOf options) = inr r
       | Throw e =>
           added = [] /\ next = nextObjectId (fst c)
           /\ (oauthFault mb = Some e
               \/ (oauthFault mb = None /\ gmailFault mb = Some e)
               \/ (oauthFault mb = None /\ gmailFault mb = None
                   /\ messagesList mb (listOptionsOf options) = inl e))
       | OutOfFuel => False
       end.
Proof.
  destruct c as [s t].
  unfold fetchEmails, getGmailService, createOAuth2Client, listed.
  cbv beta iota zeta delta [fbind ftry fret fthrow femit]. cbn [fst snd].
  destruct (oauthFault mb) as [e|] eqn:Ho; cbv beta iota; cbn [fst snd].
  { exists (Throw e), [], (nextObjectId s),
      [ErrorCreatingOAuth e; ErrorInitGmail e; ErrorFetchingGmail e].
    rewrite grown_nil, ?app_nil_r, <- !app_assoc. cbn [app].
    repeat split; auto; try (cbn; lia); try apply incl_nil_l. }
  destruct (gmailFault mb) as [e|] eqn:Hg; cbv beta iota; cbn [fst snd].
  { exists (Throw e), [], (nextObjectId s),
      [ErrorInitGmail e; ErrorFetchingGmail e].
    rewrite grown_nil, ?app_nil_r, <- !app_assoc. cbn [app].
    repeat split; auto; try (cbn; lia); try apply incl_nil_l. }
  destruct (messagesList mb (listOptionsOf options)) as [e|[[|m ms]|]] eqn:Hl;
    cbv beta iota; cbn [fst snd].
  - exists (Throw e), [], (nextObjectId s),
      [ListCall (listOptionsOf options); ErrorFetchingGmail e].
    rewrite grown_nil, ?app_nil_r, <- !app_assoc. cbn [app].
    repeat split; auto; try (cbn; lia); try apply incl_nil_l.
  - exists (Return []), [], (nextObjectId s),
      [ListCall (listOptionsOf options); InfoNoNewEmails].
    rewrite grown_nil, ?app_nil_r, <- !app_assoc. cbn [app].
    repeat split; eauto; try (cbn; lia); try apply incl_nil_l.
  - destruct (fetchLoop_frame mb (m :: ms) []
                (s, (t ++ [ListCall (listOptionsOf options)])
                    ++ [InfoFound (List.length (m :: ms))]))
      as (added & next & evs & -> & Hn & Hf & Hd & Hla & Hlc & Hinc).
    cbn [fst snd app] in *.
    exists (Return added), added, next,
      (ListCall (listOptionsOf options) :: InfoFound (List.length (m :: ms))
       :: evs ++ [InfoProcessed (List.length added)]).
    rewrite <- !app_assoc. cbn [app].
    assert (Hc : getCalls (ListCall (listOptionsOf options)
                           :: InfoFound (List.length (m :: ms))
                           :: evs ++ [InfoProcessed (List.length added)])
                 = getCalls evs).
    { cbn. fold (getCalls (evs ++ [InfoProcessed (List.length added)])).
      rewrite getCalls_app. cbn. now rewrite app_nil_r. }
    rewrite Hc. repeat split; eauto.
  - exists (Return []), [], (nextObjectId s),
      [ListCall (listOptionsOf options); InfoNoNewEmails].
    rewrite grown_nil, ?app_nil_r, <- !app_assoc. cbn [app].
    repeat split; eauto; try (cbn; lia); try apply incl_nil_l.
Qed.

(** X20. Whatever the mailbox answers, [fetchEmails] only appends to the
    message store: the stored messages are the old ones followed by the
    new ones, every new one has its required fields and both flags off,
    and the digests and the services' trace are untouched. When it
    returns, it returns exactly the messages it stored; when it throws, it
    stored nothing. *)
Theorem fetchEmails_only_appends_fresh_messages
  (mb : Mailbox) (options : FetchOptions) (s : State) (t : list FetchEvent) :
  exists added,
    emailStore (fst (snd (fetchEmails mb options (s, t))))
    = emailStore s ++ added
    /\ forallb freshlyStored added = true
    /\ summaryStore (fst (snd (fetchEmails mb options (s, t))))
       = summaryStore s
    /\ trace (fst (snd (fetchEmails mb options (s, t)))) = trace s
    /\ (fst (fetchEmails mb options (s, t)) = Return added
        \/ (added = []
            /\ exists e, fst (fetchEmails mb options (s, t)) = Throw e)).
Proof.
  destruct (fetchEmails_frame mb options (s, t))
    as (out & added & next & evs & -> & _ & Hf & _ & _ & _ & _ & Hout).
  exists added. cbn [fst snd]. repeat split; auto.
  destruct out as [emails|e|]; [left|right|contradiction].
  - destruct Hout as [-> _]. reflexivity.
  - destruct Hout as [-> _]. eauto.
Qed.

(** X21. [fetchEmails] keeps [messageId] unique in the store, also when
    the listing names a message twice or the mailbox answers a request
    with another message's details. *)
Theorem fetchEmails_keeps_messageId_unique
  (mb : Mailbox) (options : FetchOptions) (s : State) (t : list FetchEvent)
  (Hunique : NoDup (map messageId (emailStore s))) :
  NoDup (map messageId
           (emailStore (fst (snd (fetchEmails mb options (s, t)))))).
Proof.
  destruct (fetchEmails_frame mb options (s, t))
    as (out & added & next & evs & -> & _ & _ & Hd & _).
  cbn [fst snd]. rewrite grown_emailStore. auto.
Qed.

Lemma fetchEmails_keeps_messageId_unique_witness :
  NoDup (map messageId
           (emailStore
              (fst (snd (fetchEmails Letterbox.mailbox defaultFetchOptions
                           (Scenario.start Scenario.wPlain, [])))))).
Proof.
  apply (fetchEmails_keeps_messageId_unique Letterbox.mailbox
           defaultFetchOptions (Scenario.start Scenario.wPlain) []).
  vm_compute.
  repeat (constructor; [cbn; intuition discriminate|]). constructor.
Defined.

(** X22. [fetchEmails] throws only when the credentials, the Gmail client
    or the listing fail, and then with that error; a failure on a single
    message (its details, its extraction, its validation or its save)
    never makes it throw. *)
Theorem fetchEmails_fails_only_at_setup
  (mb : Mailbox) (options : FetchOptions) (c : State * list FetchEvent) :
  match fst (fetchEmails mb options c) with
  | Return _ =>
      oauthFault mb = None /\ gmailFault mb = None
      /\ exists r, messagesList mb (listOptionsOf options) = inr r
  | Throw e =>
      oauthFault mb = Some e
      \/ (oauthFault mb = None /\ gmailFault mb = Some e)
      \/ (oauthFault mb = None /\ gmailFault mb = None
          /\ messagesList mb (listOptionsOf options) = inl e)
  | OutOfFuel => False
  end.
Proof.
  destruct (fetchEmails_frame mb options c)
    as (out & added & next & evs & -> & _ & _ & _ & _ & _ & _ & Hout).
  cbn [fst]. destruct out; tauto.
Qed.

(** X23. [fetchEmails] asks the mailbox for the details of listed
    messages only, never for one that was stored when it began, at most
    once per such listed message, and it stores at most as many messages
    as it asked for. *)
Theorem fetchEmails_request_budget
  (mb : Mailbox) (options : FetchOptions) (s : State) (t : list FetchEvent) :
  exists calls,
    getCalls (snd (snd (fetchEmails mb options (s, t))))
    = getCalls t ++ calls
    /\ incl calls (detailRequests (unseen (emailStore s) (listed mb options)))
    /\ (List.length calls
        <= List.length (unseen (emailStore s) (listed mb options)))%nat
    /\ (List.length (emailStore (fst (snd (fetchEmails mb options (s, t)))))
        <= List.length (emailStore s) + List.length calls)%nat.
Proof.
  destruct (fetchEmails_frame mb options (s, t))
    as (out & added & next & evs & -> & _ & _ & _ & Hla & Hlc & Hinc & _).
  cbn [fst snd] in *. exists (getCalls evs).
  rewrite grown_emailStore, getCalls_app, !length_app.
  repeat split; auto. lia.
Qed.

(** ** Extraction: headers, attachments and text *)

Lemma getProperty_setProperty key k v obj :
  getProperty key (setProperty k v obj)
  = if String.eqb k key then Some v else getProperty key obj.
Proof.
  induction obj as [|[k0 v0] r IH]; cbn; [reflexivity|].
  destruct (String.eqb k0 k) eqn:E0; cbn.
  - apply String.eqb_eq in E0. subst k0. now destruct (String.eqb k key).
  - rewrite IH. destruct (String.eqb k0 key) eqn:E1; [|reflexivity].
    destruct (String.eqb k key) eqn:E2; [|reflexivity].
    apply String.eqb_eq in E1, E2. subst. now rewrite String.eqb_refl in E0.
Qed.

Lemma find_snoc {A} (p : A -> bool) l x :
  find p (l ++ [x])
  = match find p l with
    | Some y => Some y
    | None => if p x then Some x else None
    end.
Proof.
  induction l as [|y r IH]; cbn; [reflexivity|].
  destruct (p y); [reflexivity|exact IH].
Qed.

Lemma getProperty_fold key headers :
  forall acc,
  getProperty key
    (fold_left (fun acc header =>
                  setProperty (toLowerCase (header_name header))
                              (header_value header) acc) headers acc)
  = match find (fun h => String.eqb (toLowerCase (header_name h)) key)
               (rev headers) with
    | Some h => Some (header_value h)
    | None => getProperty key acc
    end.
Proof.
  induction headers as [|h t IH]; intros acc; [reflexivity|].
  cbn [fold_left rev]. rewrite IH, find_snoc, getProperty_setProperty.
  destruct (find _ (rev t)); [reflexivity|].
  now destruct (String.eqb (toLowerCase (header_name h)) key).
Qed.

Lemma orElse_some v : orElse (Some v) EmptyString = v.
Proof. now destruct v. Qed.

Lemma headerOr_lastHeader headers key :
  headerOr (headersObject headers) key = lastHeader key headers.
Proof.
  unfold headerOr, headersObject, lastHeader. rewrite getProperty_fold.
  destruct (find _ (rev headers)); [apply orElse_some|reflexivity].
Qed.


Lemma attachmentsOfPart_inl p e : attachmentsOfPart p (inl e) = inl e.
Proof. destruct p; reflexivity. Qed.

Lemma attachments_fold_inl ps e :
  fold_left (fun a p => attachmentsOfPart p a) ps (inl e) = inl e.
Proof.
  induction ps as [|p r IH]; [reflexivity|].
  cbn [fold_left]. now rewrite attachmentsOfPart_inl.
Qed.

Lemma attachments_fold_spec l :
  Forall (fun p => forall atts,
            attachmentsOfPart p (inr atts) = attachmentsSpec (flatten p) atts) l ->
  forall atts,
    fold_left (fun a p => attachmentsOfPart p a) l (inr atts)
    = attachmentsSpec (flat_map flatten l) atts.
Proof.
  unfold attachmentsSpec.
  induction 1 as [|x r Hx _ IH]; intros atts.
  { cbn. now rewrite app_nil_r. }
  cbn [fold_left flat_map]. rewrite Hx, filter_app, forallb_app, map_app.
  destruct (forallb hasBody (filter named (flatten x))); cbn [andb].
  - rewrite IH, app_assoc. reflexivity.
  - apply attachments_fold_inl.
Qed.

Lemma attachmentsOfPart_spec p :
  forall atts, attachmentsOfPart p (inr atts) = attachmentsSpec (flatten p) atts.
Proof.
  induction p as [m f b ps IH] using Part_nested_ind. intros atts.
  cbn [attachmentsOfPart flatten]. unfold attachmentsSpec.
  cbn [filter]. change (named (mkPart m f b ps)) with (nonEmpty f).
  destruct (nonEmpty f) eqn:Hf.
  - cbn [forallb map].
    change (hasBody (mkPart m f b ps))
      with (match b with Some _ => true | None => false end).
    destruct b as [pb|]; cbn [andb].
    + destruct ps as [l|].
      * rewrite (attachments_fold_spec l IH). unfold attachmentsSpec.
        destruct (forallb hasBody (filter named (flat_map flatten l)));
          [|reflexivity].
        rewrite <- app_assoc. reflexivity.
      * reflexivity.
    + destruct ps as [l|]; [apply attachments_fold_inl|reflexivity].
  - destruct ps as [l|].
    + apply (attachments_fold_spec l IH).
    + cbn. now rewrite app_nil_r.
Qed.

Lemma processAttachments_spec parts :
  processAttachments parts = attachmentsSpec (allParts parts) [].
Proof.
  destruct parts as [l|]; [|reflexivity].
  cbn [processAttachments allParts].
  apply attachments_fold_spec.
  apply Forall_forall. intros p _. apply attachmentsOfPart_spec.
Qed.

(** X24. The sender, recipients and subject that [extractEmailData]
    reports are read from the headers without regard to letter case: each
    is the value of the last header of that name, and [''] when the
    message has no such header. *)
Theorem header_lookup_ignores_case_last_wins
  (mb : Mailbox) (message_ : GmailMessage) :
  match fst (extractEmailData mb message_) with
  | inr data =>
      data_from data
      = lastHeader "from" (payload_headers (gm_payload message_))
      /\ data_to data
         = lastHeader "to" (payload_headers (gm_payload message_))
      /\ data_cc data
         = lastHeader "cc" (payload_headers (gm_payload message_))
      /\ data_bcc data
         = lastHeader "bcc" (payload_headers (gm_payload message_))
      /\ data_subject data
         = lastHeader "subject" (payload_headers (gm_payload message_))
  | inl _ => True
  end.
Proof.
  unfold extractEmailData. cbv zeta.
  destruct (processAttachments (payload_parts (gm_payload message_)));
    cbn [fst]; [exact I|].
  cbn [data_from data_to data_cc data_bcc data_subject].
  rewrite !headerOr_lastHeader. repeat split.
Qed.

(** X25. The attachments that [extractEmailData] reports are the parts
    with a file name, at any depth, in document order, each with its own
    name, type, size and attachment identifier. The extraction throws
    exactly when one of these parts has no body. *)
Theorem attachments_are_the_named_parts
  (mb : Mailbox) (message_ : GmailMessage) :
  match fst (extractEmailData mb message_) with
  | inr data =>
      data_attachments data
      = map attachmentOf
          (filter named (allParts (payload_parts (gm_payload message_))))
      /\ forallb hasBody
           (filter named (allParts (payload_parts (gm_payload message_))))
         = true
  | inl e =>
      e = noBodyError
      /\ forallb hasBody
           (filter named (allParts (payload_parts (gm_payload message_))))
         = false
  end.
Proof.
  unfold extractEmailData. cbv zeta.
  rewrite processAttachments_spec. unfold attachmentsSpec.
  destruct (forallb hasBody
              (filter named (allParts (payload_parts (gm_payload message_)))));
    cbn [fst data_attachments app]; split; reflexivity.
Qed.

Lemma collapseFrom_singleSpaced s :
  forall b, singleSpaced b (collapseFrom b s) = true.
Proof.
  induction s as [|c r IH]; intros b; cbn; [reflexivity|].
  destruct (isWhitespace c) eqn:Hc.
  - destruct b; [apply IH|]. cbn. now rewrite IH.
  - cbn. rewrite Hc. apply IH.
Qed.

Lemma trimStart_singleSpaced s :
  forall b, singleSpaced b s = true -> singleSpaced true (trimStart s) = true.
Proof.
  induction s as [|c r IH]; intros b; cbn; [reflexivity|].
  destruct (isWhitespace c) eqn:Hc.
  - intros H. apply andb_prop in H as [_ H]. now apply (IH true).
  - intros H. cbn. now rewrite Hc.
Qed.

Lemma trimEnd_singleSpaced s :
  forall b, singleSpaced b s = true -> singleSpaced b (trimEnd s) = true.
Proof.
  induction s as [|c r IH]; intros b; [reflexivity|].
  cbn [trimEnd singleSpaced].
  destruct (isWhitespace c) eqn:Hc.
  - intros H. apply andb_prop in H as [H1 H2].
    specialize (IH true H2).
    destruct (trimEnd r) as [|c' r']; [reflexivity|].
    cbn [singleSpaced]. rewrite Hc, H1. exact IH.
  - intros H. specialize (IH false H).
    destruct (trimEnd r) as [|c' r'].
    + cbn. now rewrite Hc.
    + cbn [singleSpaced]. rewrite Hc. exact IH.
Qed.

(** X26. When cheerio reads the markup, the text that
    [extractTextFromHtml] returns has no white space at either end and no
    white space inside other than single blanks, and nothing is logged.
    When cheerio throws, the markup is returned as it was and the error is
    logged; the function itself never throws. *)
Theorem extractTextFromHtml_normalises (mb : Mailbox) (html : string) :
  match cheerioText mb html with
  | inr _ =>
      trim (fst (extractTextFromHtml mb html))
      = fst (extractTextFromHtml mb html)
      /\ singleSpaced true (fst (extractTextFromHtml mb html)) = true
      /\ snd (extractTextFromHtml mb html) = []
  | inl error =>
      extractTextFromHtml mb html = (html, [ErrorExtractingHtml error])
  end.
Proof.
  unfold extractTextFromHtml.
  destruct (cheerioText mb html) as [e|text]; [reflexivity|].
  cbn [fst snd]. split; [apply trim_idempotent|]. split; [|reflexivity].
  unfold trim, collapseWhitespace.
  apply trimEnd_singleSpaced, (trimStart_singleSpaced _ false),
    collapseFrom_singleSpaced.
Qed.

(** ** The job and the routes *)

(** What a call of [distributeSummary] can do, whatever happens. *)
Lemma distributeSummary_frame w id s :
  emailStore (snd (distributeSummary w id s)) = emailStore s
  /\ fst (distributeSummary w id s) <> OutOfFuel
  /\ exists evs,
       trace (snd (distributeSummary w id s)) = trace s ++ evs
       /\ (List.length (sendEmailCalls evs) <= 1)%nat
       /\ chatCalls evs = [].
Proof.
  destruct (findDigest id s) as [dg|] eqn:Hf.
  2: { rewrite (distributeSummary_not_found w id s Hf). cbn [fst snd].
       repeat split; [discriminate|]. eexists. split; [reflexivity|].
       cbn. split; [lia|reflexivity]. }
  destruct (isDistributed dg) eqn:Hd.
  { rewrite (distributeSummary_already w id s dg Hf Hd). cbn [fst snd].
    repeat split; [discriminate|]. eexists. split; [reflexivity|].
    cbn. split; [lia|reflexivity]. }
  destruct (SUMMARY_RECIPIENT_EMAIL w) as [[|c r]|] eqn:Hr.
  1, 3: rewrite (distributeSummary_no_recipient w id s dg Hf Hd)
          by (rewrite Hr; reflexivity);
        cbn [fst snd]; repeat split; [discriminate|];
        eexists; split; [reflexivity|]; cbn; split; [lia|reflexivity].
  rewrite (distributeSummary_send w id s dg c r Hf Hd Hr).
  destruct (sendEmail_frame w (String c r) (distributionSubject w dg) None
              (Some (emailBodyOf w dg)) s)
    as (He & _ & _ & Hfuel & evs & Ht & Hsend & Hchat).
  destruct (sendEmail w (String c r) (distributionSubject w dg) None
              (Some (emailBodyOf w dg)) s) as [[res|e|] s1];
    cbn [fst snd] in *; [| |congruence].
  - unfold recordDistribution, saveExisting, validate. run.
    cbn [content markDistributed summary_id].
    destruct (content dg); fields;
      [|destruct (existsb _ (summaryStore s1)); fields];
      cbn [fst snd trace emailStore]; rewrite Ht, <- ?app_assoc;
      (split; [exact He|]); (split; [discriminate|]);
      (eexists; split; [reflexivity|]);
      unfold sendEmailCalls, chatCalls in *;
      cbn [app filter isSendEmailCall isChatCall];
      rewrite !filter_app, ?Hsend, ?Hchat; cbn; (split; [lia|reflexivity]).
  - cbn [fst snd trace emailStore appendEvents]. fields. rewrite Ht, <- ?app_assoc.
    split; [exact He|]. split; [discriminate|].
    eexists; split; [reflexivity|].
    unfold sendEmailCalls, chatCalls in *.
    cbn [app filter isSendEmailCall isChatCall].
    rewrite !filter_app, ?Hsend, ?Hchat; cbn. split; [lia|reflexivity].
Qed.

Lemma persistAndMark_never_none w sd content_ cats emails s :
  fst (tryCatch (persistAndMark w sd content_ cats emails) rethrowCreating s)
  <> Return None.
Proof.
  unfoldPersist.
  destruct (concurrentSave w) as [other|]; fields;
    [destruct (content other); fields|];
    destruct content_; fields;
    repeat match goal with
      | |- context [if existsb ?p ?l then _ else _] =>
          destruct (existsb p l) eqn:?; fields
      end;
    try (destruct (updateManyFault w); fields);
    cbn [fst]; discriminate.
Qed.

(** The orchestrator answers [null] exactly when the day has no digest
    and no message to summarise. *)
Lemma createDailySummary_none w fuel d s :
  fst (createDailySummary fuel w d s) = Return None ->
  digestFor w d s = None /\ fetchedEmails w d s = [].
Proof.
  intros H.
  destruct (digestFor w d s) as [y|] eqn:Hd.
  { rewrite (createDailySummary_existing w fuel d s y Hd) in H. discriminate. }
  split; [reflexivity|].
  destruct (fetchedEmails w d s) as [|e0 es] eqn:Hf; [reflexivity|exfalso].
  destruct (makeBatches fuel (prepareEmailsForSummary (fetchedEmails w d s))
              (batchSizeOf w)) as [batches|] eqn:Hb.
  - destruct (createDailySummary_generate w fuel d s batches Hd
                ltac:(congruence) Hb) as (evs & _ & _ & _ & _ & Hrun).
    rewrite Hrun in H.
    destruct (chatCompletion w _ _); [discriminate|].
    now apply persistAndMark_never_none in H.
  - pose proof (createDailySummary_out_of_fuel w fuel d s Hd
                  ltac:(congruence) Hb) as Ho.
    rewrite H in Ho.
    destruct (arrayLimit <=? Z.of_nat fuel)%Z; discriminate.
Qed.

Lemma fetchEmails_setup_fault mb options c e :
  setupFault mb options = Some e ->
  exists evs,
    fetchEmails mb options c = (Throw e, (fst c, snd c ++ evs)).
Proof.
  intros Hs.
  destruct (fetchEmails_frame mb options c)
    as (out & added & next & evs & Hrun & _ & _ & _ & _ & _ & _ & Hout).
  exists evs. rewrite Hrun. unfold setupFault in Hs.
  destruct out as [emails|e'|]; [| |contradiction].
  - destruct Hout as (_ & Ho & Hg & r & Hl). rewrite Ho, Hg, Hl in Hs.
    discriminate.
  - destruct Hout as (-> & -> & Hcause). rewrite grown_nil.
    destruct Hcause as [Ho|[[Ho Hg]|(Ho & Hg & Hl)]];
      rewrite ?Ho, ?Hg, ?Hl in Hs; injection Hs as <-; reflexivity.
Qed.

(** X27. When the credentials, the Gmail client or the listing fail, the
    job throws that error before any summary work: no message or digest
    is stored or changed, no backend request is made and no mail is
    attempted. *)
Theorem job_stops_when_the_mailbox_fails
  (fuel : nat) (w : World) (mb : Mailbox) (s : State) (t : list FetchEvent)
  (e : JsError)
  (Hfault : setupFault mb defaultFetchOptions = Some e) :
  fst (startEmailSummaryJob fuel w mb (s, t)) = Throw e
  /\ fst (snd (startEmailSummaryJob fuel w mb (s, t))) = s
  /\ exists evs,
       snd (snd (startEmailSummaryJob fuel w mb (s, t)))
       = t ++ InfoJobStarting :: evs ++ [ErrorJob e].
Proof.
  unfold startEmailSummaryJob.
  cbv beta iota zeta delta [fbind ftry fret fthrow femit]. cbn [fst snd].
  destruct (fetchEmails_setup_fault mb defaultFetchOptions
              (s, t ++ [InfoJobStarting]) e Hfault) as (evs & ->).
  cbn [fst snd]. repeat split. exists evs.
  rewrite <- !app_assoc. reflexivity.
Qed.

Lemma job_stops_when_the_mailbox_fails_witness :
  fst (startEmailSummaryJob 10 Scenario.wPlain Letterbox.lockedMailbox
         (Scenario.start Scenario.wPlain, []))
  = Throw (PlainError "invalid_grant")
  /\ fst (snd (startEmailSummaryJob 10 Scenario.wPlain Letterbox.lockedMailbox
                 (Scenario.start Scenario.wPlain, [])))
     = Scenario.start Scenario.wPlain
  /\ exists evs,
       snd (snd (startEmailSummaryJob 10 Scenario.wPlain
                   Letterbox.lockedMailbox
                   (Scenario.start Scenario.wPlain, [])))
       = [] ++ InfoJobStarting :: evs ++ [ErrorJob (PlainError "invalid_grant")].
Proof.
  apply (job_stops_when_the_mailbox_fails 10 Scenario.wPlain
           Letterbox.lockedMailbox (Scenario.start Scenario.wPlain) []
           (PlainError "invalid_grant")).
  reflexivity.
Defined.

(** X28. A run of the job, whatever the mailbox, the backend and the
    transport do, attempts at most one mail, and loses or renumbers no
    stored message: the identifiers in the message store afterwards are
    the old ones followed by those of the messages the run stored. *)
Theorem job_run_budget
  (fuel : nat) (w : World) (mb : Mailbox) (s : State) (t : list FetchEvent) :
  (List.length
     (sendEmailCalls
        (trace (fst (snd (startEmailSummaryJob fuel w mb (s, t))))))
   <= List.length (sendEmailCalls (trace s)) + 1)%nat
  /\ exists added,
       forallb freshlyStored added = true
       /\ map email_id
            (emailStore (fst (snd (startEmailSummaryJob fuel w mb (s, t)))))
          = map email_id (emailStore s ++ added).
Proof.
  unfold startEmailSummaryJob.
  cbv beta iota zeta delta [fbind ftry fret fthrow femit lift]. cbn [fst snd].
  destruct (fetchEmails_frame mb defaultFetchOptions (s, t ++ [InfoJobStarting]))
    as (out & added & next & evs & -> & _ & Hfresh & _ & _ & _ & _ & Hout).
  cbn [fst snd] in *.
  destruct out as [emails|e|]; [| |contradiction]; cbn [fst snd].
  2: { destruct Hout as (-> & _). rewrite grown_trace, grown_emailStore.
       split; [lia|]. exists []. split; reflexivity. }
  set (s1 := grown s added next).
  set (yesterday := yesterdayOf w).
  destruct (createDailySummary_frame w fuel yesterday s1)
    as (Hstore & _ & evs1 & Ht1 & Hs1 & _).
  assert (Hids : map email_id
                   (emailStore (snd (createDailySummary fuel w yesterday s1)))
                 = map email_id (emailStore s ++ added)).
  { destruct Hstore as [->| ->]; [reflexivity|]. now rewrite markAll_ids. }
  destruct (createDailySummary fuel w yesterday s1) as [[[x|]|e|] s2];
    cbn [fst snd] in *.
  - destruct (distributeSummary_frame w (summary_id x) s2)
      as (He & _ & evs2 & Ht2 & Hs2 & _).
    assert (Hlen : (List.length
                      (sendEmailCalls
                         (trace (snd (distributeSummary w (summary_id x) s2))))
                    <= List.length (sendEmailCalls (trace s)) + 1)%nat).
    { rewrite Ht2, Ht1. unfold s1. rewrite grown_trace.
      rewrite !sendEmailCalls_app, !length_app, Hs1. cbn [List.length]. lia. }
    assert (Hids2 : map email_id
                      (emailStore (snd (distributeSummary w (summary_id x) s2)))
                    = map email_id (emailStore s ++ added))
      by now rewrite He.
    destruct (distributeSummary w (summary_id x) s2) as [[y|e|] s3];
      cbn [fst snd] in *; (split; [exact Hlen|]); exists added; auto.
  - split; [|exists added; auto].
    rewrite Ht1. unfold s1. rewrite grown_trace.
    rewrite !sendEmailCalls_app, !length_app, Hs1. cbn [List.length]. lia.
  - split; [|exists added; auto].
    rewrite Ht1. unfold s1. rewrite grown_trace.
    rewrite !sendEmailCalls_app, !length_app, Hs1. cbn [List.length]. lia.
  - split; [|exists added; auto].
    rewrite Ht1. unfold s1. rewrite grown_trace.
    rewrite !sendEmailCalls_app, !length_app, Hs1. cbn [List.length]. lia.
Qed.

(** X29. [POST /generate]. The date of the run is the one in the body
    when that value is truthy, the current time otherwise. For a day that
    already has a digest the answer is 200 with that digest, although
    nothing was generated. The answer is 404 exactly when the day has
    neither a digest nor a message to summarise; with messages to
    summarise it is 200 or 500, or none while the run is unfinished. A
    truthy value that is not a date is answered with 500 and changes
    neither store. *)
Theorem postGenerate_answers
  (fuel : nat) (w : World) (castError : JsError) (body : BodyDate)
  (s : State) :
  match (if date_truthy body then date_time body else Some (now w)) with
  | Some d =>
      match digestFor w d s, fetchedEmails w d s with
      | Some x, _ =>
          fst (postGenerate fuel w castError body s)
          = (Some (generated w d x), [])
          /\ summaryStore (snd (postGenerate fuel w castError body s))
             = summaryStore s
          /\ emailStore (snd (postGenerate fuel w castError body s))
             = emailStore s
      | None, [] =>
          statusOf (postGenerate fuel w castError body s) = Some 404%nat
          /\ summaryStore (snd (postGenerate fuel w castError body s))
             = summaryStore s
      | None, _ :: _ =>
          statusOf (postGenerate fuel w castError body s) = Some 200%nat
          \/ statusOf (postGenerate fuel w castError body s) = Some 500%nat
          \/ statusOf (postGenerate fuel w castError body s) = None
      end
  | None =>
      fst (postGenerate fuel w castError body s)
      = (Some {| statusCode := 500;
                 responseBody :=
                   ErrorResponse "Failed to generate summary"
                     (Some (message castError)) |},
         [ErrorGeneratingSummary castError])
      /\ summaryStore (snd (postGenerate fuel w castError body s))
         = summaryStore s
      /\ emailStore (snd (postGenerate fuel w castError body s))
         = emailStore s
      /\ chatCalls (trace (snd (postGenerate fuel w castError body s)))
         = chatCalls (trace s)
  end.
Proof.
  unfold postGenerate, statusOf, generated, requestDate.
  destruct (if date_truthy body then date_time body else Some (now w))
    as [d|].
  2: { unfold createDailySummaryInvalid. run. cbn.
       repeat split. unfold chatCalls. rewrite filter_app. cbn.
       apply app_nil_r. }
  destruct (digestFor w d s) as [x|] eqn:Hd.
  { rewrite (createDailySummary_existing w fuel d s x Hd). cbn. auto. }
  destruct (fetchedEmails w d s) as [|e0 es] eqn:Hf.
  { rewrite (createDailySummary_no_emails w fuel d s Hd Hf). cbn. auto. }
  pose proof (createDailySummary_none w fuel d s) as Hnone.
  destruct (createDailySummary fuel w d s) as [[[x|]|e|] s'];
    cbn [fst snd option_map statusCode]; auto.
  destruct (Hnone eq_refl) as [_ Habs]. congruence.
Qed.

(** A body whose date is the number 0 or the empty string asks for the
    current day: here day 0 has messages and the current day has none. *)
Example postGenerate_falsy_date_means_today :
  requestDate wPlain (numberDate 0) = Some (now wPlain)
  /\ requestDate wPlain (stringDate (fun _ => None) EmptyString)
     = Some (now wPlain)
  /\ requestDate wPlain (numberDate 5) = Some 5%Z
  /\ statusOf (postGenerate 4 wPlain (PlainError "Cast to date failed")
                 (numberDate 0) (start wPlain)) = Some 404%nat
  /\ statusOf (postGenerate 4 wPlain (PlainError "Cast to date failed")
                 (numberDate 5) (start wPlain)) = Some 200%nat.
Proof. vm_compute. repeat split; reflexivity. Qed.

(** X30. [POST /:id/distribute] always answers. For a string that is not
    an ObjectId the answer is 500 with the message of the CastError; for
    an ObjectId that names no digest it is 500, not 404; for a digest
    already distributed it is 200 with the stored distribution data. In
    these three cases no mail is attempted and no digest is changed. For
    a digest not yet distributed at most one mail is attempted. *)
Theorem postDistribute_answers (w : World) (param : IdParam) (s : State) :
  (exists r, fst (fst (postDistribute w param s)) = Some r)
  /\ match param with
     | UncastableParam raw castError =>
         fst (postDistribute w param s)
         = (Some {| statusCode := 500;
                    responseBody :=
                      ErrorResponse "Failed to distribute summary"
                        (Some (message castError)) |},
            [ErrorDistributingSummary param castError])
         /\ sendEmailCalls (trace (snd (postDistribute w param s)))
            = sendEmailCalls (trace s)
         /\ summaryStore (snd (postDistribute w param s)) = summaryStore s
     | ObjectIdParam id =>
         match findDigest id s with
         | None =>
             fst (postDistribute w param s)
             = (Some {| statusCode := 500;
                        responseBody :=
                          ErrorResponse "Failed to distribute summary"
                            (Some ("Summary with ID " ++ showNat id
                                   ++ " not found")%string) |},
                [ErrorDistributingSummary param
                   (PlainError ("Summary with ID " ++ showNat id
                                ++ " not found")%string)])
             /\ sendEmailCalls (trace (snd (postDistribute w param s)))
                = sendEmailCalls (trace s)
             /\ summaryStore (snd (postDistribute w param s))
                = summaryStore s
         | Some dg =>
             if isDistributed dg
             then fst (postDistribute w param s) = (Some (distributed dg), [])
                  /\ sendEmailCalls (trace (snd (postDistribute w param s)))
                     = sendEmailCalls (trace s)
                  /\ summaryStore (snd (postDistribute w param s))
                     = summaryStore s
             else (List.length
                     (sendEmailCalls
                        (trace (snd (postDistribute w param s))))
                   <= List.length (sendEmailCalls (trace s)) + 1)%nat
         end
     end.
Proof.
  unfold postDistribute, distributed.
  destruct param as [id|raw castError].
  2: { unfold distributeUncastable. run. cbn [fst snd]. split; [eauto|].
       split; [reflexivity|]. split; [|reflexivity].
       cbn. rewrite sendEmailCalls_app. cbn. apply app_nil_r. }
  split.
  { destruct (distributeSummary_frame w id s) as (_ & Hfuel & _).
    destruct (distributeSummary w id s) as [[x|e|] s']; cbn [fst snd] in *;
      [eauto|eauto|congruence]. }
  destruct (findDigest id s) as [dg|] eqn:Hf.
  2: { rewrite (distributeSummary_not_found w id s Hf). cbn [fst snd message].
       split; [reflexivity|]. split; [|reflexivity].
       cbn. rewrite sendEmailCalls_app. cbn. apply app_nil_r. }
  destruct (isDistributed dg) eqn:Hd.
  { rewrite (distributeSummary_already w id s dg Hf Hd). cbn [fst snd].
    split; [reflexivity|]. split; [|reflexivity].
    cbn. rewrite sendEmailCalls_app. cbn. apply app_nil_r. }
  destruct (distributeSummary_frame w id s) as (_ & _ & evs & Ht & Hs & _).
  destruct (distributeSummary w id s) as [[x|e|] s']; cbn [fst snd] in *;
    rewrite Ht, sendEmailCalls_app, length_app; lia.
Qed.
